(** * Verification of [mindface/recognition/eval.py]

    A shallow embedding of the face-verification evaluation pipeline:
    [calculate_accuracy], [calculate_val_far], [LFold], [calculate_roc],
    [calculate_val] and the batching loop of [test].

    Conventions of the embedding.
    - A Python exception is a value of [exn]; a Python function that may
      raise returns a [result].
    - Floating-point numbers are idealised as exact rationals ([Q]); the
      comparisons and the integer counts of the code are exact in either
      reading.
    - A one-dimensional numpy array is a [list]; a two-dimensional one is a
      list of rows together with its column count. *)

From Stdlib Require Import List Arith ZArith QArith Lia Bool.
Import ListNotations.

Set Implicit Arguments.

(** ** Exceptions *)

Inductive exn : Type :=
| ValueError
| ZeroDivisionError
| IndexError
| AssertionError
| AttributeError.

Inductive result (A : Type) : Type :=
| Ok (a : A)
| Raise (e : exn).

Arguments Ok {A} a.
Arguments Raise {A} e.

Definition bind {A B : Type} (r : result A) (k : A -> result B) : result B :=
  match r with
  | Ok a => k a
  | Raise e => Raise e
  end.

Notation "x <- c1 ;; c2" := (bind c1 (fun x => c2))
  (at level 61, c1 at next level, right associativity).
Notation "' pat <- c1 ;; c2" :=
  (bind c1 (fun x => match x with pat => c2 end))
  (at level 61, pat pattern, c1 at next level, right associativity).

(** ** The fragment of numpy and of Python arithmetic the module uses *)

Module Np.

(** [x < y] on floats, as a boolean. *)
Definition Qlt_bool (x y : Q) : bool := negb (Qle_bool y x).

(** [np.less(dist, threshold)] with a scalar threshold. *)
Definition less (dist : list Q) (threshold : Q) : list bool :=
  map (fun d => Qlt_bool d threshold) dist.

(** [np.logical_not]. *)
Definition logical_not (a : list bool) : list bool := map negb a.

Fixpoint zip_with {A B C : Type} (f : A -> B -> C) (xs : list A) (ys : list B)
  : list C :=
  match xs, ys with
  | x :: xs', y :: ys' => f x y :: zip_with f xs' ys'
  | _, _ => []
  end.

(** Binary element-wise operation on one-dimensional arrays, with numpy's
    broadcasting: equal lengths combine position by position, an array of
    length one is stretched to the other's length, and any other pair of
    lengths raises [ValueError]. *)
Definition broadcast2 {A B C : Type} (f : A -> B -> C)
  (xs : list A) (ys : list B) : result (list C) :=
  if length xs =? length ys then Ok (zip_with f xs ys)
  else match xs, ys with
       | [x], _ => Ok (map (f x) ys)
       | _, [y] => Ok (map (fun x => f x y) xs)
       | _, _ => Raise ValueError
       end.

(** [np.logical_and]. *)
Definition logical_and (a b : list bool) : result (list bool) :=
  broadcast2 andb a b.

(** [np.sum] of a boolean array: the number of [True] entries. *)
Fixpoint sum_bool (a : list bool) : nat :=
  match a with
  | [] => 0
  | true :: a' => S (sum_bool a')
  | false :: a' => sum_bool a'
  end.

(** [float(n)] for a non-negative integer count. *)
Definition float (n : nat) : Q := inject_Z (Z.of_nat n).

(** Python's [/] on floats (and on a float and an int): a zero divisor
    raises [ZeroDivisionError]. *)
Definition truediv (a b : Q) : result Q :=
  if Qeq_bool b 0 then Raise ZeroDivisionError else Ok (a / b).

(** [a[idx]] for an array [idx] of non-negative integer positions: every
    position must exist. *)
Fixpoint take {A : Type} (a : list A) (idx : list nat) : result (list A) :=
  match idx with
  | [] => Ok []
  | i :: idx' =>
      match nth_error a i with
      | Some x => rest <- take a idx' ;; Ok (x :: rest)
      | None => Raise IndexError
      end
  end.

(** [a[i]] for a non-negative integer [i]. *)
Definition getitem {A : Type} (a : list A) (i : nat) : result A :=
  match nth_error a i with
  | Some x => Ok x
  | None => Raise IndexError
  end.

Fixpoint update {A : Type} (a : list A) (i : nat) (v : A) : list A :=
  match a, i with
  | [], _ => []
  | _ :: a', O => v :: a'
  | x :: a', S i' => x :: update a' i' v
  end.

(** [a[i] = v]. *)
Definition setitem {A : Type} (a : list A) (i : nat) (v : A)
  : result (list A) :=
  if i <? length a then Ok (update a i v) else Raise IndexError.

(** [a[i, j] = v] on a two-dimensional array. *)
Definition setitem2 {A : Type} (a : list (list A)) (i j : nat) (v : A)
  : result (list (list A)) :=
  match nth_error a i with
  | Some row => row' <- setitem row j v ;; Ok (update a i row')
  | None => Raise IndexError
  end.

(** [np.zeros(n)] and [np.zeros((r, c))]. *)
Definition zeros (n : nat) : list Q := repeat 0 n.
Definition zeros2 (r c : nat) : list (list Q) := repeat (zeros c) r.

(** [np.arange(n)]. *)
Definition arange (n : nat) : list nat := seq 0 n.

(** [np.argmax]: the position of the first occurrence of the maximum;
    [ValueError] on an empty array. *)
Fixpoint argmax_from (best_idx : nat) (best : Q) (i : nat) (a : list Q)
  : nat :=
  match a with
  | [] => best_idx
  | x :: a' =>
      if Qlt_bool best x then argmax_from i x (S i) a'
      else argmax_from best_idx best (S i) a'
  end.

Definition argmax (a : list Q) : result nat :=
  match a with
  | [] => Raise ValueError
  | x :: a' => Ok (argmax_from 0 x 1 a')
  end.

(** [np.max]; [ValueError] on an empty array. *)
Definition amax (a : list Q) : result Q :=
  match a with
  | [] => Raise ValueError
  | x :: a' => Ok (fold_left (fun m y => if Qlt_bool m y then y else m) a' x)
  end.

Definition sum (a : list Q) : Q := fold_right Qplus 0 a.

(** [np.mean] of a one-dimensional array. *)
Definition mean (a : list Q) : Q := sum a / float (length a).

(** [np.mean(a, 0)] of a two-dimensional array with [c] columns: the mean of
    every column. *)
Definition mean_axis0 (a : list (list Q)) (c : nat) : list Q :=
  map (fun j => mean (map (fun row => nth j row 0) a)) (seq 0 c).

(** A two-dimensional array of floats: its rows and its second dimension
    (which an array without rows still has). *)
Record ndarray2 : Type := { rows : list (list Q); ncols : nat }.

Definition shape0 (m : ndarray2) : nat := length (rows m).
Definition shape1 (m : ndarray2) : nat := ncols m.

(** [m[:n]]: the first [n] rows of [m]. *)
Definition head_rows (n : nat) (m : ndarray2) : ndarray2 :=
  {| rows := firstn n (rows m); ncols := ncols m |}.

(** [np.sum(np.square(np.subtract(x, y)), 1)] on two arrays of one shape:
    the squared Euclidean distance of every pair of rows. *)
Definition sqdist_row (r1 r2 : list Q) : Q :=
  sum (zip_with (fun a b => (a - b) * (a - b)) r1 r2).

Definition sqdist (x y : list (list Q)) : list Q := zip_with sqdist_row x y.

(** Python slices [a[start:stop]] and [a[start:]] with integer bounds: a
    negative bound counts from the end, and every bound is clipped to the
    array. *)
Definition clip (len : nat) (i : Z) : nat :=
  if (i <? 0)%Z then Z.to_nat (Z.max 0 (i + Z.of_nat len))
  else Nat.min (Z.to_nat i) len.

Definition slice {A : Type} (a : list A) (start stop : Z) : list A :=
  let s := clip (length a) start in
  let e := clip (length a) stop in
  firstn (e - s) (skipn s a).

Definition slice_from {A : Type} (a : list A) (start : Z) : list A :=
  skipn (clip (length a) start) a.

(** [a[start:stop, :] = rhs] on the rows of a two-dimensional array: the
    right-hand side must have as many rows as the slice selects, or exactly
    one row (which is then repeated); anything else raises [ValueError]. *)
Definition setitem_slice {A : Type} (a : list A) (start stop : Z)
  (rhs : list A) : result (list A) :=
  let s := clip (length a) start in
  let e := clip (length a) stop in
  let n := (e - s)%nat in
  if length rhs =? n then Ok (firstn s a ++ rhs ++ skipn (s + n) a)
  else match rhs with
       | [r] => Ok (firstn s a ++ repeat r n ++ skipn (s + n) a)
       | _ => Raise ValueError
       end.

End Np.

(** [assert c]. *)
Definition assert (c : bool) : result unit :=
  if c then Ok tt else Raise AssertionError.

(** ** The library functions the module calls

    [sklearn.decomposition.PCA], [sklearn.preprocessing.normalize],
    [scipy.interpolate.interp1d] and the square root of [np.std] are not
    part of the repository; the evaluation code is modelled over any
    implementation of them.  [PCA_transform] and [normalize] act on every
    row of their argument separately, which their types record;
    [interp1d_slinear x y x_new] stands for
    [interpolate.interp1d(x, y, kind='slinear')(x_new)]. *)
Class External : Type := {
  pca_model : Type;
  PCA_fit : nat -> list (list Q) -> result pca_model;
  PCA_transform : pca_model -> list Q -> list Q;
  normalize : list Q -> list Q;
  interp1d_slinear : list Q -> list Q -> Q -> result Q;
  np_sqrt : Q -> Q
}.

(** ** [calculate_accuracy] (eval.py, lines 100-115) *)

(** Line 104 (and line 166): the predictions. *)
Definition predict_issame (threshold : Q) (dist : list Q) : list bool :=
  Np.less dist threshold.

(** Lines 104-110: the predictions and the four confusion counts
    [(tp, fp, tn, fn)]. *)
Definition confusion (threshold : Q) (dist : list Q) (actual_issame : list bool)
  : result (nat * nat * nat * nat) :=
  let predict_issame := predict_issame threshold dist in
  a_tp <- Np.logical_and predict_issame actual_issame ;;
  let tp := Np.sum_bool a_tp in
  a_fp <- Np.logical_and predict_issame (Np.logical_not actual_issame) ;;
  let fp := Np.sum_bool a_fp in
  a_tn <- Np.logical_and (Np.logical_not predict_issame)
                         (Np.logical_not actual_issame) ;;
  let tn := Np.sum_bool a_tn in
  a_fn <- Np.logical_and (Np.logical_not predict_issame) actual_issame ;;
  let fn := Np.sum_bool a_fn in
  Ok (tp, fp, tn, fn).

(** Lines 112-115: the rates.  [tpr] and [fpr] are guarded against a zero
    denominator; the division by [dist.size] is not. *)
Definition calculate_accuracy (threshold : Q) (dist : list Q)
  (actual_issame : list bool) : result (Q * Q * Q) :=
  '(tp, fp, tn, fn) <- confusion threshold dist actual_issame ;;
  tpr <- (if tp + fn =? 0 then Ok 0
          else Np.truediv (Np.float tp) (Np.float (tp + fn))) ;;
  fpr <- (if fp + tn =? 0 then Ok 0
          else Np.truediv (Np.float fp) (Np.float (fp + tn))) ;;
  acc <- Np.truediv (Np.float (tp + tn)) (Np.float (length dist)) ;;
  Ok (tpr, fpr, acc).

(** ** [calculate_val_far] (eval.py, lines 162-174) *)

Definition calculate_val_far (threshold : Q) (dist : list Q)
  (actual_issame : list bool) : result (Q * Q) :=
  let predict_issame := predict_issame threshold dist in
  a_ta <- Np.logical_and predict_issame actual_issame ;;
  let true_accept := Np.sum_bool a_ta in
  a_fa <- Np.logical_and predict_issame (Np.logical_not actual_issame) ;;
  let false_accept := Np.sum_bool a_fa in
  let n_same := Np.sum_bool actual_issame in
  let n_diff := Np.sum_bool (Np.logical_not actual_issame) in
  val <- Np.truediv (Np.float true_accept) (Np.float n_same) ;;
  far <- Np.truediv (Np.float false_accept) (Np.float n_diff) ;;
  Ok (val, far).

(** ** The reading of the confusion counts in the specification

    A pair is a distance with its label; it is predicted "same" when its
    distance is strictly below the threshold. *)

Module Spec.

Definition predicted_same (threshold d : Q) : Prop := d < threshold.

Definition count_pairs (p : Q -> bool -> bool) (dist : list Q)
  (labels : list bool) : nat :=
  length (filter (fun dl => p (fst dl) (snd dl)) (combine dist labels)).

Definition TP (t : Q) := count_pairs (fun d l => Np.Qlt_bool d t && l).
Definition FP (t : Q) := count_pairs (fun d l => Np.Qlt_bool d t && negb l).
Definition TN (t : Q) :=
  count_pairs (fun d l => negb (Np.Qlt_bool d t) && negb l).
Definition FN (t : Q) := count_pairs (fun d l => negb (Np.Qlt_bool d t) && l).

(** A rate [num/den] with the zero-denominator convention. *)
Definition rate (num den : nat) : Q :=
  if den =? 0 then 0 else Np.float num / Np.float den.

(** The contract of section 4.2, as one proposition about one input. *)
Definition accuracy_contract (t : Q) (dist : list Q) (labels : list bool)
  : Prop :=
  (forall i d, nth_error dist i = Some d ->
     (nth_error (predict_issame t dist) i = Some true
      <-> predicted_same t d)) /\
  calculate_accuracy t dist labels =
    Ok (rate (TP t dist labels) (TP t dist labels + FN t dist labels),
        rate (FP t dist labels) (FP t dist labels + TN t dist labels),
        Np.float (TP t dist labels + TN t dist labels)
          / Np.float (length dist)).

End Spec.

(** ** [LFold] (eval.py, lines 24-39) *)

Module KFold.

(** Modelled from the spec: the group sizes of
    [sklearn.model_selection.KFold], which is imported at line 14 and is not
    part of the repository.  Section 4.1 asks for [k] contiguous groups;
    scikit-learn gives each [n / k] indices and one more to the first
    [n mod k] groups. *)
Definition fold_sizes (n_splits n_samples : nat) : list nat :=
  map (fun i => (n_samples / n_splits
                 + (if i <? n_samples mod n_splits then 1 else 0))%nat)
      (seq 0 n_splits).

(** Modelled from the spec: the folds of [KFold] over the groups of the
    given sizes, from position [current] on.  Section 4.1: fold [i] tests
    on group [i] and trains on the union of the other groups. *)
Fixpoint folds_from (n_samples current : nat) (sizes : list nat)
  : list (list nat * list nat) :=
  match sizes with
  | [] => []
  | fold_size :: sizes' =>
      let stop := (current + fold_size)%nat in
      (seq 0 current ++ seq stop (n_samples - stop), seq current fold_size)
        :: folds_from n_samples stop sizes'
  end.

(** Modelled from the spec: [KFold(n_splits, shuffle=False).split(X)] of
    scikit-learn, which is not part of the repository.  Section 4.1: the
    positions [0..n-1] of [X] are partitioned into [n_splits] contiguous
    groups, one fold per group, and fewer samples than folds is an error;
    in Python the error is a [ValueError], raised when the first fold is
    requested. *)
Definition split (n_splits : nat) (X : list nat)
  : result (list (list nat * list nat)) :=
  let n_samples := length X in
  if n_samples <? n_splits then Raise ValueError
  else Ok (folds_from n_samples 0 (fold_sizes n_splits n_samples)).

End KFold.

Module LFold.

(** [LFold(n_splits, shuffle=False)]: both call sites pass
    [shuffle=False]. *)
Record t : Type := { n_splits : nat }.

Definition init (n_splits : nat) : t := {| n_splits := n_splits |}.

Definition split (self : t) (indices : list nat)
  : result (list (list nat * list nat)) :=
  if 1 <? n_splits self then KFold.split (n_splits self) indices
  else Ok [(indices, indices)].

End LFold.

(** ** [calculate_roc] (eval.py, lines 42-97) *)

Section Evaluation.

Context {E : External}.

(** Lines 67-79: the distances a fold works with.  Without PCA they are
    the distances computed once at lines 63-64. *)
Definition roc_fold_dist (pca : nat) (embeddings1 embeddings2 : Np.ndarray2)
  (train_set : list nat) (dist : list Q) : result (list Q) :=
  if 0 <? pca then
    embed1_train <- Np.take (Np.rows embeddings1) train_set ;;
    embed2_train <- Np.take (Np.rows embeddings2) train_set ;;
    let embed_train := embed1_train ++ embed2_train in
    pca_model <- PCA_fit pca embed_train ;;
    let embed1 := map (PCA_transform pca_model) (Np.rows embeddings1) in
    let embed2 := map (PCA_transform pca_model) (Np.rows embeddings2) in
    let embed1 := map normalize embed1 in
    let embed2 := map normalize embed2 in
    Ok (Np.sqdist embed1 embed2)
  else Ok dist.

(** Lines 83-85: the loop that fills [acc_train]. *)
Fixpoint roc_train_loop (thresholds : list Q) (threshold_idx : nat)
  (dist : list Q) (actual_issame : list bool) (train_set : list nat)
  (acc_train : list Q) : result (list Q) :=
  match thresholds with
  | [] => Ok acc_train
  | threshold :: thresholds' =>
      d <- Np.take dist train_set ;;
      l <- Np.take actual_issame train_set ;;
      '(_, _, acc) <- calculate_accuracy threshold d l ;;
      acc_train <- Np.setitem acc_train threshold_idx acc ;;
      roc_train_loop thresholds' (S threshold_idx) dist actual_issame
        train_set acc_train
  end.

(** Lines 87-90: the loop that fills row [fold_idx] of [tprs] and [fprs]. *)
Fixpoint roc_test_loop (thresholds : list Q) (threshold_idx : nat)
  (fold_idx : nat) (dist : list Q) (actual_issame : list bool)
  (test_set : list nat) (tprs fprs : list (list Q))
  : result (list (list Q) * list (list Q)) :=
  match thresholds with
  | [] => Ok (tprs, fprs)
  | threshold :: thresholds' =>
      d <- Np.take dist test_set ;;
      l <- Np.take actual_issame test_set ;;
      '(tpr, fpr, _) <- calculate_accuracy threshold d l ;;
      tprs <- Np.setitem2 tprs fold_idx threshold_idx tpr ;;
      fprs <- Np.setitem2 fprs fold_idx threshold_idx fpr ;;
      roc_test_loop thresholds' (S threshold_idx) fold_idx dist
        actual_issame test_set tprs fprs
  end.

(** Lines 67-93: the body of the loop over the folds. *)
Definition roc_fold (thresholds : list Q)
  (embeddings1 embeddings2 : Np.ndarray2) (actual_issame : list bool)
  (pca : nat) (dist : list Q) (fold_idx : nat)
  (fold : list nat * list nat)
  (st : list (list Q) * list (list Q) * list Q)
  : result (list (list Q) * list (list Q) * list Q) :=
  let '(train_set, test_set) := fold in
  let '(tprs, fprs, accuracy) := st in
  let nrof_thresholds := length thresholds in
  dist <- roc_fold_dist pca embeddings1 embeddings2 train_set dist ;;
  let acc_train := Np.zeros nrof_thresholds in
  acc_train <- roc_train_loop thresholds 0 dist actual_issame train_set
                 acc_train ;;
  best_threshold_index <- Np.argmax acc_train ;;
  '(tprs, fprs) <- roc_test_loop thresholds 0 fold_idx dist actual_issame
                     test_set tprs fprs ;;
  threshold <- Np.getitem thresholds best_threshold_index ;;
  d <- Np.take dist test_set ;;
  l <- Np.take actual_issame test_set ;;
  '(_, _, acc) <- calculate_accuracy threshold d l ;;
  accuracy <- Np.setitem accuracy fold_idx acc ;;
  Ok (tprs, fprs, accuracy).

(** Line 66: the loop over [enumerate(k_fold.split(indices))]. *)
Fixpoint roc_folds_loop (thresholds : list Q)
  (embeddings1 embeddings2 : Np.ndarray2) (actual_issame : list bool)
  (pca : nat) (dist : list Q) (fold_idx : nat)
  (folds : list (list nat * list nat))
  (st : list (list Q) * list (list Q) * list Q)
  : result (list (list Q) * list (list Q) * list Q) :=
  match folds with
  | [] => Ok st
  | fold :: folds' =>
      st <- roc_fold thresholds embeddings1 embeddings2 actual_issame pca
              dist fold_idx fold st ;;
      roc_folds_loop thresholds embeddings1 embeddings2 actual_issame pca
        dist (S fold_idx) folds' st
  end.

Definition calculate_roc (thresholds : list Q)
  (embeddings1 embeddings2 : Np.ndarray2) (actual_issame : list bool)
  (nrof_folds : nat) (pca : nat)
  : result (list Q * list Q * list Q) :=
  _ <- assert (Np.shape0 embeddings1 =? Np.shape0 embeddings2) ;;
  _ <- assert (Np.shape1 embeddings1 =? Np.shape1 embeddings2) ;;
  let nrof_pairs := Nat.min (length actual_issame) (Np.shape0 embeddings1) in
  let nrof_thresholds := length thresholds in
  let k_fold := LFold.init nrof_folds in
  let tprs := Np.zeros2 nrof_folds nrof_thresholds in
  let fprs := Np.zeros2 nrof_folds nrof_thresholds in
  let accuracy := Np.zeros nrof_folds in
  let indices := Np.arange nrof_pairs in
  let dist := if pca =? 0
              then Np.sqdist (Np.rows embeddings1) (Np.rows embeddings2)
              else [] in
  folds <- LFold.split k_fold indices ;;
  '(tprs, fprs, accuracy) <-
     roc_folds_loop thresholds embeddings1 embeddings2 actual_issame pca
       dist 0 folds (tprs, fprs, accuracy) ;;
  let tpr := Np.mean_axis0 tprs nrof_thresholds in
  let fpr := Np.mean_axis0 fprs nrof_thresholds in
  Ok (tpr, fpr, accuracy).

(** ** [calculate_val] (eval.py, lines 118-159) *)

(** Lines 144-146: the loop that fills [far_train]. *)
Fixpoint val_train_loop (thresholds : list Q) (threshold_idx : nat)
  (dist : list Q) (actual_issame : list bool) (train_set : list nat)
  (far_train : list Q) : result (list Q) :=
  match thresholds with
  | [] => Ok far_train
  | threshold :: thresholds' =>
      d <- Np.take dist train_set ;;
      l <- Np.take actual_issame train_set ;;
      '(_, far) <- calculate_val_far threshold d l ;;
      far_train <- Np.setitem far_train threshold_idx far ;;
      val_train_loop thresholds' (S threshold_idx) dist actual_issame
        train_set far_train
  end.

(** Lines 147-151: the threshold of a fold. *)
Definition val_threshold (thresholds far_train : list Q) (far_target : Q)
  : result Q :=
  m <- Np.amax far_train ;;
  if Qle_bool far_target m
  then interp1d_slinear far_train thresholds far_target
  else Ok 0.

(** Lines 142-154: the body of the loop over the folds. *)
Definition val_fold (thresholds : list Q) (dist : list Q)
  (actual_issame : list bool) (far_target : Q) (fold_idx : nat)
  (fold : list nat * list nat) (st : list Q * list Q)
  : result (list Q * list Q) :=
  let '(train_set, test_set) := fold in
  let '(val, far) := st in
  let nrof_thresholds := length thresholds in
  let far_train := Np.zeros nrof_thresholds in
  far_train <- val_train_loop thresholds 0 dist actual_issame train_set
                 far_train ;;
  threshold <- val_threshold thresholds far_train far_target ;;
  d <- Np.take dist test_set ;;
  l <- Np.take actual_issame test_set ;;
  '(v, f) <- calculate_val_far threshold d l ;;
  val <- Np.setitem val fold_idx v ;;
  far <- Np.setitem far fold_idx f ;;
  Ok (val, far).

Fixpoint val_folds_loop (thresholds : list Q) (dist : list Q)
  (actual_issame : list bool) (far_target : Q) (fold_idx : nat)
  (folds : list (list nat * list nat)) (st : list Q * list Q)
  : result (list Q * list Q) :=
  match folds with
  | [] => Ok st
  | fold :: folds' =>
      st <- val_fold thresholds dist actual_issame far_target fold_idx
              fold st ;;
      val_folds_loop thresholds dist actual_issame far_target (S fold_idx)
        folds' st
  end.

(** [np.std]: the square root of the mean squared deviation from the mean
    (no Bessel correction). *)
Definition np_std (a : list Q) : Q :=
  np_sqrt (Np.mean (map (fun x => (x - Np.mean a) * (x - Np.mean a)) a)).

Definition calculate_val (thresholds : list Q)
  (embeddings1 embeddings2 : Np.ndarray2) (actual_issame : list bool)
  (far_target : Q) (nrof_folds : nat) : result (Q * Q * Q) :=
  _ <- assert (Np.shape0 embeddings1 =? Np.shape0 embeddings2) ;;
  _ <- assert (Np.shape1 embeddings1 =? Np.shape1 embeddings2) ;;
  let nrof_pairs := Nat.min (length actual_issame) (Np.shape0 embeddings1) in
  let k_fold := LFold.init nrof_folds in
  let val := Np.zeros nrof_folds in
  let far := Np.zeros nrof_folds in
  let dist := Np.sqdist (Np.rows embeddings1) (Np.rows embeddings2) in
  let indices := Np.arange nrof_pairs in
  folds <- LFold.split k_fold indices ;;
  '(val, far) <- val_folds_loop thresholds dist actual_issame far_target 0
                   folds (val, far) ;;
  let val_mean := Np.mean val in
  let far_mean := Np.mean far in
  let val_std := np_std val in
  Ok (val_mean, val_std, far_mean).

End Evaluation.

(** ** The batching loop of [test] (eval.py, lines 238-257)

    [Img] is an image, [Emb] an embedding vector; [scale] is the pixel
    normalisation of line 247 and [backbone] the network.  The loop is
    modelled with the list of batches handed to [backbone] so far, so that
    the calls can be counted; [None] means the fuel ran out. *)

Section Harness.

Variables Img Emb : Type.
Variable scale : Img -> Img.
Variable backbone : list Img -> result (list Emb).

Definition batch_step_assign (embeddings : option (list Emb))
  (ba bb batch_size count : Z) : result (list Emb) :=
  embeddings <- match embeddings with
                | None => Raise AttributeError
                | Some e => Ok e
                end ;;
  Np.setitem_slice embeddings ba bb
    (Np.slice_from embeddings (batch_size - count)).

Fixpoint batch_loop (fuel : nat) (data : list Img) (batch_size : Z)
  (ba : Z) (embeddings : option (list Emb)) (calls : list (list Img))
  : option (result (option (list Emb)) * list (list Img)) :=
  if (ba <? Z.of_nat (length data))%Z then
    match fuel with
    | O => None
    | S fuel' =>
        let bb := Z.min (ba + batch_size) (Z.of_nat (length data)) in
        let count := (bb - ba)%Z in
        let b_data := Np.slice data (bb - batch_size) bb in
        let img := map scale b_data in
        let calls := calls ++ [img] in
        match backbone img with
        | Raise e => Some (Raise e, calls)
        | Ok net_out =>
            let embeddings := Some net_out in
            match batch_step_assign embeddings ba bb batch_size count with
            | Raise e => Some (Raise e, calls)
            | Ok embeddings =>
                batch_loop fuel' data batch_size bb (Some embeddings) calls
            end
        end
    end
  else Some (Ok embeddings, calls).

(** One pass of the loop at line 238: [embeddings = None], [ba = 0], then
    the [while] loop.  With a positive batch size, [ba] grows at every
    turn, so [length data] turns suffice. *)
Definition embed_pass (data : list Img) (batch_size : Z)
  (calls : list (list Img))
  : option (result (option (list Emb)) * list (list Img)) :=
  batch_loop (length data) data batch_size 0 None calls.

(** Lines 236-257: the passes over [data_list], collecting
    [embeddings_list]. *)
Fixpoint embed_passes (data_list : list (list Img)) (batch_size : Z)
  (embeddings_list : list (option (list Emb))) (calls : list (list Img))
  : option (result (list (option (list Emb))) * list (list Img)) :=
  match data_list with
  | [] => Some (Ok embeddings_list, calls)
  | data :: data_list' =>
      match embed_pass data batch_size calls with
      | None => None
      | Some (Raise e, calls) => Some (Raise e, calls)
      | Some (Ok embeddings, calls) =>
          embed_passes data_list' batch_size
            (embeddings_list ++ [embeddings]) calls
      end
  end.

End Harness.

(** ** The per-fold algorithms of sections 4.3 and 4.4, in the
    specification's words *)

Module FoldSpec.

(** ThresholdAccuracy on the pairs at positions [idx], at threshold [t]. *)
Definition accuracy_at (dist : list Q) (labels : list bool)
  (idx : list nat) (t : Q) : result (Q * Q * Q) :=
  d <- Np.take dist idx ;;
  l <- Np.take labels idx ;;
  calculate_accuracy t d l.

(** [(VAL, FAR)] on the pairs at positions [idx], at threshold [t]. *)
Definition val_far_at (dist : list Q) (labels : list bool)
  (idx : list nat) (t : Q) : result (Q * Q) :=
  d <- Np.take dist idx ;;
  l <- Np.take labels idx ;;
  calculate_val_far t d l.

(** [i] is the position of a maximum of [a], and the lowest such. *)
Definition first_argmax (a : list Q) (i : nat) : Prop :=
  exists x,
    nth_error a i = Some x /\
    (forall j y, nth_error a j = Some y -> y <= x) /\
    (forall j y, nth_error a j = Some y -> (j < i)%nat -> y < x).

(** [m] is the maximum of [a]: it bounds [a], and equals one of its
    entries. *)
Definition is_max (a : list Q) (m : Q) : Prop :=
  (forall x, In x a -> x <= m) /\ (exists x, In x a /\ x == m).

(** What section 4.3 records for one fold: the ROC points [(tpr, fpr)], one
    per grid threshold, and the held-out accuracy. *)
Record roc_fold_result : Type := {
  roc_points : list (Q * Q);
  fold_accuracy : Q
}.

Definition tpr_curve (r : roc_fold_result) : list Q := map fst (roc_points r).
Definition fpr_curve (r : roc_fold_result) : list Q := map snd (roc_points r).

(** Section 4.3, steps 1 to 3, for one fold [(train, test)]. *)
Definition roc_fold_spec (thresholds dist : list Q) (labels : list bool)
  (fold : list nat * list nat) (r : roc_fold_result) : Prop :=
  exists (acc_train : list Q) (best : nat) (threshold : Q),
    Forall2 (fun t a => exists tpr fpr,
                 accuracy_at dist labels (fst fold) t = Ok (tpr, fpr, a))
            thresholds acc_train /\
    first_argmax acc_train best /\
    Forall2 (fun t p => exists a,
                 accuracy_at dist labels (snd fold) t = Ok (fst p, snd p, a))
            thresholds (roc_points r) /\
    nth_error thresholds best = Some threshold /\
    exists tpr fpr,
      accuracy_at dist labels (snd fold) threshold
      = Ok (tpr, fpr, fold_accuracy r).

(** Section 4.4, steps 1 to 3, for one fold [(train, test)]: the fold's
    [(VAL, FAR)]. *)
Definition val_fold_spec {E : External} (thresholds dist : list Q)
  (labels : list bool) (far_target : Q) (fold : list nat * list nat)
  (vf : Q * Q) : Prop :=
  exists (far_train : list Q) (max_far threshold : Q),
    Forall2 (fun t f => exists v,
                 val_far_at dist labels (fst fold) t = Ok (v, f))
            thresholds far_train /\
    is_max far_train max_far /\
    (far_target <= max_far ->
     interp1d_slinear far_train thresholds far_target = Ok threshold) /\
    (~ far_target <= max_far -> threshold = 0) /\
    val_far_at dist labels (snd fold) threshold = Ok vf.

(** The arithmetic mean, position by position, of [curves], each of length
    [len]. *)
Definition pointwise_mean (curves : list (list Q)) (len : nat) : list Q :=
  map (fun j => Np.sum (map (fun c => nth j c 0) curves)
                / Np.float (length curves))
      (seq 0 len).

(** The population standard deviation, up to the square root function. *)
Definition population_std {E : External} (a : list Q) : Q :=
  np_sqrt (Np.sum (map (fun x => (x - Np.mean a) * (x - Np.mean a)) a)
           / Np.float (length a)).

End FoldSpec.

(** ** The state of the fold loops and the outcome of one fold *)

Section FoldOutcomes.

Context {E : External}.

(** The shape of the arrays the fold loop of [calculate_roc] works on: [k]
    rows of [length thresholds] entries, and [k] accuracies. *)
Definition roc_state_ok (thresholds : list Q) (k : nat)
  (st : list (list Q) * list (list Q) * list Q) : Prop :=
  let '(tprs, fprs, accuracy) := st in
  length tprs = k /\ length fprs = k /\ length accuracy = k /\
  Forall (fun row => length row = length thresholds) tprs /\
  Forall (fun row => length row = length thresholds) fprs.

(** What one fold of [calculate_roc] records: section 4.3's steps on the
    distances of the fold (those of the PCA pre-step when it is active). *)
Definition roc_fold_outcome (thresholds : list Q)
  (embeddings1 embeddings2 : Np.ndarray2) (actual_issame : list bool)
  (pca : nat) (dist0 : list Q) (fold : list nat * list nat)
  (r : FoldSpec.roc_fold_result) : Prop :=
  exists dist,
    roc_fold_dist pca embeddings1 embeddings2 (fst fold) dist0 = Ok dist /\
    FoldSpec.roc_fold_spec thresholds dist actual_issame fold r.

End FoldOutcomes.

(** Every index of a fold is below [n]. *)
Definition fold_in_range (n : nat) (fold : list nat * list nat) : Prop :=
  Forall (fun i => (i < n)%nat) (fst fold) /\
  Forall (fun i => (i < n)%nat) (snd fold).

(** ** One implementation of the library functions, and small inputs, to
    run the definitions *)

Module Example.

(** The square root of a non-negative rational, rounded down to six
    decimals. *)
Definition sqrt6 (x : Q) : Q :=
  Z.sqrt (Qnum x * Z.pos (Qden x) * 1000000000000)
  # (Qden x * 1000000).

(** [insert_point p pts] puts the point [p] into [pts], which is sorted by
    abscissa, behind the points whose abscissa is not larger. *)
Fixpoint insert_point (p : Q * Q) (pts : list (Q * Q)) : list (Q * Q) :=
  match pts with
  | [] => [p]
  | q :: pts' =>
      if Qle_bool (fst q) (fst p) then q :: insert_point p pts'
      else p :: pts
  end.

(** The points sorted by abscissa, as [interp1d] sorts its arguments
    ([assume_sorted=False]). *)
Definition sort_points (pts : list (Q * Q)) : list (Q * Q) :=
  fold_left (fun sorted p => insert_point p sorted) pts [].

Fixpoint strictly_ascending (xs : list Q) : bool :=
  match xs with
  | x0 :: ((x1 :: _) as xs') => Np.Qlt_bool x0 x1 && strictly_ascending xs'
  | _ => true
  end.

(** The value at [x] of the polygonal line through [pts], whose abscissas
    ascend strictly; a point outside their range raises, as scipy does by
    default ([bounds_error]). *)
Fixpoint segments (pts : list (Q * Q)) (x : Q) : result Q :=
  match pts with
  | p0 :: ((p1 :: _) as pts') =>
      if Qle_bool (fst p0) x && Qle_bool x (fst p1)
      then Ok (snd p0
               + (x - fst p0) * (snd p1 - snd p0) / (fst p1 - fst p0))
      else segments pts' x
  | _ => Raise ValueError
  end.

(** [interpolate.interp1d(xs, ys, kind='slinear')(x)]: piecewise-linear
    interpolation through the points [(xs, ys)], sorted by abscissa.  As
    scipy does, it raises [ValueError] on arrays of different lengths, on
    fewer than two points, on an abscissa that occurs twice, and at a
    point outside the range of [xs]. *)
Definition interp (xs ys : list Q) (x : Q) : result Q :=
  if negb (length xs =? length ys) || (length xs <? 2)
  then Raise ValueError
  else
    let pts := sort_points (combine xs ys) in
    if strictly_ascending (map fst pts) then segments pts x
    else Raise ValueError.

(** Row-wise L2 normalisation; a zero row is left as it is. *)
Definition l2_normalize (row : list Q) : list Q :=
  let norm := sqrt6 (Np.sum (map (fun x => x * x) row)) in
  if Qeq_bool norm 0 then row else map (fun x => x / norm) row.

(** A projection on the first coordinates stands for the fitted PCA. *)
#[export] Instance external : External := {|
  pca_model := nat;
  PCA_fit := fun n_components _ => Ok n_components;
  PCA_transform := fun n_components row => firstn n_components row;
  normalize := l2_normalize;
  interp1d_slinear := interp;
  np_sqrt := sqrt6
|}.

(** Embeddings of dimension one. *)
Definition column (l : list Q) : Np.ndarray2 :=
  {| Np.rows := map (fun x => [x]) l; Np.ncols := 1 |}.

(** Four pairs at squared distances [1/100, 4/100, 9, 49/4], the first two
    of one identity each. *)
Definition left4 : Np.ndarray2 := column [1 # 10; 2 # 10; 3; 7 # 2].
Definition right4 : Np.ndarray2 := column [0; 0; 0; 0].
Definition labels4 : list bool := [true; true; false; false].
Definition grid : list Q := [0; 1; 2; 3; 4].

(** A network that returns its input, on images that are numbers. *)
Definition echo (batch : list nat) : result (list nat) := Ok batch.

End Example.

(** ** List surgery used to describe the arrays the loops fill *)

(** [splice a i vs]: [a] with the entries from position [i] on replaced by
    [vs]. *)
Definition splice {A : Type} (a : list A) (i : nat) (vs : list A) : list A :=
  firstn i a ++ vs ++ skipn (i + length vs) a.

(** ** [evaluate] (eval.py, lines 177-198) *)

(** [a[0::2]]: every other entry, from the first on; [a[1::2]] is
    [every_other (tl a)]. *)
Fixpoint every_other {A : Type} (a : list A) : list A :=
  match a with
  | x :: _ :: a' => x :: every_other a'
  | _ => a
  end.

(** [np.arange(0, stop, step)] when it has [n] entries: the multiples
    [0, step, 2 step, ...] of the step.  [np.arange(0, 4, 0.01)] has 400
    entries and [np.arange(0, 4, 0.001)] has 4000. *)
Definition arange_step (n : nat) (step : Q) : list Q :=
  map (fun k => inject_Z (Z.of_nat k) * step) (seq 0 n).

Definition evaluate {E : External} (embeddings : Np.ndarray2)
  (actual_issame : list bool) (nrof_folds pca : nat)
  : result (list Q * list Q * list Q * Q * Q * Q) :=
  let thresholds := arange_step 400 (1 # 100) in
  let embeddings1 :=
    {| Np.rows := every_other (Np.rows embeddings);
       Np.ncols := Np.ncols embeddings |} in
  let embeddings2 :=
    {| Np.rows := every_other (tl (Np.rows embeddings));
       Np.ncols := Np.ncols embeddings |} in
  '(tpr, fpr, accuracy) <-
     calculate_roc thresholds embeddings1 embeddings2 actual_issame
       nrof_folds pca ;;
  let thresholds := arange_step 4000 (1 # 1000) in
  '(val, val_std, far) <-
     calculate_val thresholds embeddings1 embeddings2 actual_issame
       (1 # 1000) nrof_folds ;;
  Ok (tpr, fpr, accuracy, val, val_std, far).

(** ** [test] (eval.py, lines 229-280)

    The embeddings are rows of floats.  [normalize_array] stands for
    [sklearn.preprocessing.normalize] applied to a whole array, which
    validates its argument and may raise. *)

Section Test.

Context {E : External}.

Variable Img : Type.
Variable scale : Img -> Img.
Variable backbone : list Img -> result (list (list Q)).
Variable normalize_array : list (list Q) -> result (list (list Q)).

(** [np.linalg.norm] of a vector. *)
Definition linalg_norm (em : list Q) : Q :=
  np_sqrt (Np.sum (map (fun x => x * x) em)).

(** Lines 260-265: the loop that adds up the norms.  An entry of
    [embeddings_list] that is still [None] has no [shape]; the arrays met
    are collected, so that the lines below the loop work on arrays. *)
Fixpoint xnorm_loop (embeddings_list : list (option (list (list Q))))
  (xnorm : Q) (xnorm_cnt : nat) (arrays : list (list (list Q)))
  : result (Q * nat * list (list (list Q))) :=
  match embeddings_list with
  | [] => Ok (xnorm, xnorm_cnt, arrays)
  | None :: _ => Raise AttributeError
  | Some embed :: rest =>
      let xnorm := fold_left (fun s em => s + linalg_norm em) embed xnorm in
      xnorm_loop rest xnorm (xnorm_cnt + length embed) (arrays ++ [embed])
  end.

(** [x + y] on two-dimensional arrays, with numpy's broadcasting along
    both axes. *)
Fixpoint sequence_rows (rows : list (result (list Q)))
  : result (list (list Q)) :=
  match rows with
  | [] => Ok []
  | r :: rows' =>
      r <- r ;; rest <- sequence_rows rows' ;; Ok (r :: rest)
  end.

Definition add_arrays (x y : list (list Q)) : result (list (list Q)) :=
  rows <- Np.broadcast2 (fun r1 r2 => Np.broadcast2 Qplus r1 r2) x y ;;
  sequence_rows rows.

(** The array a list of rows stands for; its second dimension is read off
    its first row. *)
Definition as_ndarray2 (rows : list (list Q)) : Np.ndarray2 :=
  {| Np.rows := rows;
     Np.ncols := match rows with [] => 0%nat | r :: _ => length r end |}.

(** Lines 258-280, after the batching loop. *)
Definition test_metrics (embeddings_list : list (option (list (list Q))))
  (issame_list : list bool) (nfolds : nat)
  : result (Q * Q * Q * Q * Q * list (option (list (list Q)))) :=
  '(xnorm, xnorm_cnt, arrays) <- xnorm_loop embeddings_list 0 0 [] ;;
  xnorm <- Np.truediv xnorm (Np.float xnorm_cnt) ;;
  embeddings <- Np.getitem arrays 0 ;;
  embeddings <- normalize_array embeddings ;;
  '(_, _, acc, _, _, _) <-
     evaluate (as_ndarray2 embeddings) issame_list nfolds 0 ;;
  let acc1 := Np.mean acc in
  let std1 := np_std acc in
  first <- Np.getitem arrays 0 ;;
  second <- Np.getitem arrays 1 ;;
  embeddings <- add_arrays first second ;;
  embeddings <- normalize_array embeddings ;;
  '(_, _, accuracy, _, _, _) <-
     evaluate (as_ndarray2 embeddings) issame_list nfolds 0 ;;
  let acc2 := Np.mean accuracy in
  let std2 := np_std accuracy in
  Ok (acc1, std1, acc2, std2, xnorm, embeddings_list).

(** [test(data_set, backbone, batch_size, nfolds)]; [None] when the
    batching loop does not end. *)
Definition test (data_set : list (list Img) * list bool) (batch_size : Z)
  (nfolds : nat)
  : option (result (Q * Q * Q * Q * Q * list (option (list (list Q))))) :=
  let data_list := fst data_set in
  let issame_list := snd data_set in
  match embed_passes scale backbone data_list batch_size [] [] with
  | None => None
  | Some (Raise e, _) => Some (Raise e)
  | Some (Ok embeddings_list, _) =>
      Some (test_metrics embeddings_list issame_list nfolds)
  end.

End Test.

(** ** The construction of [IResNet] (models/iresnet.py, lines 36-68,
    107-180 and 227-275)

    A network is described by the blocks it is made of; the cells of
    MindSpore a block holds are determined by its channel counts, its
    stride and its shortcut branch.  The constructors of MindSpore's own
    cells ([Conv2d], [BatchNorm2d], [PReLU], [SequentialCell]) are taken
    to return; the exceptions modelled are those this file raises, and
    the [IndexError] of [layers[i]]. *)

Module Iresnet.

Inductive error : Type :=
| ValueError
| NotImplementedError
| IndexError.

Inductive outcome (A : Type) : Type :=
| Built (a : A)
| Raised (e : error).

Arguments Built {A} a.
Arguments Raised {A} e.

Definition and_then {A B : Type} (o : outcome A) (k : A -> outcome B)
  : outcome B :=
  match o with
  | Built a => k a
  | Raised e => Raised e
  end.

(** The shortcut branch of a block: [conv1x1(in, out, stride)] followed by
    [BatchNorm2d(out)] (lines 163-166). *)
Record Downsample : Type := {
  ds_inplanes : nat;
  ds_planes : nat;
  ds_stride : nat
}.

Record IBasicBlock : Type := {
  inplanes : nat;
  planes : nat;
  stride : nat;
  downsample : option Downsample
}.

(** [IBasicBlock.expansion]. *)
Definition expansion : nat := 1.

(** [IBasicBlock.__init__] (lines 42-68). *)
Definition IBasicBlock_init (inplanes planes stride : nat)
  (downsample : option Downsample) (groups base_width dilation : nat)
  : outcome IBasicBlock :=
  if negb (groups =? 1) || negb (base_width =? 64) then Raised ValueError
  else if 1 <? dilation then Raised NotImplementedError
  else Built {| inplanes := inplanes; planes := planes; stride := stride;
                downsample := downsample |}.

(** The attributes of [IResNet] that [_make_layer] reads and writes. *)
Record state : Type := {
  self_inplanes : nat;
  self_dilation : nat;
  self_groups : nat;
  self_base_width : nat
}.

(** Lines 172-178: the blocks after the first, [count] of them. *)
Fixpoint more_blocks (count : nat) (self : state) (planes : nat)
  : outcome (list IBasicBlock) :=
  match count with
  | O => Built []
  | S count' =>
      and_then (IBasicBlock_init (self_inplanes self) planes 1 None
                  (self_groups self) (self_base_width self)
                  (self_dilation self))
        (fun b => and_then (more_blocks count' self planes)
                    (fun bs => Built (b :: bs)))
  end.

(** [IResNet._make_layer] (lines 153-180): the blocks of the layer and the
    attributes of the network afterwards. *)
Definition make_layer (self : state) (planes blocks stride : nat)
  (dilate : bool) : outcome (list IBasicBlock * state) :=
  let previous_dilation := self_dilation self in
  let dilation := if dilate then (self_dilation self * stride)%nat
                  else self_dilation self in
  let stride := if dilate then 1%nat else stride in
  let downsample :=
    if negb (stride =? 1)
       || negb (self_inplanes self =? planes * expansion)
    then Some {| ds_inplanes := self_inplanes self;
                 ds_planes := (planes * expansion)%nat;
                 ds_stride := stride |}
    else None in
  and_then (IBasicBlock_init (self_inplanes self) planes stride downsample
              (self_groups self) (self_base_width self) previous_dilation)
    (fun first =>
       let self := {| self_inplanes := (planes * expansion)%nat;
                      self_dilation := dilation;
                      self_groups := self_groups self;
                      self_base_width := self_base_width self |} in
       and_then (more_blocks (blocks - 1) self planes)
         (fun rest => Built (first :: rest, self))).

Definition item {A : Type} (a : list A) (i : nat) : outcome A :=
  match nth_error a i with
  | Some x => Built x
  | None => Raised IndexError
  end.

(** [IResNet.__init__] (lines 109-150) with [block = IBasicBlock].  [head]
    is the outcome of the constructions of lines 142-150 (batch norms,
    dropout, dense layer, weight initialisation), which belong to
    MindSpore. *)
Definition IResNet_init {H : Type} (head : outcome H) (layers : list nat)
  (groups width_per_group : nat)
  (replace_stride_with_dilation : option (list bool))
  : outcome (list (list IBasicBlock) * H) :=
  let self := {| self_inplanes := 64; self_dilation := 1;
                 self_groups := groups;
                 self_base_width := width_per_group |} in
  let replace_stride_with_dilation :=
    match replace_stride_with_dilation with
    | None => [false; false; false]
    | Some r => r
    end in
  if negb (length replace_stride_with_dilation =? 3) then Raised ValueError
  else
    and_then (item layers 0) (fun blocks1 =>
    and_then (make_layer self 64 blocks1 2 false) (fun '(layer1, self) =>
    and_then (item layers 1) (fun blocks2 =>
    and_then (item replace_stride_with_dilation 0) (fun dilate2 =>
    and_then (make_layer self 128 blocks2 2 dilate2) (fun '(layer2, self) =>
    and_then (item layers 2) (fun blocks3 =>
    and_then (item replace_stride_with_dilation 1) (fun dilate3 =>
    and_then (make_layer self 256 blocks3 2 dilate3) (fun '(layer3, self) =>
    and_then (item layers 3) (fun blocks4 =>
    and_then (item replace_stride_with_dilation 2) (fun dilate4 =>
    and_then (make_layer self 512 blocks4 2 dilate4) (fun '(layer4, self) =>
    and_then head (fun h =>
    Built ([layer1; layer2; layer3; layer4], h))))))))))))).

(** [_iresnet] (lines 227-231). *)
Definition _iresnet {H : Type} (head : outcome H) (layers : list nat)
  (pretrained : bool) (groups width_per_group : nat)
  (replace_stride_with_dilation : option (list bool))
  : outcome (list (list IBasicBlock) * H) :=
  and_then (IResNet_init head layers groups width_per_group
              replace_stride_with_dilation)
    (fun model => if pretrained then Raised ValueError else Built model).

(** [iresnet18], [iresnet34], [iresnet50], [iresnet100] (lines 234-275). *)
Definition iresnet18 {H : Type} (head : outcome H) (pretrained : bool) :=
  _iresnet head [2; 2; 2; 2]%nat pretrained.
Definition iresnet34 {H : Type} (head : outcome H) (pretrained : bool) :=
  _iresnet head [3; 4; 6; 3]%nat pretrained.
Definition iresnet50 {H : Type} (head : outcome H) (pretrained : bool) :=
  _iresnet head [3; 4; 14; 3]%nat pretrained.
Definition iresnet100 {H : Type} (head : outcome H) (pretrained : bool) :=
  _iresnet head [3; 13; 30; 3]%nat pretrained.

(** The attributes of a network with [groups = 1] and
    [width_per_group = 64]. *)
Definition plain_state (inplanes dilation : nat) : state :=
  {| self_inplanes := inplanes; self_dilation := dilation;
     self_groups := 1; self_base_width := 64 |}.

(** A block after the first of its layer: [planes] channels in and out,
    stride 1, no shortcut branch. *)
Definition inner_block (planes : nat) : IBasicBlock :=
  {| inplanes := planes; planes := planes; stride := 1;
     downsample := None |}.

(** The first block of a layer that halves the resolution. *)
Definition entry_block (inplanes planes : nat) : IBasicBlock :=
  {| inplanes := inplanes; planes := planes; stride := 2;
     downsample := Some {| ds_inplanes := inplanes; ds_planes := planes;
                           ds_stride := 2 |} |}.

(** The blocks of a network, layer after layer. *)
Definition all_blocks (layers : list (list IBasicBlock)) : list IBasicBlock :=
  concat layers.

(** Every block takes the channels the block before it gives; the first
    takes [first_in]. *)
Fixpoint chained (first_in : nat) (blocks : list IBasicBlock) : Prop :=
  match blocks with
  | [] => True
  | b :: blocks' => inplanes b = first_in /\ chained (planes b) blocks'
  end.

End Iresnet.

(** ** A network and a normalisation to run [test] *)

Module TestExample.

(** A network that embeds the number [x] as the vector [(x, 1)]. *)
Definition embed_numbers (batch : list Z) : result (list (list Q)) :=
  Ok (map (fun x => [inject_Z x; 1]) batch).

(** Line 247, [((b_data / 255) - 0.5) / 0.5], on images of one pixel: the
    pixel values [0 .. 255] are mapped to [-1 .. 1]. *)
Definition rescale (pixel : Q) : Q := ((pixel / 255) - (1 # 2)) / (1 # 2).

(** A network that embeds the rescaled pixel [x] as the vector [(x, 0)]:
    a dark and a bright image are embedded in opposite directions. *)
Definition embed_pixels (batch : list Q) : result (list (list Q)) :=
  Ok (map (fun x => [x; 0]) batch).

(** Two arrays of four images: a pair of bright images, and a pair of a
    bright and a dark image. *)
Definition images : list (list Q) :=
  [[255; 204; 255; 0]; [204; 255; 204; 51]].

(** Row-wise L2 normalisation of an array with at least one row. *)
Definition normalize_rows (X : list (list Q)) : result (list (list Q)) :=
  match X with
  | [] => Raise ValueError
  | _ => Ok (map Example.l2_normalize X)
  end.

End TestExample.

(** * Lemmas on the numpy fragment *)

Unset Implicit Arguments.

Lemma Qlt_bool_iff (x y : Q) : Np.Qlt_bool x y = true <-> x < y.
Proof.
  unfold Np.Qlt_bool. rewrite negb_true_iff.
  split; intro H.
  - apply Qnot_le_lt. intro Hle.
    apply Qle_bool_iff in Hle. congruence.
  - destruct (Qle_bool y x) eqn:E; [|reflexivity].
    apply Qle_bool_iff in E. exfalso. exact (Qlt_not_le _ _ H E).
Qed.

Lemma broadcast2_same_length {A B C : Type} (f : A -> B -> C) xs ys :
  length xs = length ys ->
  Np.broadcast2 f xs ys = Ok (Np.zip_with f xs ys).
Proof.
  intro H. unfold Np.broadcast2.
  rewrite (proj2 (Nat.eqb_eq _ _) H). reflexivity.
Qed.

Lemma length_less dist t : length (Np.less dist t) = length dist.
Proof. apply length_map. Qed.

Lemma length_logical_not a : length (Np.logical_not a) = length a.
Proof. apply length_map. Qed.

Lemma float_eq_zero (n : nat) : Qeq_bool (Np.float n) 0 = (n =? 0).
Proof.
  destruct n as [|n]; [reflexivity|].
  unfold Np.float, Qeq_bool, inject_Z. simpl Qnum. simpl Qden.
  rewrite Z.mul_1_r. simpl. reflexivity.
Qed.

Lemma truediv_float (a : Q) (n : nat) :
  Np.truediv a (Np.float n) =
  if n =? 0 then Raise ZeroDivisionError else Ok (a / Np.float n).
Proof. unfold Np.truediv. rewrite float_eq_zero. reflexivity. Qed.

Lemma float_nonneg (n : nat) : 0 <= Np.float n.
Proof.
  unfold Np.float. change 0 with (inject_Z 0).
  rewrite <- Zle_Qle. lia.
Qed.

Lemma float_pos (n : nat) : (0 < n)%nat -> 0 < Np.float n.
Proof.
  intro H. unfold Np.float. change 0 with (inject_Z 0).
  rewrite <- Zlt_Qlt. lia.
Qed.

Lemma float_le (m n : nat) : (m <= n)%nat -> Np.float m <= Np.float n.
Proof. intro H. unfold Np.float. rewrite <- Zle_Qle. lia. Qed.

(** A quotient of counts [m/n] with [m <= n] and [0 < n] is in [[0,1]]. *)
Lemma ratio_bounds (m n : nat) :
  (m <= n)%nat -> (0 < n)%nat ->
  0 <= Np.float m / Np.float n /\ Np.float m / Np.float n <= 1.
Proof.
  intros Hmn Hn. split.
  - apply Qle_shift_div_l; [apply float_pos; assumption|].
    rewrite Qmult_0_l. apply float_nonneg.
  - apply Qle_shift_div_r; [apply float_pos; assumption|].
    rewrite Qmult_1_l. apply float_le. assumption.
Qed.

(** * The confusion counts *)

Lemma sum_bool_zip_and (f : Q -> bool) (g : bool -> bool) dist labels :
  Np.sum_bool (Np.zip_with andb (map f dist) (map g labels)) =
  Spec.count_pairs (fun d l => f d && g l) dist labels.
Proof.
  unfold Spec.count_pairs.
  revert labels. induction dist as [|d dist IH]; intros [|l labels];
    simpl; try reflexivity.
  destruct (f d && g l); simpl; rewrite IH; reflexivity.
Qed.

Lemma map_negb_less dist t :
  Np.logical_not (Np.less dist t) =
  map (fun d => negb (Np.Qlt_bool d t)) dist.
Proof. unfold Np.logical_not, Np.less. apply map_map. Qed.

(** On arrays of equal length the code's counts are the specification's. *)
Lemma confusion_equal_length t dist labels :
  length dist = length labels ->
  confusion t dist labels =
    Ok (Spec.TP t dist labels, Spec.FP t dist labels,
        Spec.TN t dist labels, Spec.FN t dist labels).
Proof.
  intro Hlen. unfold confusion, predict_issame, Np.logical_and.
  rewrite !broadcast2_same_length
    by (rewrite ?length_logical_not, ?length_less; assumption).
  cbn [bind]. rewrite map_negb_less.
  unfold Np.logical_not, Np.less.
  rewrite <- (map_id labels) at 1 4.
  rewrite !sum_bool_zip_and. reflexivity.
Qed.

Lemma count_pairs_partition t dist labels :
  (Spec.TP t dist labels + Spec.FP t dist labels +
   Spec.TN t dist labels + Spec.FN t dist labels =
   length (combine dist labels))%nat.
Proof.
  unfold Spec.TP, Spec.FP, Spec.TN, Spec.FN, Spec.count_pairs.
  induction (combine dist labels) as [|[d l] ps IH]; [reflexivity|].
  cbn [filter fst snd].
  destruct (Np.Qlt_bool d t), l; cbn [andb negb length]; lia.
Qed.

Lemma confusion_partition t dist labels :
  length dist = length labels ->
  (Spec.TP t dist labels + Spec.FP t dist labels +
   Spec.TN t dist labels + Spec.FN t dist labels = length dist)%nat.
Proof.
  intro Hlen. rewrite count_pairs_partition, length_combine. lia.
Qed.

(** What [calculate_accuracy] computes on arrays of equal length: the guarded
    rates, and a division by the number of pairs that raises when there is
    none. *)
Lemma calculate_accuracy_equal_length t dist labels :
  length dist = length labels ->
  calculate_accuracy t dist labels =
    if length dist =? 0 then Raise ZeroDivisionError
    else Ok (Spec.rate (Spec.TP t dist labels)
               (Spec.TP t dist labels + Spec.FN t dist labels),
             Spec.rate (Spec.FP t dist labels)
               (Spec.FP t dist labels + Spec.TN t dist labels),
             Np.float (Spec.TP t dist labels + Spec.TN t dist labels)
               / Np.float (length dist)).
Proof.
  intro Hlen. unfold calculate_accuracy.
  rewrite (confusion_equal_length t dist labels Hlen). cbn [bind].
  unfold Spec.rate. rewrite !truediv_float.
  destruct (Spec.TP t dist labels + Spec.FN t dist labels =? 0);
  destruct (Spec.FP t dist labels + Spec.TN t dist labels =? 0);
  destruct (length dist =? 0); reflexivity.
Qed.

Lemma calculate_accuracy_returns t dist labels :
  dist <> [] -> length dist = length labels ->
  exists r, calculate_accuracy t dist labels = Ok r.
Proof.
  intros Hne Hlen. rewrite calculate_accuracy_equal_length by assumption.
  destruct dist; [congruence|]. cbn [length Nat.eqb]. eauto.
Qed.

Lemma nth_error_less dist t i d :
  nth_error dist i = Some d ->
  nth_error (Np.less dist t) i = Some (Np.Qlt_bool d t).
Proof.
  intro H. unfold Np.less. rewrite nth_error_map, H. reflexivity.
Qed.

Lemma rate_bounds (m n : nat) :
  (m <= n)%nat -> 0 <= Spec.rate m n /\ Spec.rate m n <= 1.
Proof.
  intro Hmn. unfold Spec.rate.
  destruct (n =? 0) eqn:En.
  - split; [apply Qle_refl | discriminate].
  - apply Nat.eqb_neq in En. apply ratio_bounds; lia.
Qed.

(** * [calculate_val_far] on labels that are all "same" *)

Lemma sum_bool_not_all_true labels :
  forallb (fun l => l) labels = true ->
  Np.sum_bool (Np.logical_not labels) = 0%nat.
Proof.
  induction labels as [|[|] labels IH]; simpl; intro H;
    [reflexivity | auto | discriminate].
Qed.

Lemma logical_and_length a b :
  length a = length b -> exists c, Np.logical_and a b = Ok c.
Proof.
  intro H. unfold Np.logical_and.
  rewrite broadcast2_same_length by assumption. eauto.
Qed.

(** * Claims on [calculate_accuracy] and [calculate_val_far] *)

(** C6, as stated, fails on the empty arrays: there
    [calculate_accuracy] does not return the three rates, it raises
    [ZeroDivisionError] at the division by [dist.size]. *)
Lemma C6_contract_fails_on_empty_arrays :
  length (@nil Q) = length (@nil bool) /\
  calculate_accuracy 1 [] [] = Raise ZeroDivisionError /\
  ~ Spec.accuracy_contract 1 [] [].
Proof.
  split; [reflexivity|]. split; [reflexivity|].
  intros [_ H]. vm_compute in H. discriminate.
Qed.

(** C6 (amended): for every threshold and every non-empty distance array
    with a label array of the same length, [calculate_accuracy] predicts a
    pair "same" iff its distance is strictly below the threshold, and
    returns [tpr = TP/(TP+FN)], [fpr = FP/(FP+TN)] and
    [accuracy = (TP+TN)/total], a rate with a zero denominator being 0. *)
Theorem C6_calculate_accuracy_contract (t : Q) (dist : list Q)
  (labels : list bool) :
  dist <> [] -> length dist = length labels ->
  Spec.accuracy_contract t dist labels.
Proof.
  intros Hne Hlen. split.
  - intros i d Hd. unfold predict_issame, Spec.predicted_same.
    rewrite (nth_error_less dist t i d Hd). rewrite <- Qlt_bool_iff.
    split; [intro H; injection H; auto | intros ->; reflexivity].
  - rewrite calculate_accuracy_equal_length by assumption.
    destruct dist; [congruence | reflexivity].
Qed.

Lemma C6_calculate_accuracy_contract_witness :
  Spec.accuracy_contract (1 # 1) [1 # 2; 1 # 1; 3 # 2] [true; true; false].
Proof.
  apply C6_calculate_accuracy_contract; [discriminate | reflexivity].
Defined.

(** C7: for all thresholds and all label arrays with their distance arrays,
    the values [calculate_accuracy] returns satisfy [0 <= tpr <= 1],
    [0 <= fpr <= 1] and [0 <= accuracy <= 1]; and it does return values
    whenever there is at least one pair. *)
Theorem C7_calculate_accuracy_rate_bounds (t : Q) (dist : list Q)
  (labels : list bool) :
  length dist = length labels ->
  (dist <> [] -> exists r, calculate_accuracy t dist labels = Ok r) /\
  (forall tpr fpr acc,
     calculate_accuracy t dist labels = Ok (tpr, fpr, acc) ->
     (0 <= tpr /\ tpr <= 1) /\ (0 <= fpr /\ fpr <= 1) /\
     (0 <= acc /\ acc <= 1)).
Proof.
  intro Hlen. split.
  - intro Hne. apply calculate_accuracy_returns; assumption.
  - intros tpr fpr acc H.
    rewrite calculate_accuracy_equal_length in H by assumption.
    destruct (length dist =? 0) eqn:En; [discriminate|].
    apply Nat.eqb_neq in En.
    pose proof (confusion_partition t dist labels Hlen) as Hpart.
    injection H as <- <- <-.
    repeat split;
      try (apply rate_bounds; lia); apply ratio_bounds; lia.
Qed.

Lemma C7_calculate_accuracy_rate_bounds_witness :
  (exists r,
     calculate_accuracy (1 # 1) [1 # 2; 1 # 1; 3 # 2] [true; true; false]
     = Ok r) /\
  ((0 <= 1 # 2 /\ 1 # 2 <= 1) /\ (0 <= 0 /\ 0 <= 1) /\
   (0 <= 2 # 3 /\ 2 # 3 <= 1)).
Proof.
  pose proof (C7_calculate_accuracy_rate_bounds (1 # 1)
                [1 # 2; 1 # 1; 3 # 2] [true; true; false] eq_refl)
    as [Hret Hbounds].
  split.
  - apply Hret. discriminate.
  - apply Hbounds. reflexivity.
Defined.

(** C8: for fixed distances, the number of pairs [calculate_accuracy]
    predicts "same" is monotone non-decreasing in the threshold. *)
Theorem C8_predicted_same_count_monotone (dist : list Q) (t1 t2 : Q) :
  t1 <= t2 ->
  (Np.sum_bool (predict_issame t1 dist)
   <= Np.sum_bool (predict_issame t2 dist))%nat.
Proof.
  intro Hle. unfold predict_issame, Np.less.
  induction dist as [|d dist IH]; [apply Nat.le_refl|].
  cbn [map Np.sum_bool].
  destruct (Np.Qlt_bool d t1) eqn:E1.
  - apply Qlt_bool_iff in E1.
    assert (E2 : Np.Qlt_bool d t2 = true).
    { apply Qlt_bool_iff. eapply Qlt_le_trans; eassumption. }
    rewrite E2. lia.
  - destruct (Np.Qlt_bool d t2); lia.
Qed.

Lemma C8_predicted_same_count_monotone_witness :
  (Np.sum_bool (predict_issame (1 # 1) [1 # 2; 1 # 1; 3 # 2])
   <= Np.sum_bool (predict_issame (3 # 2) [1 # 2; 1 # 1; 3 # 2]))%nat.
Proof.
  apply C8_predicted_same_count_monotone. discriminate.
Defined.

(** C10: for every threshold, distance array and label array of the same
    length, the four counts computed inside [calculate_accuracy] partition
    the pairs, [TP + FP + TN + FN] being the number of pairs, and the
    accuracy it returns is [(TP+TN)] divided by that number (one is
    returned as soon as there is a pair). *)
Theorem C10_confusion_counts_partition (t : Q) (dist : list Q)
  (labels : list bool) :
  length dist = length labels ->
  exists tp fp tn fn,
    confusion t dist labels = Ok (tp, fp, tn, fn) /\
    (tp + fp + tn + fn = length dist)%nat /\
    (forall tpr fpr acc,
       calculate_accuracy t dist labels = Ok (tpr, fpr, acc) ->
       acc = Np.float (tp + tn) / Np.float (length dist)) /\
    (dist <> [] ->
     exists tpr fpr,
       calculate_accuracy t dist labels =
       Ok (tpr, fpr, Np.float (tp + tn) / Np.float (length dist))).
Proof.
  intro Hlen.
  exists (Spec.TP t dist labels), (Spec.FP t dist labels),
         (Spec.TN t dist labels), (Spec.FN t dist labels).
  split; [apply confusion_equal_length; assumption|].
  split; [apply confusion_partition; assumption|].
  rewrite calculate_accuracy_equal_length by assumption.
  split.
  - intros tpr fpr acc H.
    destruct (length dist =? 0); [discriminate|].
    injection H as _ _ <-. reflexivity.
  - intro Hne. destruct dist; [congruence|]. cbn [length Nat.eqb]. eauto.
Qed.

Lemma C10_confusion_counts_partition_witness :
  exists tp fp tn fn,
    confusion (1 # 1) [1 # 2; 1 # 1; 3 # 2] [true; true; false]
    = Ok (tp, fp, tn, fn) /\
    (tp + fp + tn + fn = 3)%nat /\
    (forall tpr fpr acc,
       calculate_accuracy (1 # 1) [1 # 2; 1 # 1; 3 # 2] [true; true; false]
       = Ok (tpr, fpr, acc) ->
       acc = Np.float (tp + tn) / Np.float 3) /\
    ([1 # 2; 1 # 1; 3 # 2] <> [] ->
     exists tpr fpr,
       calculate_accuracy (1 # 1) [1 # 2; 1 # 1; 3 # 2] [true; true; false]
       = Ok (tpr, fpr, Np.float (tp + tn) / Np.float 3)).
Proof.
  exact (C10_confusion_counts_partition (1 # 1) [1 # 2; 1 # 1; 3 # 2]
           [true; true; false] eq_refl).
Defined.

(** C2: on labels that are all "same" ([n_diff = 0]), [calculate_val_far]
    does not return: whatever the threshold and the distances, it raises,
    and on arrays of equal length the exception is the
    [ZeroDivisionError] of an unguarded division. *)
Theorem C2_calculate_val_far_all_same_raises (t : Q) (dist : list Q)
  (labels : list bool) :
  forallb (fun l => l) labels = true ->
  exists e,
    calculate_val_far t dist labels = Raise e /\
    (length dist = length labels -> e = ZeroDivisionError).
Proof.
  intro Hall. unfold calculate_val_far.
  destruct (Np.logical_and (predict_issame t dist) labels) as [a1|e1] eqn:E1.
  2:{ exists e1. split; [reflexivity|]. intro Hlen.
      destruct (logical_and_length (predict_issame t dist) labels)
        as [c Hc]; [unfold predict_issame; rewrite length_less; assumption|].
      congruence. }
  cbn [bind].
  destruct (Np.logical_and (predict_issame t dist) (Np.logical_not labels))
    as [a2|e2] eqn:E2.
  2:{ exists e2. split; [reflexivity|]. intro Hlen.
      destruct (logical_and_length (predict_issame t dist)
                  (Np.logical_not labels)) as [c Hc];
        [unfold predict_issame;
         rewrite length_less, length_logical_not; assumption|].
      congruence. }
  cbn [bind]. rewrite (sum_bool_not_all_true labels Hall).
  rewrite !truediv_float.
  destruct (Np.sum_bool labels =? 0); cbn [bind Nat.eqb]; eauto.
Qed.

Lemma C2_calculate_val_far_all_same_raises_witness :
  exists e,
    calculate_val_far (1 # 1) [1 # 2; 3 # 2] [true; true] = Raise e /\
    (length [1 # 2; 3 # 2] = length [true; true] -> e = ZeroDivisionError).
Proof.
  exact (C2_calculate_val_far_all_same_raises (1 # 1) [1 # 2; 3 # 2]
           [true; true] eq_refl).
Defined.

(** * The fold splitter *)

Lemma length_arange n : length (Np.arange n) = n.
Proof. apply length_seq. Qed.

Lemma LFold_split_too_few (k : nat) (indices : list nat) :
  (1 < k)%nat -> (length indices < k)%nat ->
  LFold.split (LFold.init k) indices = Raise ValueError.
Proof.
  intros Hk Hn. unfold LFold.split, LFold.init, KFold.split.
  cbn [LFold.n_splits].
  rewrite (proj2 (Nat.ltb_lt _ _) Hk), (proj2 (Nat.ltb_lt _ _) Hn).
  reflexivity.
Qed.

Lemma LFold_split_single (k : nat) (indices : list nat) :
  (k <= 1)%nat ->
  LFold.split (LFold.init k) indices = Ok [(indices, indices)].
Proof.
  intro Hk. unfold LFold.split, LFold.init. cbn [LFold.n_splits].
  rewrite (proj2 (Nat.ltb_ge _ _) Hk). reflexivity.
Qed.

(** C3: for every number of pairs and every fold count [k > 1] above it,
    the splitter raises (the [ValueError] of [KFold]) instead of yielding
    folds, and so [calculate_roc] and [calculate_val] raise too: they never
    return a result computed from empty folds. *)
Theorem C3_too_many_folds_is_an_error (nPairs k : nat) :
  (1 < k)%nat -> (nPairs < k)%nat ->
  LFold.split (LFold.init k) (Np.arange nPairs) = Raise ValueError /\
  (forall (E : External) thresholds embeddings1 embeddings2 actual_issame
          pca,
     Nat.min (length actual_issame) (Np.shape0 embeddings1) = nPairs ->
     exists e,
       calculate_roc thresholds embeddings1 embeddings2 actual_issame k pca
       = Raise e /\ (e = AssertionError \/ e = ValueError)) /\
  (forall (E : External) thresholds embeddings1 embeddings2 actual_issame
          far_target,
     Nat.min (length actual_issame) (Np.shape0 embeddings1) = nPairs ->
     exists e,
       calculate_val thresholds embeddings1 embeddings2 actual_issame
         far_target k
       = Raise e /\ (e = AssertionError \/ e = ValueError)).
Proof.
  intros Hk Hn.
  assert (Hsplit : LFold.split (LFold.init k) (Np.arange nPairs)
                   = Raise ValueError).
  { apply LFold_split_too_few; [assumption | rewrite length_arange; assumption]. }
  split; [exact Hsplit|]. split.
  - intros E thresholds e1 e2 labels pca <-.
    unfold calculate_roc, assert.
    destruct (Np.shape0 e1 =? Np.shape0 e2); cbn [bind]; [|eauto].
    destruct (Np.shape1 e1 =? Np.shape1 e2); cbn [bind]; [|eauto].
    rewrite Hsplit. cbn [bind]. eauto.
  - intros E thresholds e1 e2 labels far_target <-.
    unfold calculate_val, assert.
    destruct (Np.shape0 e1 =? Np.shape0 e2); cbn [bind]; [|eauto].
    destruct (Np.shape1 e1 =? Np.shape1 e2); cbn [bind]; [|eauto].
    rewrite Hsplit. cbn [bind]. eauto.
Qed.

Lemma C3_too_many_folds_is_an_error_witness :
  LFold.split (LFold.init 5) (Np.arange 4) = Raise ValueError /\
  (exists e,
     calculate_roc (E := Example.external) Example.grid Example.left4
       Example.right4 Example.labels4 5 0 = Raise e /\
     (e = AssertionError \/ e = ValueError)) /\
  (exists e,
     calculate_val (E := Example.external) Example.grid Example.left4
       Example.right4 Example.labels4 (1 # 1000) 5 = Raise e /\
     (e = AssertionError \/ e = ValueError)).
Proof.
  destruct (C3_too_many_folds_is_an_error 4 5 ltac:(lia) ltac:(lia))
    as (Hsplit & Hroc & Hval).
  split; [exact Hsplit|]. split.
  - apply Hroc. reflexivity.
  - apply Hval. reflexivity.
Defined.

(** * The result monad *)

Lemma bind_ok_iff {A B : Type} (c : result A) (k : A -> result B) (b : B) :
  bind c k = Ok b <-> exists a, c = Ok a /\ k a = Ok b.
Proof.
  destruct c as [a|e]; cbn [bind]; split.
  - eauto.
  - intros (a' & Ha & Hk). injection Ha as <-. exact Hk.
  - discriminate.
  - intros (a' & Ha & _). discriminate.
Qed.

(** Peel the first computation off a sequence known to succeed. *)
Ltac bind_ok H x E :=
  match type of H with
  | bind ?c _ = Ok _ =>
      destruct c as [x|] eqn:E; [cbn [bind] in H | discriminate H]
  end.

(** * Arrays updated in place *)

Lemma length_update {A : Type} (a : list A) i v :
  length (Np.update a i v) = length a.
Proof.
  revert i. induction a as [|x a IH]; intros [|i]; simpl; auto.
Qed.

Lemma nth_error_update_eq {A : Type} (a : list A) i v :
  (i < length a)%nat -> nth_error (Np.update a i v) i = Some v.
Proof.
  revert i. induction a as [|x a IH]; intros [|i] H; simpl in *;
    try lia; auto. apply IH. lia.
Qed.

Lemma update_update {A : Type} (a : list A) i v w :
  Np.update (Np.update a i v) i w = Np.update a i w.
Proof.
  revert i. induction a as [|x a IH]; intros [|i]; simpl; auto.
  rewrite IH. reflexivity.
Qed.

Lemma update_same {A : Type} (a : list A) i x :
  nth_error a i = Some x -> Np.update a i x = a.
Proof.
  revert i. induction a as [|y a IH]; intros [|i] H; simpl in *;
    try discriminate.
  - injection H as ->. reflexivity.
  - rewrite IH by assumption. reflexivity.
Qed.

Lemma setitem_ok_iff {A : Type} (a : list A) i v a' :
  Np.setitem a i v = Ok a' <-> (i < length a)%nat /\ a' = Np.update a i v.
Proof.
  unfold Np.setitem. destruct (i <? length a) eqn:E.
  - apply Nat.ltb_lt in E. split.
    + intro H. injection H as <-. auto.
    + intros [_ ->]. reflexivity.
  - apply Nat.ltb_ge in E. split; [discriminate | intros [H _]; lia].
Qed.

Lemma splice_nil {A : Type} (a : list A) i : splice a i [] = a.
Proof.
  unfold splice. cbn [length app]. rewrite Nat.add_0_r.
  apply firstn_skipn.
Qed.

Lemma splice_cons {A : Type} (a : list A) i v vs :
  (i < length a)%nat ->
  splice (Np.update a i v) (S i) vs = splice a i (v :: vs).
Proof.
  unfold splice. revert i.
  induction a as [|x a IH]; intros [|i] H; simpl in *; try lia.
  - reflexivity.
  - f_equal. rewrite IH by lia. reflexivity.
Qed.

Lemma splice_full {A : Type} (a vs : list A) :
  length vs = length a -> splice a 0 vs = vs.
Proof.
  intro H. unfold splice. cbn [firstn app Nat.add].
  rewrite H, skipn_all. apply app_nil_r.
Qed.

Lemma length_splice {A : Type} (a vs : list A) i :
  (i + length vs <= length a)%nat -> length (splice a i vs) = length a.
Proof.
  intro H. unfold splice.
  rewrite !length_app, length_firstn, length_skipn. lia.
Qed.

Lemma forall2_length {A B : Type} (R : A -> B -> Prop) xs ys :
  Forall2 R xs ys -> length xs = length ys.
Proof. induction 1; simpl; congruence. Qed.

(** * [np.argmax] and [np.max] *)

Lemma argmax_from_spec (a pre : list Q) (bi : nat) (b : Q) :
  nth_error pre bi = Some b ->
  (forall j y, nth_error pre j = Some y -> y <= b) ->
  (forall j y, nth_error pre j = Some y -> (j < bi)%nat -> y < b) ->
  FoldSpec.first_argmax (pre ++ a) (Np.argmax_from bi b (length pre) a).
Proof.
  revert pre bi b. induction a as [|x a IH]; intros pre bi b Hb Hmax Hfirst.
  - cbn [Np.argmax_from]. rewrite app_nil_r. exists b. auto.
  - cbn [Np.argmax_from].
    assert (Hbi : (bi < length pre)%nat).
    { apply nth_error_Some. congruence. }
    replace (pre ++ x :: a) with ((pre ++ [x]) ++ a)
      by (rewrite <- app_assoc; reflexivity).
    replace (S (length pre)) with (length (pre ++ [x]))
      by (rewrite length_app; simpl; lia).
    destruct (Np.Qlt_bool b x) eqn:E.
    + apply Qlt_bool_iff in E. apply IH.
      * rewrite nth_error_app2, Nat.sub_diag by lia. reflexivity.
      * intros j y Hj.
        destruct (Nat.lt_ge_cases j (length pre)) as [Hlt|Hge].
        -- rewrite nth_error_app1 in Hj by assumption.
           apply Qlt_le_weak. eapply Qle_lt_trans; [eapply Hmax|]; eauto.
        -- rewrite nth_error_app2 in Hj by assumption.
           destruct (j - length pre)%nat as [|[|n]]; simpl in Hj;
             try discriminate.
           injection Hj as <-. apply Qle_refl.
      * intros j y Hj Hlt. rewrite nth_error_app1 in Hj by assumption.
        eapply Qle_lt_trans; [eapply Hmax|]; eauto.
    + assert (Hxb : x <= b).
      { apply Qnot_lt_le. intro Hlt. apply Qlt_bool_iff in Hlt. congruence. }
      apply IH.
      * rewrite nth_error_app1 by assumption. assumption.
      * intros j y Hj.
        destruct (Nat.lt_ge_cases j (length pre)) as [Hlt|Hge].
        -- rewrite nth_error_app1 in Hj by assumption. eauto.
        -- rewrite nth_error_app2 in Hj by assumption.
           destruct (j - length pre)%nat as [|[|n]]; simpl in Hj;
             try discriminate.
           injection Hj as <-. assumption.
      * intros j y Hj Hlt. rewrite nth_error_app1 in Hj by lia. eauto.
Qed.

Lemma first_argmax_unique (a : list Q) (i j : nat) :
  FoldSpec.first_argmax a i -> FoldSpec.first_argmax a j -> i = j.
Proof.
  intros (x & Hx & Hmx & Hfx) (y & Hy & Hmy & Hfy).
  destruct (Nat.lt_trichotomy i j) as [Hlt|[Heq|Hgt]]; [|assumption|].
  - exfalso. apply (Qlt_not_le x y); [eapply Hfy | eapply Hmx]; eauto.
  - exfalso. apply (Qlt_not_le y x); [eapply Hfx | eapply Hmy]; eauto.
Qed.

(** [np.argmax] returns exactly the first position of a maximum, and raises
    exactly on the empty array. *)
Lemma argmax_ok_iff (a : list Q) (i : nat) :
  Np.argmax a = Ok i <-> FoldSpec.first_argmax a i.
Proof.
  destruct a as [|x a].
  - split; [discriminate|].
    intros (y & Hy & _). destruct i; discriminate.
  - assert (H : FoldSpec.first_argmax (x :: a) (Np.argmax_from 0 x 1 a)).
    { apply (argmax_from_spec a [x] 0 x).
      - reflexivity.
      - intros [|[|j]] y Hj; simpl in Hj; try discriminate.
        injection Hj as <-. apply Qle_refl.
      - intros j y _ Hlt. lia. }
    cbn [Np.argmax]. split.
    + intro Hi. injection Hi as <-. exact H.
    + intro Hi. f_equal. eapply first_argmax_unique; eassumption.
Qed.

Lemma amax_fold_spec (a : list Q) (x : Q) :
  let m := fold_left (fun m y => if Np.Qlt_bool m y then y else m) a x in
  (x <= m /\ forall y, In y a -> y <= m) /\ (m = x \/ In m a).
Proof.
  revert x. induction a as [|z a IH]; intro x; cbn [fold_left].
  - split; [split; [apply Qle_refl | intros y []] | auto].
  - destruct (Np.Qlt_bool x z) eqn:E.
    + apply Qlt_bool_iff in E.
      destruct (IH z) as [[Hz Hall] Hin]. split; [split|].
      * apply Qlt_le_weak. eapply Qlt_le_trans; eassumption.
      * intros y [<-|Hy]; auto.
      * destruct Hin as [->|Hin]; right; [left; reflexivity | right; auto].
    + assert (Hzx : z <= x).
      { apply Qnot_lt_le. intro Hlt. apply Qlt_bool_iff in Hlt. congruence. }
      destruct (IH x) as [[Hx Hall] Hin]. split; [split|].
      * assumption.
      * intros y [<-|Hy]; [eapply Qle_trans; eassumption | auto].
      * destruct Hin as [->|Hin]; [left; reflexivity | right; right; auto].
Qed.

Lemma amax_is_max (a : list Q) (m : Q) :
  Np.amax a = Ok m -> FoldSpec.is_max a m.
Proof.
  destruct a as [|x a]; [discriminate|]. cbn [Np.amax]. intro H.
  injection H as <-.
  destruct (amax_fold_spec a x) as [[Hx Hall] Hin]. split.
  - intros y [<-|Hy]; auto.
  - destruct Hin as [Heq|Hin].
    + exists x. split; [left; reflexivity | rewrite Heq; reflexivity].
    + eexists. split; [right; exact Hin | reflexivity].
Qed.

Lemma is_max_unique (a : list Q) (m m' : Q) :
  FoldSpec.is_max a m -> FoldSpec.is_max a m' -> m == m'.
Proof.
  intros [Hb (x & Hx & Ex)] [Hb' (x' & Hx' & Ex')].
  apply Qle_antisym.
  - rewrite <- Ex. auto.
  - rewrite <- Ex'. auto.
Qed.

Lemma amax_nonempty (a : list Q) :
  a <> [] -> exists m, Np.amax a = Ok m.
Proof. destruct a; [congruence | cbn; eauto]. Qed.

(** * The loops of [calculate_roc] *)

Section RocLoops.

Context {E : External}.

Variables (dist : list Q) (actual_issame : list bool).

Lemma roc_train_loop_cons t ths i train_set acc_train :
  roc_train_loop (t :: ths) i dist actual_issame train_set acc_train =
  (r <- FoldSpec.accuracy_at dist actual_issame train_set t ;;
   acc_train' <- Np.setitem acc_train i (snd r) ;;
   roc_train_loop ths (S i) dist actual_issame train_set acc_train').
Proof.
  cbn [roc_train_loop]. unfold FoldSpec.accuracy_at.
  destruct (Np.take dist train_set); [|reflexivity].
  destruct (Np.take actual_issame train_set); [|reflexivity].
  cbn [bind].
  destruct (calculate_accuracy t a a0) as [[[tpr fpr] acc]|]; reflexivity.
Qed.

(** The first loop leaves in [acc_train] the training accuracy at every
    grid threshold, in grid order. *)
Lemma roc_train_loop_ok_iff train_set ths :
  forall i acc_train out,
    (i + length ths <= length acc_train)%nat ->
    roc_train_loop ths i dist actual_issame train_set acc_train = Ok out <->
    exists vals,
      Forall2 (fun t a => exists tpr fpr,
                   FoldSpec.accuracy_at dist actual_issame train_set t
                   = Ok (tpr, fpr, a)) ths vals /\
      out = splice acc_train i vals.
Proof.
  induction ths as [|t ths IH]; intros i acc_train out Hlen.
  - cbn [roc_train_loop]. split.
    + intro H. injection H as <-. exists []. split; [constructor|].
      symmetry. apply splice_nil.
    + intros (vals & HF & ->). inversion HF. rewrite splice_nil. reflexivity.
  - rewrite roc_train_loop_cons. cbn [length] in Hlen. split.
    + intro H. bind_ok H r Er. destruct r as [[tpr fpr] a].
      bind_ok H acc' Es. cbn [snd] in Es.
      apply setitem_ok_iff in Es as [Hi ->].
      apply IH in H; [|rewrite length_update; lia].
      destruct H as (vals & HF & ->).
      exists (a :: vals). split.
      * constructor; [eauto | assumption].
      * apply splice_cons. assumption.
    + intros (vals & HF & ->).
      inversion HF as [|t' a ths' vals' (tpr & fpr & Ha) HF']; subst.
      rewrite Ha. cbn [bind snd].
      assert (Hs : Np.setitem acc_train i a = Ok (Np.update acc_train i a)).
      { apply setitem_ok_iff. split; [lia | reflexivity]. }
      rewrite Hs. cbn [bind]. apply IH; [rewrite length_update; lia|].
      exists vals'. split; [assumption|].
      symmetry. apply splice_cons. lia.
Qed.

Lemma roc_test_loop_cons t ths i fold_idx test_set tprs fprs :
  roc_test_loop (t :: ths) i fold_idx dist actual_issame test_set tprs fprs =
  (r <- FoldSpec.accuracy_at dist actual_issame test_set t ;;
   tprs' <- Np.setitem2 tprs fold_idx i (fst (fst r)) ;;
   fprs' <- Np.setitem2 fprs fold_idx i (snd (fst r)) ;;
   roc_test_loop ths (S i) fold_idx dist actual_issame test_set tprs' fprs').
Proof.
  cbn [roc_test_loop]. unfold FoldSpec.accuracy_at.
  destruct (Np.take dist test_set); [|reflexivity].
  destruct (Np.take actual_issame test_set); [|reflexivity].
  cbn [bind].
  destruct (calculate_accuracy t a a0) as [[[tpr fpr] acc]|]; reflexivity.
Qed.

Lemma setitem2_ok_iff {A : Type} (a : list (list A)) i j v row a' :
  nth_error a i = Some row ->
  Np.setitem2 a i j v = Ok a' <->
  (j < length row)%nat /\ a' = Np.update a i (Np.update row j v).
Proof.
  intro Hrow. unfold Np.setitem2. rewrite Hrow. split.
  - intro H. bind_ok H row' Er. apply setitem_ok_iff in Er as [Hj ->].
    injection H as <-. auto.
  - intros [Hj ->].
    assert (Hs : Np.setitem row j v = Ok (Np.update row j v)).
    { apply setitem_ok_iff. auto. }
    rewrite Hs. reflexivity.
Qed.

(** The second loop leaves in row [fold_idx] of [tprs] and [fprs] the ROC
    points of the test set, one per grid threshold, in grid order. *)
Lemma roc_test_loop_ok_iff test_set fold_idx ths :
  forall i tprs fprs rowt rowf out,
    nth_error tprs fold_idx = Some rowt ->
    nth_error fprs fold_idx = Some rowf ->
    (i + length ths <= length rowt)%nat ->
    (i + length ths <= length rowf)%nat ->
    roc_test_loop ths i fold_idx dist actual_issame test_set tprs fprs
    = Ok out <->
    exists pts,
      Forall2 (fun t p => exists a,
                   FoldSpec.accuracy_at dist actual_issame test_set t
                   = Ok (fst p, snd p, a)) ths pts /\
      out = (Np.update tprs fold_idx (splice rowt i (map fst pts)),
             Np.update fprs fold_idx (splice rowf i (map snd pts))).
Proof.
  induction ths as [|t ths IH];
    intros i tprs fprs rowt rowf out Ht Hf Hlt Hlf.
  - cbn [roc_test_loop]. split.
    + intro H. injection H as <-. exists []. split; [constructor|].
      cbn [map]. rewrite !splice_nil, !update_same by assumption.
      reflexivity.
    + intros (pts & HF & ->). inversion HF. cbn [map].
      rewrite !splice_nil, !update_same by assumption. reflexivity.
  - rewrite roc_test_loop_cons. cbn [length] in Hlt, Hlf.
    assert (Hti : (fold_idx < length tprs)%nat)
      by (apply nth_error_Some; congruence).
    assert (Hfi : (fold_idx < length fprs)%nat)
      by (apply nth_error_Some; congruence).
    split.
    + intro H. bind_ok H r Er. destruct r as [[tpr fpr] a].
      cbn [fst snd] in H.
      bind_ok H tprs' Et. apply (setitem2_ok_iff _ _ _ _ _ _ Ht) in Et
        as [Hjt ->].
      bind_ok H fprs' Ef. apply (setitem2_ok_iff _ _ _ _ _ _ Hf) in Ef
        as [Hjf ->].
      eapply IH in H;
        [ | apply nth_error_update_eq; assumption
          | apply nth_error_update_eq; assumption
          | rewrite length_update; lia
          | rewrite length_update; lia ].
      destruct H as (pts & HF & ->).
      exists ((tpr, fpr) :: pts). split.
      * constructor; [eauto | assumption].
      * cbn [map fst snd]. rewrite !update_update.
        rewrite !splice_cons by assumption. reflexivity.
    + intros (pts & HF & ->).
      inversion HF as [|t' p ths' pts' (a & Ha) HF']; subst.
      rewrite Ha. cbn [bind fst snd].
      assert (Hst : Np.setitem2 tprs fold_idx i (fst p)
                    = Ok (Np.update tprs fold_idx (Np.update rowt i (fst p)))).
      { apply (setitem2_ok_iff _ _ _ _ _ _ Ht). split; [lia | reflexivity]. }
      assert (Hsf : Np.setitem2 fprs fold_idx i (snd p)
                    = Ok (Np.update fprs fold_idx (Np.update rowf i (snd p)))).
      { apply (setitem2_ok_iff _ _ _ _ _ _ Hf). split; [lia | reflexivity]. }
      rewrite Hst, Hsf. cbn [bind].
      eapply IH;
        [ apply nth_error_update_eq; assumption
        | apply nth_error_update_eq; assumption
        | rewrite length_update; lia
        | rewrite length_update; lia | ].
      exists pts'. split; [assumption|].
      cbn [map]. rewrite !update_update.
      rewrite !splice_cons by lia. reflexivity.
Qed.

End RocLoops.

(** * One fold of [calculate_roc], and the loop over the folds *)

Section RocFolds.

Context {E : External}.

Variables (thresholds : list Q) (embeddings1 embeddings2 : Np.ndarray2)
          (actual_issame : list bool) (pca : nat) (dist0 : list Q).

Local Abbreviation state_ok := (roc_state_ok thresholds).
Local Abbreviation outcome :=
  (roc_fold_outcome thresholds embeddings1 embeddings2 actual_issame pca
     dist0).

Lemma roc_fold_unfold fold_idx train_set test_set tprs fprs accuracy :
  roc_fold thresholds embeddings1 embeddings2 actual_issame pca dist0
    fold_idx (train_set, test_set) (tprs, fprs, accuracy) =
  (dist <- roc_fold_dist pca embeddings1 embeddings2 train_set dist0 ;;
   acc_train <- roc_train_loop thresholds 0 dist actual_issame train_set
                  (Np.zeros (length thresholds)) ;;
   best <- Np.argmax acc_train ;;
   out <- roc_test_loop thresholds 0 fold_idx dist actual_issame test_set
            tprs fprs ;;
   threshold <- Np.getitem thresholds best ;;
   r <- FoldSpec.accuracy_at dist actual_issame test_set threshold ;;
   accuracy' <- Np.setitem accuracy fold_idx (snd r) ;;
   Ok (fst out, snd out, accuracy')).
Proof.
  unfold roc_fold, FoldSpec.accuracy_at.
  destruct (roc_fold_dist _ _ _ _ _) as [dist|]; [|reflexivity]. cbn [bind].
  destruct (roc_train_loop _ _ _ _ _ _) as [acc_train|]; [|reflexivity].
  cbn [bind].
  destruct (Np.argmax acc_train) as [best|]; [|reflexivity]. cbn [bind].
  destruct (roc_test_loop _ _ _ _ _ _ _ _) as [[tprs' fprs']|];
    [|reflexivity]. cbn [bind fst snd].
  destruct (Np.getitem thresholds best) as [threshold|]; [|reflexivity].
  cbn [bind].
  destruct (Np.take dist test_set) as [d|]; [|reflexivity]. cbn [bind].
  destruct (Np.take actual_issame test_set) as [l|]; [|reflexivity].
  cbn [bind].
  destruct (calculate_accuracy threshold d l) as [[[tpr fpr] acc]|];
    reflexivity.
Qed.

Lemma length_zeros n : length (Np.zeros n) = n.
Proof. apply repeat_length. Qed.

Lemma getitem_ok_iff {A : Type} (a : list A) i x :
  Np.getitem a i = Ok x <-> nth_error a i = Some x.
Proof.
  unfold Np.getitem. destruct (nth_error a i); split; congruence.
Qed.

Lemma nth_error_row {A : Type} (P : A -> Prop) (a : list A) i :
  Forall P a -> (i < length a)%nat -> exists x, nth_error a i = Some x /\ P x.
Proof.
  intros HF Hi. destruct (nth_error a i) as [x|] eqn:Ex.
  - exists x. split; [reflexivity|].
    rewrite Forall_forall in HF. apply HF. eapply nth_error_In; eauto.
  - apply nth_error_None in Ex. lia.
Qed.

(** One turn of the fold loop succeeds exactly when the fold has a row in
    the arrays and sections 4.3's steps are all defined; it then stores the
    fold's ROC points and accuracy at position [fold_idx]. *)
Lemma roc_fold_ok_iff k fold_idx fold tprs fprs accuracy st' :
  state_ok k (tprs, fprs, accuracy) ->
  roc_fold thresholds embeddings1 embeddings2 actual_issame pca dist0
    fold_idx fold (tprs, fprs, accuracy) = Ok st' <->
  (fold_idx < k)%nat /\
  exists r,
    outcome fold r /\
    st' = (Np.update tprs fold_idx (FoldSpec.tpr_curve r),
           Np.update fprs fold_idx (FoldSpec.fpr_curve r),
           Np.update accuracy fold_idx (FoldSpec.fold_accuracy r)).
Proof.
  intros (Ht & Hf & Ha & Hrt & Hrf).
  destruct fold as [train_set test_set]. rewrite roc_fold_unfold. split.
  - intro H.
    bind_ok H dist Ed. bind_ok H acc_train Etr. bind_ok H best Eb.
    bind_ok H out Ete. bind_ok H threshold Eth. bind_ok H r Er.
    bind_ok H accuracy' Es. injection H as <-.
    apply setitem_ok_iff in Es as [Hi ->]. rewrite Ha in Hi.
    split; [assumption|].
    apply roc_train_loop_ok_iff in Etr; [|rewrite length_zeros; lia].
    destruct Etr as (vals & HFtr & ->).
    rewrite splice_full in Eb
      by (rewrite length_zeros; symmetry; eapply forall2_length; eauto).
    apply argmax_ok_iff in Eb. apply getitem_ok_iff in Eth.
    destruct (nth_error_row _ tprs fold_idx Hrt) as (rowt & Hrowt & Hlt);
      [lia|].
    destruct (nth_error_row _ fprs fold_idx Hrf) as (rowf & Hrowf & Hlf);
      [lia|].
    apply (roc_test_loop_ok_iff _ _ _ _ _ _ _ _ rowt rowf) in Ete;
      [ | assumption | assumption | lia | lia ].
    destruct Ete as (pts & HFte & ->).
    pose proof (forall2_length _ _ _ HFte) as Hpts.
    rewrite !splice_full in * by (rewrite length_map; congruence).
    destruct r as [[tpr fpr] acc].
    exists {| FoldSpec.roc_points := pts; FoldSpec.fold_accuracy := acc |}.
    split; [|reflexivity].
    exists dist. split; [exact Ed|].
    exists vals, best, threshold. cbn [fst snd FoldSpec.roc_points
                                       FoldSpec.fold_accuracy].
    repeat split; eauto.
  - intros (Hi & r & (dist & Ed & acc_train & best & threshold
                      & HFtr & Hb & HFte & Hth & tpr & fpr & Hacc) & ->).
    cbn [fst snd] in *.
    rewrite Ed. cbn [bind].
    assert (Etr : roc_train_loop thresholds 0 dist actual_issame train_set
                    (Np.zeros (length thresholds)) = Ok acc_train).
    { apply roc_train_loop_ok_iff; [rewrite length_zeros; lia|].
      exists acc_train. split; [assumption|].
      symmetry. apply splice_full. rewrite length_zeros.
      symmetry. eapply forall2_length; eauto. }
    rewrite Etr. cbn [bind].
    rewrite (proj2 (argmax_ok_iff _ _) Hb). cbn [bind].
    destruct (nth_error_row _ tprs fold_idx Hrt) as (rowt & Hrowt & Hlt);
      [lia|].
    destruct (nth_error_row _ fprs fold_idx Hrf) as (rowf & Hrowf & Hlf);
      [lia|].
    pose proof (forall2_length _ _ _ HFte) as Hpts.
    assert (Ete : roc_test_loop thresholds 0 fold_idx dist actual_issame
                    test_set tprs fprs
                  = Ok (Np.update tprs fold_idx (FoldSpec.tpr_curve r),
                        Np.update fprs fold_idx (FoldSpec.fpr_curve r))).
    { apply (roc_test_loop_ok_iff _ _ _ _ _ _ _ _ rowt rowf);
        [ assumption | assumption | lia | lia | ].
      exists (FoldSpec.roc_points r). split; [assumption|].
      rewrite !splice_full by (rewrite length_map; congruence).
      reflexivity. }
    rewrite Ete. cbn [bind].
    rewrite (proj2 (getitem_ok_iff _ _ _) Hth). cbn [bind].
    rewrite Hacc. cbn [bind fst snd].
    assert (Es : Np.setitem accuracy fold_idx (FoldSpec.fold_accuracy r)
                 = Ok (Np.update accuracy fold_idx (FoldSpec.fold_accuracy r))).
    { apply setitem_ok_iff. split; [lia | reflexivity]. }
    rewrite Es. reflexivity.
Qed.

Lemma roc_state_ok_update k fold_idx tprs fprs accuracy r :
  length (FoldSpec.roc_points r) = length thresholds ->
  state_ok k (tprs, fprs, accuracy) ->
  state_ok k
    (Np.update tprs fold_idx (FoldSpec.tpr_curve r),
     Np.update fprs fold_idx (FoldSpec.fpr_curve r),
     Np.update accuracy fold_idx (FoldSpec.fold_accuracy r)).
Proof.
  intros Hr (Ht & Hf & Ha & Hrt & Hrf). unfold roc_state_ok.
  rewrite !length_update. repeat split; try assumption.
  - clear - Hr Hrt. revert fold_idx.
    induction Hrt as [|row tprs Hrow Hrt IH]; intros [|i]; cbn;
      constructor; auto.
    unfold FoldSpec.tpr_curve. rewrite length_map. assumption.
  - clear - Hr Hrf. revert fold_idx.
    induction Hrf as [|row fprs Hrow Hrf IH]; intros [|i]; cbn;
      constructor; auto.
    unfold FoldSpec.fpr_curve. rewrite length_map. assumption.
Qed.

Lemma roc_fold_outcome_length fold r :
  outcome fold r ->
  length (FoldSpec.roc_points r) = length thresholds.
Proof.
  intros (dist & _ & acc_train & best & threshold & _ & _ & HF & _).
  symmetry. eapply forall2_length; eauto.
Qed.

(** The loop over the folds succeeds exactly when every fold has a row and
    an outcome; it then stores the outcomes in fold order from position
    [fold_idx] on. *)
Lemma roc_folds_loop_ok_iff k folds :
  forall fold_idx tprs fprs accuracy st',
    state_ok k (tprs, fprs, accuracy) ->
    roc_folds_loop thresholds embeddings1 embeddings2 actual_issame pca
      dist0 fold_idx folds (tprs, fprs, accuracy) = Ok st' <->
    (folds <> [] -> fold_idx + length folds <= k)%nat /\
    exists rs,
      Forall2 outcome folds rs /\
      st' = (splice tprs fold_idx (map FoldSpec.tpr_curve rs),
             splice fprs fold_idx (map FoldSpec.fpr_curve rs),
             splice accuracy fold_idx (map FoldSpec.fold_accuracy rs)).
Proof.
  induction folds as [|fold folds IH];
    intros fold_idx tprs fprs accuracy st' Hst.
  - cbn [roc_folds_loop]. split.
    + intro H. injection H as <-. split; [congruence|].
      exists []. split; [constructor|]. cbn [map].
      rewrite !splice_nil. reflexivity.
    + intros (_ & rs & HF & ->). inversion HF. cbn [map].
      rewrite !splice_nil. reflexivity.
  - cbn [roc_folds_loop length]. split.
    + pose proof Hst as (Ht & Hf & Ha & _).
      intro H. bind_ok H st1 E1.
      apply (roc_fold_ok_iff k) in E1 as (Hi & r & Hr & ->);
        [|assumption].
      apply IH in H as (Hbound & rs & HF & ->);
        [|apply roc_state_ok_update;
          [eapply roc_fold_outcome_length; eauto | assumption]].
      split.
      * intros _. destruct folds as [|f folds]; [cbn; lia|].
        cbn [length] in *. specialize (Hbound ltac:(discriminate)). lia.
      * exists (r :: rs). split; [constructor; assumption|].
        cbn [map]. rewrite !splice_cons by lia. reflexivity.
    + intros (Hbound & rs & HF & ->).
      specialize (Hbound ltac:(discriminate)).
      inversion HF as [|fold' r folds' rs' Hr HF']; subst.
      pose proof Hst as (Ht & Hf & Ha & _).
      assert (E1 : roc_fold thresholds embeddings1 embeddings2
                     actual_issame pca dist0 fold_idx fold
                     (tprs, fprs, accuracy)
                   = Ok (Np.update tprs fold_idx (FoldSpec.tpr_curve r),
                         Np.update fprs fold_idx (FoldSpec.fpr_curve r),
                         Np.update accuracy fold_idx
                           (FoldSpec.fold_accuracy r))).
      { apply (roc_fold_ok_iff k); [assumption|]. split; [lia|]. eauto. }
      rewrite E1. cbn [bind]. apply IH.
      * apply roc_state_ok_update;
          [eapply roc_fold_outcome_length; eauto | assumption].
      * split; [intros _; lia|].
        exists rs'. split; [assumption|].
        cbn [map]. rewrite !splice_cons by lia. reflexivity.
Qed.

End RocFolds.

(** * The fold splitter yields as many folds as configured *)

Lemma length_folds_from n current sizes :
  length (KFold.folds_from n current sizes) = length sizes.
Proof.
  revert current. induction sizes as [|sz sizes IH]; intro current;
    cbn [KFold.folds_from length]; [reflexivity|].
  rewrite IH. reflexivity.
Qed.

Lemma LFold_split_ok (k : nat) (indices : list nat) folds :
  LFold.split (LFold.init k) indices = Ok folds ->
  ((1 < k)%nat /\ (k <= length indices)%nat /\ length folds = k) \/
  ((k <= 1)%nat /\ folds = [(indices, indices)]).
Proof.
  unfold LFold.split, LFold.init, KFold.split. cbn [LFold.n_splits].
  destruct (1 <? k) eqn:Ek.
  - apply Nat.ltb_lt in Ek.
    destruct (length indices <? k) eqn:En; [discriminate|].
    apply Nat.ltb_ge in En. intro H. injection H as <-. left.
    repeat split; try assumption.
    rewrite length_folds_from. unfold KFold.fold_sizes.
    rewrite length_map, length_seq. reflexivity.
  - apply Nat.ltb_ge in Ek. intro H. injection H as <-. right. auto.
Qed.

Lemma assert_ok_iff (c : bool) (u : unit) : assert c = Ok u <-> c = true.
Proof.
  unfold assert. destruct c, u; split; congruence.
Qed.

Lemma mean_axis0_pointwise (a : list (list Q)) (c : nat) :
  Np.mean_axis0 a c = FoldSpec.pointwise_mean a c.
Proof.
  unfold Np.mean_axis0, FoldSpec.pointwise_mean, Np.mean.
  apply map_ext. intro j. rewrite length_map. reflexivity.
Qed.

Lemma length_pointwise_mean (a : list (list Q)) (c : nat) :
  length (FoldSpec.pointwise_mean a c) = c.
Proof.
  unfold FoldSpec.pointwise_mean. rewrite length_map. apply length_seq.
Qed.

Lemma roc_state_ok_zeros (thresholds : list Q) (k : nat) :
  roc_state_ok thresholds k
    (Np.zeros2 k (length thresholds), Np.zeros2 k (length thresholds),
     Np.zeros k).
Proof.
  unfold roc_state_ok, Np.zeros2.
  rewrite !repeat_length, length_zeros. repeat split;
    apply Forall_forall; intros row Hrow;
    apply repeat_spec in Hrow; subst; apply length_zeros.
Qed.

(** * Claim on [calculate_roc] *)

(** C5: [calculate_roc] returns exactly when the splitter yields
    [nrof_folds] folds and section 4.3's three steps are defined on each of
    them.  For every fold, the training accuracies are taken at every grid
    threshold and the best index is their argmax with ties broken toward
    the lowest index; the fold's accuracy is the test-set accuracy at the
    threshold of that index; the fold's curve holds the test-set
    [(tpr, fpr)] at every grid threshold.  The returned TPR and FPR curves
    are the pointwise arithmetic means of the folds' curves and have the
    length of the grid; the accuracies are returned fold by fold. *)
Theorem C5_calculate_roc_per_fold {E : External} (thresholds : list Q)
  (embeddings1 embeddings2 : Np.ndarray2) (actual_issame : list bool)
  (nrof_folds pca : nat) (tpr fpr accuracy : list Q) :
  let nrof_pairs := Nat.min (length actual_issame) (Np.shape0 embeddings1) in
  let dist := if pca =? 0
              then Np.sqdist (Np.rows embeddings1) (Np.rows embeddings2)
              else [] in
  calculate_roc thresholds embeddings1 embeddings2 actual_issame nrof_folds
    pca = Ok (tpr, fpr, accuracy) <->
  Np.shape0 embeddings1 = Np.shape0 embeddings2 /\
  Np.shape1 embeddings1 = Np.shape1 embeddings2 /\
  exists folds rs,
    LFold.split (LFold.init nrof_folds) (Np.arange nrof_pairs) = Ok folds /\
    length folds = nrof_folds /\
    Forall2 (roc_fold_outcome thresholds embeddings1 embeddings2
               actual_issame pca dist) folds rs /\
    tpr = FoldSpec.pointwise_mean (map FoldSpec.tpr_curve rs)
            (length thresholds) /\
    fpr = FoldSpec.pointwise_mean (map FoldSpec.fpr_curve rs)
            (length thresholds) /\
    accuracy = map FoldSpec.fold_accuracy rs /\
    length tpr = length thresholds /\ length fpr = length thresholds.
Proof.
  intros nrof_pairs dist. unfold calculate_roc.
  fold nrof_pairs. fold dist.
  pose proof (roc_state_ok_zeros thresholds nrof_folds) as Hzeros.
  split.
  - intro H. bind_ok H u0 E0. bind_ok H u1 E1. bind_ok H folds Ef.
    bind_ok H st Eloop. destruct st as [[tprs fprs] acc].
    injection H as <- <- <-.
    apply assert_ok_iff, Nat.eqb_eq in E0.
    apply assert_ok_iff, Nat.eqb_eq in E1.
    apply (roc_folds_loop_ok_iff _ _ _ _ _ _ nrof_folds) in Eloop
      as (Hbound & rs & HF & Hst); [|assumption].
    pose proof (forall2_length _ _ _ HF) as Hrs.
    assert (Hk : length folds = nrof_folds).
    { destruct (LFold_split_ok _ _ _ Ef) as [(_ & _ & Hk)|(Hk & ->)];
        [assumption|].
      specialize (Hbound ltac:(discriminate)). cbn in Hbound |- *. lia. }
    injection Hst as -> -> ->.
    rewrite !splice_full
      by (rewrite length_map; unfold Np.zeros2;
          rewrite ?repeat_length, ?length_zeros; congruence).
    rewrite !mean_axis0_pointwise, !length_pointwise_mean.
    repeat split; try assumption.
    exists folds, rs. repeat split; assumption.
  - intros (E0 & E1 & folds & rs & Ef & Hk & HF & -> & -> & -> & _).
    rewrite (proj2 (assert_ok_iff _ tt) (proj2 (Nat.eqb_eq _ _) E0)).
    rewrite (proj2 (assert_ok_iff _ tt) (proj2 (Nat.eqb_eq _ _) E1)).
    cbn [bind]. rewrite Ef. cbn [bind].
    pose proof (forall2_length _ _ _ HF) as Hrs.
    assert (Eloop :
      roc_folds_loop thresholds embeddings1 embeddings2 actual_issame pca
        dist 0 folds
        (Np.zeros2 nrof_folds (length thresholds),
         Np.zeros2 nrof_folds (length thresholds), Np.zeros nrof_folds)
      = Ok (map FoldSpec.tpr_curve rs, map FoldSpec.fpr_curve rs,
            map FoldSpec.fold_accuracy rs)).
    { apply (roc_folds_loop_ok_iff _ _ _ _ _ _ nrof_folds); [assumption|].
      split; [intros _; lia|].
      exists rs. split; [assumption|].
      rewrite !splice_full
        by (rewrite length_map; unfold Np.zeros2;
            rewrite ?repeat_length, ?length_zeros; congruence).
      reflexivity. }
    rewrite Eloop. cbn [bind].
    rewrite !mean_axis0_pointwise. reflexivity.
Qed.

Lemma C5_calculate_roc_per_fold_witness :
  calculate_roc (E := Example.external) Example.grid Example.left4
    Example.right4 Example.labels4 2 0
  = Ok ([0 # 4; 2 # 4; 2 # 4; 2 # 4; 2 # 4],
        [0 # 4; 0 # 4; 0 # 4; 0 # 4; 0 # 4], [0 # 2; 2 # 2]) /\
  exists folds rs,
    LFold.split (LFold.init 2) (Np.arange 4) = Ok folds /\
    length folds = 2%nat /\
    Forall2 (roc_fold_outcome (E := Example.external) Example.grid
               Example.left4 Example.right4 Example.labels4 0
               (Np.sqdist (Np.rows Example.left4) (Np.rows Example.right4)))
            folds rs /\
    [0 # 2; 2 # 2] = map FoldSpec.fold_accuracy rs.
Proof.
  assert (H : calculate_roc (E := Example.external) Example.grid
                Example.left4 Example.right4 Example.labels4 2 0
              = Ok ([0 # 4; 2 # 4; 2 # 4; 2 # 4; 2 # 4],
                    [0 # 4; 0 # 4; 0 # 4; 0 # 4; 0 # 4], [0 # 2; 2 # 2]))
    by reflexivity.
  split; [exact H|].
  apply C5_calculate_roc_per_fold in H
    as (_ & _ & folds & rs & Hs & Hk & HF & _ & _ & Ha & _).
  exists folds, rs. auto.
Defined.

(** * The loops of [calculate_val] *)

Section ValLoops.

Context {E : External}.

Variables (thresholds dist : list Q) (actual_issame : list bool)
          (far_target : Q).

Lemma val_train_loop_cons t ths i train_set far_train :
  val_train_loop (t :: ths) i dist actual_issame train_set far_train =
  (r <- FoldSpec.val_far_at dist actual_issame train_set t ;;
   far_train' <- Np.setitem far_train i (snd r) ;;
   val_train_loop ths (S i) dist actual_issame train_set far_train').
Proof.
  cbn [val_train_loop]. unfold FoldSpec.val_far_at.
  destruct (Np.take dist train_set); [|reflexivity].
  destruct (Np.take actual_issame train_set); [|reflexivity].
  cbn [bind].
  destruct (calculate_val_far t a a0) as [[v f]|]; reflexivity.
Qed.

(** The threshold loop leaves in [far_train] the training FAR at every grid
    threshold, in grid order. *)
Lemma val_train_loop_ok_iff train_set ths :
  forall i far_train out,
    (i + length ths <= length far_train)%nat ->
    val_train_loop ths i dist actual_issame train_set far_train = Ok out <->
    exists fars,
      Forall2 (fun t f => exists v,
                   FoldSpec.val_far_at dist actual_issame train_set t
                   = Ok (v, f)) ths fars /\
      out = splice far_train i fars.
Proof.
  induction ths as [|t ths IH]; intros i far_train out Hlen.
  - cbn [val_train_loop]. split.
    + intro H. injection H as <-. exists []. split; [constructor|].
      symmetry. apply splice_nil.
    + intros (fars & HF & ->). inversion HF. rewrite splice_nil. reflexivity.
  - rewrite val_train_loop_cons. cbn [length] in Hlen. split.
    + intro H. bind_ok H r Er. destruct r as [v f].
      bind_ok H far' Es. cbn [snd] in Es.
      apply setitem_ok_iff in Es as [Hi ->].
      apply IH in H; [|rewrite length_update; lia].
      destruct H as (fars & HF & ->).
      exists (f :: fars). split.
      * constructor; [eauto | assumption].
      * apply splice_cons. assumption.
    + intros (fars & HF & ->).
      inversion HF as [|t' f ths' fars' (v & Hv) HF']; subst.
      rewrite Hv. cbn [bind snd].
      assert (Hs : Np.setitem far_train i f = Ok (Np.update far_train i f)).
      { apply setitem_ok_iff. split; [lia | reflexivity]. }
      rewrite Hs. cbn [bind]. apply IH; [rewrite length_update; lia|].
      exists fars'. split; [assumption|].
      symmetry. apply splice_cons. lia.
Qed.

Lemma Qle_bool_false_iff (x y : Q) : Qle_bool x y = false <-> ~ x <= y.
Proof.
  rewrite <- Qle_bool_iff. destruct (Qle_bool x y); split; congruence.
Qed.

(** Lines 147-151: interpolation when the largest training FAR reaches the
    target, and [0] otherwise. *)
Lemma val_threshold_ok_iff far_train threshold :
  val_threshold thresholds far_train far_target = Ok threshold <->
  exists max_far,
    FoldSpec.is_max far_train max_far /\
    (far_target <= max_far ->
     interp1d_slinear far_train thresholds far_target = Ok threshold) /\
    (~ far_target <= max_far -> threshold = 0).
Proof.
  unfold val_threshold. split.
  - intro H. bind_ok H m Em. exists m.
    split; [apply amax_is_max; assumption|].
    destruct (Qle_bool far_target m) eqn:Ele.
    + apply Qle_bool_iff in Ele. split; [auto | contradiction].
    + apply Qle_bool_false_iff in Ele. injection H as <-.
      split; [contradiction | reflexivity].
  - intros (m' & Hmax & Hge & Hlt).
    destruct (amax_nonempty far_train) as [m Em].
    { destruct Hmax as [_ (x & Hx & _)]. intros ->. destruct Hx. }
    rewrite Em. cbn [bind].
    pose proof (is_max_unique _ _ _ (amax_is_max _ _ Em) Hmax) as Heq.
    destruct (Qle_bool far_target m) eqn:Ele.
    + apply Qle_bool_iff in Ele. apply Hge. rewrite <- Heq. assumption.
    + apply Qle_bool_false_iff in Ele. rewrite Hlt; [reflexivity|].
      rewrite <- Heq. assumption.
Qed.

Lemma val_fold_unfold fold_idx train_set test_set val far :
  val_fold thresholds dist actual_issame far_target fold_idx
    (train_set, test_set) (val, far) =
  (far_train <- val_train_loop thresholds 0 dist actual_issame train_set
                  (Np.zeros (length thresholds)) ;;
   threshold <- val_threshold thresholds far_train far_target ;;
   vf <- FoldSpec.val_far_at dist actual_issame test_set threshold ;;
   val' <- Np.setitem val fold_idx (fst vf) ;;
   far' <- Np.setitem far fold_idx (snd vf) ;;
   Ok (val', far')).
Proof.
  unfold val_fold, FoldSpec.val_far_at.
  destruct (val_train_loop _ _ _ _ _ _) as [far_train|]; [|reflexivity].
  cbn [bind].
  destruct (val_threshold _ _ _) as [threshold|]; [|reflexivity].
  cbn [bind].
  destruct (Np.take dist test_set) as [d|]; [|reflexivity]. cbn [bind].
  destruct (Np.take actual_issame test_set) as [l|]; [|reflexivity].
  cbn [bind].
  destruct (calculate_val_far threshold d l) as [[v f]|]; reflexivity.
Qed.

Local Abbreviation fold_spec :=
  (FoldSpec.val_fold_spec thresholds dist actual_issame far_target).

(** One turn of the fold loop succeeds exactly when the fold has an entry
    in [val] and [far] and section 4.4's steps are all defined; it then
    stores the fold's [(VAL, FAR)] at position [fold_idx]. *)
Lemma val_fold_ok_iff k fold_idx fold val far st' :
  length val = k -> length far = k ->
  val_fold thresholds dist actual_issame far_target fold_idx fold (val, far)
  = Ok st' <->
  (fold_idx < k)%nat /\
  exists vf,
    fold_spec fold vf /\
    st' = (Np.update val fold_idx (fst vf), Np.update far fold_idx (snd vf)).
Proof.
  intros Hv Hf. destruct fold as [train_set test_set].
  rewrite val_fold_unfold. split.
  - intro H. bind_ok H far_train Etr. bind_ok H threshold Eth.
    bind_ok H vf Evf. bind_ok H val' Esv. bind_ok H far' Esf.
    injection H as <-.
    apply setitem_ok_iff in Esv as [Hi ->].
    apply setitem_ok_iff in Esf as [_ ->].
    split; [lia|]. exists vf. split; [|reflexivity].
    apply val_train_loop_ok_iff in Etr; [|rewrite length_zeros; lia].
    destruct Etr as (fars & HF & ->).
    rewrite splice_full in Eth
      by (rewrite length_zeros; symmetry; eapply forall2_length; eauto).
    apply val_threshold_ok_iff in Eth as (m & Hmax & Hge & Hlt).
    exists fars, m, threshold. cbn [fst snd]. auto.
  - intros (Hi & vf & (far_train & m & threshold & HF & Hmax & Hge & Hlt
                       & Hvf) & ->).
    cbn [fst snd] in *.
    assert (Etr : val_train_loop thresholds 0 dist actual_issame train_set
                    (Np.zeros (length thresholds)) = Ok far_train).
    { apply val_train_loop_ok_iff; [rewrite length_zeros; lia|].
      exists far_train. split; [assumption|].
      symmetry. apply splice_full. rewrite length_zeros.
      symmetry. eapply forall2_length; eauto. }
    rewrite Etr. cbn [bind].
    assert (Eth : val_threshold thresholds far_train far_target
                  = Ok threshold).
    { apply val_threshold_ok_iff. exists m. auto. }
    rewrite Eth. cbn [bind]. rewrite Hvf. cbn [bind].
    assert (Esv : Np.setitem val fold_idx (fst vf)
                  = Ok (Np.update val fold_idx (fst vf))).
    { apply setitem_ok_iff. split; [lia | reflexivity]. }
    assert (Esf : Np.setitem far fold_idx (snd vf)
                  = Ok (Np.update far fold_idx (snd vf))).
    { apply setitem_ok_iff. split; [lia | reflexivity]. }
    rewrite Esv, Esf. reflexivity.
Qed.

(** The loop over the folds succeeds exactly when every fold has an entry
    and a [(VAL, FAR)]; it then stores them in fold order from position
    [fold_idx] on. *)
Lemma val_folds_loop_ok_iff k folds :
  forall fold_idx val far st',
    length val = k -> length far = k ->
    val_folds_loop thresholds dist actual_issame far_target fold_idx folds
      (val, far) = Ok st' <->
    (folds <> [] -> fold_idx + length folds <= k)%nat /\
    exists vfs,
      Forall2 fold_spec folds vfs /\
      st' = (splice val fold_idx (map fst vfs),
             splice far fold_idx (map snd vfs)).
Proof.
  induction folds as [|fold folds IH]; intros fold_idx val far st' Hv Hf.
  - cbn [val_folds_loop]. split.
    + intro H. injection H as <-. split; [congruence|].
      exists []. split; [constructor|]. cbn [map].
      rewrite !splice_nil. reflexivity.
    + intros (_ & vfs & HF & ->). inversion HF. cbn [map].
      rewrite !splice_nil. reflexivity.
  - cbn [val_folds_loop length]. split.
    + intro H. bind_ok H st1 E1.
      apply (val_fold_ok_iff k) in E1 as (Hi & vf & Hvf & ->);
        [ | assumption | assumption ].
      apply IH in H as (Hbound & vfs & HF & ->);
        [ | rewrite length_update; assumption
          | rewrite length_update; assumption ].
      split.
      * intros _. destruct folds as [|f folds]; [cbn; lia|].
        cbn [length] in *. specialize (Hbound ltac:(discriminate)). lia.
      * exists (vf :: vfs). split; [constructor; assumption|].
        cbn [map]. rewrite !splice_cons by lia. reflexivity.
    + intros (Hbound & vfs & HF & ->).
      specialize (Hbound ltac:(discriminate)).
      inversion HF as [|fold' vf folds' vfs' Hvf HF']. clear HF.
      subst fold' folds' vfs.
      assert (E1 : val_fold thresholds dist actual_issame far_target
                     fold_idx fold (val, far)
                   = Ok (Np.update val fold_idx (fst vf),
                         Np.update far fold_idx (snd vf))).
      { apply (val_fold_ok_iff k); [assumption | assumption |].
        split; [lia|]. eauto. }
      rewrite E1. cbn [bind]. apply IH.
      * rewrite length_update. assumption.
      * rewrite length_update. assumption.
      * split; [intros _; lia|].
        exists vfs'. split; [assumption|].
        cbn [map]. rewrite !splice_cons by lia. reflexivity.
Qed.

End ValLoops.

Lemma np_std_population {E : External} (a : list Q) :
  np_std a = FoldSpec.population_std a.
Proof.
  unfold np_std, FoldSpec.population_std, Np.mean at 1.
  rewrite length_map. reflexivity.
Qed.

(** * Claim on [calculate_val] *)

(** C4: [calculate_val] returns exactly when the splitter yields
    [nrof_folds] folds and section 4.4's steps are defined on each of them.
    For every fold, the training FAR is taken at every grid threshold; if
    its maximum is at least the target, the fold's threshold is the
    interpolation of the thresholds as a function of these FARs, evaluated
    at the target, and it is [0] otherwise; the fold's [(VAL, FAR)] is
    computed on the test indices at that threshold.  The values returned
    are the mean of the folds' VAL, their population standard deviation,
    and the mean of the folds' FAR. *)
Theorem C4_calculate_val_per_fold {E : External} (thresholds : list Q)
  (embeddings1 embeddings2 : Np.ndarray2) (actual_issame : list bool)
  (far_target : Q) (nrof_folds : nat) (val_mean val_std far_mean : Q) :
  let nrof_pairs := Nat.min (length actual_issame) (Np.shape0 embeddings1) in
  let dist := Np.sqdist (Np.rows embeddings1) (Np.rows embeddings2) in
  calculate_val thresholds embeddings1 embeddings2 actual_issame far_target
    nrof_folds = Ok (val_mean, val_std, far_mean) <->
  Np.shape0 embeddings1 = Np.shape0 embeddings2 /\
  Np.shape1 embeddings1 = Np.shape1 embeddings2 /\
  exists folds vfs,
    LFold.split (LFold.init nrof_folds) (Np.arange nrof_pairs) = Ok folds /\
    length folds = nrof_folds /\
    Forall2 (FoldSpec.val_fold_spec thresholds dist actual_issame far_target)
            folds vfs /\
    val_mean = Np.mean (map fst vfs) /\
    val_std = FoldSpec.population_std (map fst vfs) /\
    far_mean = Np.mean (map snd vfs).
Proof.
  intros nrof_pairs dist. unfold calculate_val.
  fold nrof_pairs. fold dist.
  split.
  - intro H. bind_ok H u0 E0. bind_ok H u1 E1. bind_ok H folds Ef.
    bind_ok H st Eloop. destruct st as [val far].
    injection H as <- <- <-.
    apply assert_ok_iff, Nat.eqb_eq in E0.
    apply assert_ok_iff, Nat.eqb_eq in E1.
    apply (val_folds_loop_ok_iff _ _ _ _ nrof_folds) in Eloop
      as (Hbound & vfs & HF & Hst); [ | apply length_zeros | apply length_zeros ].
    pose proof (forall2_length _ _ _ HF) as Hvfs.
    assert (Hk : length folds = nrof_folds).
    { destruct (LFold_split_ok _ _ _ Ef) as [(_ & _ & Hk)|(Hk & ->)];
        [assumption|].
      specialize (Hbound ltac:(discriminate)). cbn in Hbound |- *. lia. }
    injection Hst as -> ->.
    rewrite !splice_full
      by (rewrite length_map, length_zeros; congruence).
    rewrite np_std_population.
    repeat split; try assumption.
    exists folds, vfs. repeat split; assumption.
  - intros (E0 & E1 & folds & vfs & Ef & Hk & HF & -> & -> & ->).
    rewrite (proj2 (assert_ok_iff _ tt) (proj2 (Nat.eqb_eq _ _) E0)).
    rewrite (proj2 (assert_ok_iff _ tt) (proj2 (Nat.eqb_eq _ _) E1)).
    cbn [bind]. rewrite Ef. cbn [bind].
    pose proof (forall2_length _ _ _ HF) as Hvfs.
    assert (Eloop :
      val_folds_loop thresholds dist actual_issame far_target 0 folds
        (Np.zeros nrof_folds, Np.zeros nrof_folds)
      = Ok (map fst vfs, map snd vfs)).
    { apply (val_folds_loop_ok_iff _ _ _ _ nrof_folds);
        [ apply length_zeros | apply length_zeros | ].
      split; [intros _; lia|].
      exists vfs. split; [assumption|].
      rewrite !splice_full
        by (rewrite length_map, length_zeros; congruence).
      reflexivity. }
    rewrite Eloop. cbn [bind].
    rewrite np_std_population. reflexivity.
Qed.

Lemma C4_calculate_val_per_fold_witness :
  calculate_val (E := Example.external) [0; 13] Example.left4 Example.right4
    [true; false; true; false] (1 # 2) 2
  = Ok (1 # 2, 16000000 # 32000000, 1 # 2) /\
  exists folds vfs,
    LFold.split (LFold.init 2) (Np.arange 4) = Ok folds /\
    length folds = 2%nat /\
    Forall2 (FoldSpec.val_fold_spec (E := Example.external) [0; 13]
               (Np.sqdist (Np.rows Example.left4) (Np.rows Example.right4))
               [true; false; true; false] (1 # 2)) folds vfs /\
    1 # 2 = Np.mean (map fst vfs).
Proof.
  assert (H : calculate_val (E := Example.external) [0; 13] Example.left4
                Example.right4 [true; false; true; false] (1 # 2) 2
              = Ok (1 # 2, 16000000 # 32000000, 1 # 2)) by reflexivity.
  split; [exact H|].
  apply C4_calculate_val_per_fold in H
    as (_ & _ & folds & vfs & Hs & Hk & HF & Hm & _).
  exists folds, vfs. auto.
Defined.

(** * Inputs of different lengths *)

(** Two arrays agree below [n] when their first [n] entries coincide. *)
Lemma take_agree {A : Type} (n : nat) (a b : list A) (idx : list nat) :
  firstn n a = firstn n b ->
  Forall (fun i => (i < n)%nat) idx ->
  Np.take a idx = Np.take b idx.
Proof.
  intros Hab Hidx. induction Hidx as [|i idx Hi Hidx IH]; [reflexivity|].
  cbn [Np.take]. rewrite IH.
  assert (Hnth : nth_error a i = nth_error b i).
  { pose proof (nth_error_firstn n a i) as Ha.
    pose proof (nth_error_firstn n b i) as Hb.
    rewrite (proj2 (Nat.ltb_lt _ _) Hi) in Ha, Hb. congruence. }
  rewrite Hnth. reflexivity.
Qed.

Lemma firstn_zip_with {A B C : Type} (f : A -> B -> C) n xs ys :
  firstn n (Np.zip_with f xs ys) =
  Np.zip_with f (firstn n xs) (firstn n ys).
Proof.
  revert xs ys. induction n as [|n IH]; intros [|x xs] [|y ys];
    cbn; try reflexivity.
  rewrite IH. reflexivity.
Qed.

Lemma firstn_idem {A : Type} n (l : list A) :
  firstn n (firstn n l) = firstn n l.
Proof. rewrite firstn_firstn, Nat.min_id. reflexivity. Qed.

(** ** The indices the splitter yields *)

Lemma list_sum_fold_sizes (c r k : nat) :
  list_sum (map (fun i => (c + (if i <? r then 1 else 0))%nat) (seq 0 k))
  = (k * c + Nat.min r k)%nat.
Proof.
  induction k as [|k IH]; [cbn; lia|].
  rewrite seq_S, map_app, list_sum_app, IH. cbn [map list_sum Nat.add].
  destruct (k <? r) eqn:Ek;
    [apply Nat.ltb_lt in Ek | apply Nat.ltb_ge in Ek];
    unfold list_sum, fold_right; lia.
Qed.

Lemma fold_sizes_sum (k n : nat) :
  (0 < k)%nat -> list_sum (KFold.fold_sizes k n) = n.
Proof.
  intro Hk. unfold KFold.fold_sizes. rewrite list_sum_fold_sizes.
  pose proof (Nat.div_mod_eq n k) as Hdm.
  pose proof (Nat.mod_upper_bound n k ltac:(lia)) as Hmod. lia.
Qed.

Lemma seq_in_range (n start len : nat) :
  (start + len <= n)%nat -> Forall (fun i => (i < n)%nat) (seq start len).
Proof.
  intro H. apply Forall_forall. intros i Hi. apply in_seq in Hi. lia.
Qed.

Lemma folds_from_in_range (n : nat) (sizes : list nat) :
  forall current,
    (current + list_sum sizes <= n)%nat ->
    Forall (fold_in_range n) (KFold.folds_from n current sizes).
Proof.
  induction sizes as [|sz sizes IH]; intros current H;
    cbn [KFold.folds_from]; constructor;
    change (list_sum (sz :: sizes)) with (sz + list_sum sizes)%nat in H.
  - split; cbn [fst snd].
    + apply Forall_app. split; apply seq_in_range; lia.
    + apply seq_in_range. lia.
  - apply IH. lia.
Qed.

Lemma LFold_split_in_range (k n : nat) folds :
  LFold.split (LFold.init k) (Np.arange n) = Ok folds ->
  Forall (fold_in_range n) folds.
Proof.
  unfold LFold.split, LFold.init, KFold.split. cbn [LFold.n_splits].
  rewrite length_arange.
  destruct (1 <? k) eqn:Ek.
  - apply Nat.ltb_lt in Ek. destruct (n <? k); [discriminate|].
    intro H. injection H as <-. apply folds_from_in_range.
    rewrite fold_sizes_sum by lia. lia.
  - intro H. injection H as <-. constructor; [|constructor].
    split; cbn [fst snd]; apply seq_in_range; lia.
Qed.

(** ** The loops read their arrays only at the indices of the folds *)

Section Truncation.

Context {E : External}.

Variable n : nat.
Variables (dist dist' : list Q) (labels labels' : list bool).
Hypothesis dist_agree : firstn n dist = firstn n dist'.
Hypothesis labels_agree : firstn n labels = firstn n labels'.

Lemma accuracy_at_agree idx t :
  Forall (fun i => (i < n)%nat) idx ->
  FoldSpec.accuracy_at dist labels idx t
  = FoldSpec.accuracy_at dist' labels' idx t.
Proof.
  intro Hidx. unfold FoldSpec.accuracy_at.
  rewrite (take_agree n dist dist' idx dist_agree Hidx).
  rewrite (take_agree n labels labels' idx labels_agree Hidx).
  reflexivity.
Qed.

Lemma val_far_at_agree idx t :
  Forall (fun i => (i < n)%nat) idx ->
  FoldSpec.val_far_at dist labels idx t
  = FoldSpec.val_far_at dist' labels' idx t.
Proof.
  intro Hidx. unfold FoldSpec.val_far_at.
  rewrite (take_agree n dist dist' idx dist_agree Hidx).
  rewrite (take_agree n labels labels' idx labels_agree Hidx).
  reflexivity.
Qed.

Lemma roc_train_loop_agree train_set ths :
  Forall (fun i => (i < n)%nat) train_set ->
  forall i acc_train,
    roc_train_loop ths i dist labels train_set acc_train
    = roc_train_loop ths i dist' labels' train_set acc_train.
Proof.
  intro Hidx. induction ths as [|t ths IH]; intros i acc_train;
    [reflexivity|].
  rewrite !roc_train_loop_cons, (accuracy_at_agree _ t Hidx).
  destruct (FoldSpec.accuracy_at dist' labels' train_set t) as [r|];
    [cbn [bind] | reflexivity].
  destruct (Np.setitem acc_train i (snd r)); [cbn [bind] | reflexivity].
  apply IH.
Qed.

Lemma roc_test_loop_agree test_set fold_idx ths :
  Forall (fun i => (i < n)%nat) test_set ->
  forall i tprs fprs,
    roc_test_loop ths i fold_idx dist labels test_set tprs fprs
    = roc_test_loop ths i fold_idx dist' labels' test_set tprs fprs.
Proof.
  intro Hidx. induction ths as [|t ths IH]; intros i tprs fprs;
    [reflexivity|].
  rewrite !roc_test_loop_cons, (accuracy_at_agree _ t Hidx).
  destruct (FoldSpec.accuracy_at dist' labels' test_set t) as [r|];
    [cbn [bind] | reflexivity].
  destruct (Np.setitem2 tprs fold_idx i (fst (fst r)));
    [cbn [bind] | reflexivity].
  destruct (Np.setitem2 fprs fold_idx i (snd (fst r)));
    [cbn [bind] | reflexivity].
  apply IH.
Qed.

Lemma val_train_loop_agree train_set ths :
  Forall (fun i => (i < n)%nat) train_set ->
  forall i far_train,
    val_train_loop ths i dist labels train_set far_train
    = val_train_loop ths i dist' labels' train_set far_train.
Proof.
  intro Hidx. induction ths as [|t ths IH]; intros i far_train;
    [reflexivity|].
  rewrite !val_train_loop_cons, (val_far_at_agree _ t Hidx).
  destruct (FoldSpec.val_far_at dist' labels' train_set t) as [r|];
    [cbn [bind] | reflexivity].
  destruct (Np.setitem far_train i (snd r)); [cbn [bind] | reflexivity].
  apply IH.
Qed.

Lemma val_fold_agree thresholds far_target fold_idx fold st :
  fold_in_range n fold ->
  val_fold thresholds dist labels far_target fold_idx fold st
  = val_fold thresholds dist' labels' far_target fold_idx fold st.
Proof.
  destruct fold as [train_set test_set], st as [val far].
  intros [Htrain Htest]. cbn [fst snd] in *.
  rewrite !val_fold_unfold.
  rewrite (val_train_loop_agree _ thresholds Htrain).
  destruct (val_train_loop _ _ dist' _ _ _) as [far_train|];
    [cbn [bind] | reflexivity].
  destruct (val_threshold _ _ _) as [threshold|];
    [cbn [bind] | reflexivity].
  rewrite (val_far_at_agree _ threshold Htest). reflexivity.
Qed.

Lemma val_folds_loop_agree thresholds far_target folds :
  Forall (fold_in_range n) folds ->
  forall fold_idx st,
    val_folds_loop thresholds dist labels far_target fold_idx folds st
    = val_folds_loop thresholds dist' labels' far_target fold_idx folds st.
Proof.
  induction 1 as [|fold folds Hfold Hfolds IH]; intros fold_idx st;
    [reflexivity|].
  cbn [val_folds_loop]. rewrite (val_fold_agree _ _ _ _ _ Hfold).
  destruct (val_fold _ dist' _ _ _ _ _); [cbn [bind] | reflexivity].
  apply IH.
Qed.

End Truncation.

Section TruncationRoc.

Context {E : External}.

Variable n : nat.
Variables (thresholds : list Q) (embeddings1 embeddings2 : Np.ndarray2)
          (labels labels' : list bool) (pca : nat).
Hypothesis labels_agree : firstn n labels = firstn n labels'.

(** The distances of a fold, computed from all the rows or from the first
    [n] of them, agree below [n]. *)
Lemma roc_fold_dist_agree train_set dist0 dist0' :
  firstn n dist0 = firstn n dist0' ->
  Forall (fun i => (i < n)%nat) train_set ->
  match roc_fold_dist pca embeddings1 embeddings2 train_set dist0,
        roc_fold_dist pca (Np.head_rows n embeddings1)
          (Np.head_rows n embeddings2) train_set dist0' with
  | Ok d, Ok d' => firstn n d = firstn n d'
  | Raise e, Raise e' => e = e'
  | _, _ => False
  end.
Proof.
  intros H0 Hidx. unfold roc_fold_dist.
  destruct (0 <? pca); [|assumption].
  cbn [Np.head_rows Np.rows].
  rewrite <- (take_agree n (Np.rows embeddings1)
                (firstn n (Np.rows embeddings1)) train_set
                (eq_sym (firstn_idem n _)) Hidx).
  rewrite <- (take_agree n (Np.rows embeddings2)
                (firstn n (Np.rows embeddings2)) train_set
                (eq_sym (firstn_idem n _)) Hidx).
  destruct (Np.take (Np.rows embeddings1) train_set);
    [cbn [bind] | reflexivity].
  destruct (Np.take (Np.rows embeddings2) train_set);
    [cbn [bind] | reflexivity].
  destruct (PCA_fit pca (a ++ a0)) as [m|]; [cbn [bind] | reflexivity].
  unfold Np.sqdist. rewrite !firstn_zip_with, !firstn_map, !firstn_idem.
  reflexivity.
Qed.

Lemma roc_fold_agree dist0 dist0' fold_idx fold st :
  firstn n dist0 = firstn n dist0' ->
  fold_in_range n fold ->
  roc_fold thresholds embeddings1 embeddings2 labels pca dist0 fold_idx
    fold st
  = roc_fold thresholds (Np.head_rows n embeddings1)
      (Np.head_rows n embeddings2) labels' pca dist0' fold_idx fold st.
Proof.
  destruct fold as [train_set test_set], st as [[tprs fprs] accuracy].
  intros H0 [Htrain Htest]. cbn [fst snd] in *.
  rewrite !roc_fold_unfold.
  pose proof (roc_fold_dist_agree train_set dist0 dist0' H0 Htrain) as Hd.
  destruct (roc_fold_dist pca embeddings1 _ _ _) as [d|e],
           (roc_fold_dist pca (Np.head_rows n embeddings1) _ _ _) as [d'|e'];
    try contradiction; [cbn [bind] | cbn [bind]; congruence].
  rewrite (roc_train_loop_agree n d d' labels labels' Hd labels_agree
             train_set thresholds Htrain).
  destruct (roc_train_loop _ _ d' _ _ _) as [acc_train|];
    [cbn [bind] | reflexivity].
  destruct (Np.argmax acc_train) as [best|]; [cbn [bind] | reflexivity].
  rewrite (roc_test_loop_agree n d d' labels labels' Hd labels_agree
             test_set fold_idx thresholds Htest).
  destruct (roc_test_loop _ _ _ d' _ _ _ _) as [out|];
    [cbn [bind] | reflexivity].
  destruct (Np.getitem thresholds best) as [threshold|];
    [cbn [bind] | reflexivity].
  rewrite (accuracy_at_agree n d d' labels labels' Hd labels_agree
             test_set threshold Htest).
  reflexivity.
Qed.

Lemma roc_folds_loop_agree dist0 dist0' folds :
  firstn n dist0 = firstn n dist0' ->
  Forall (fold_in_range n) folds ->
  forall fold_idx st,
    roc_folds_loop thresholds embeddings1 embeddings2 labels pca dist0
      fold_idx folds st
    = roc_folds_loop thresholds (Np.head_rows n embeddings1)
        (Np.head_rows n embeddings2) labels' pca dist0' fold_idx folds st.
Proof.
  intro H0. induction 1 as [|fold folds Hfold Hfolds IH];
    intros fold_idx st; [reflexivity|].
  cbn [roc_folds_loop].
  rewrite (roc_fold_agree dist0 dist0' fold_idx fold st H0 Hfold).
  destruct (roc_fold _ (Np.head_rows n embeddings1) _ _ _ _ _ _ _);
    [cbn [bind] | reflexivity].
  apply IH.
Qed.

End TruncationRoc.

Lemma shape0_head_rows (n : nat) (m : Np.ndarray2) :
  (n <= Np.shape0 m)%nat -> Np.shape0 (Np.head_rows n m) = n.
Proof.
  intro H. unfold Np.shape0, Np.head_rows. cbn [Np.rows].
  apply firstn_length_le. exact H.
Qed.

Lemma sqdist_head_agree (n : nat) (x y : list (list Q)) :
  firstn n (Np.sqdist x y) = firstn n (Np.sqdist (firstn n x) (firstn n y)).
Proof.
  unfold Np.sqdist. rewrite !firstn_zip_with, !firstn_idem. reflexivity.
Qed.

(** * Claim on label arrays and embeddings of different lengths *)

(** C9: when the label array and the embeddings have different lengths,
    [calculate_roc] and [calculate_val] evaluate the first
    [min(len(labels), len(embeddings1))] pairs only: their outcome, value
    or exception, is the outcome on the inputs cut to that common length,
    so the difference in length raises nothing by itself. *)
Theorem C9_length_mismatch_truncates {E : External} (thresholds : list Q)
  (embeddings1 embeddings2 : Np.ndarray2) (actual_issame : list bool)
  (far_target : Q) (nrof_folds pca : nat) :
  Np.shape0 embeddings1 = Np.shape0 embeddings2 ->
  let n := Nat.min (length actual_issame) (Np.shape0 embeddings1) in
  calculate_roc thresholds embeddings1 embeddings2 actual_issame nrof_folds
    pca
  = calculate_roc thresholds (Np.head_rows n embeddings1)
      (Np.head_rows n embeddings2) (firstn n actual_issame) nrof_folds pca
  /\
  calculate_val thresholds embeddings1 embeddings2 actual_issame far_target
    nrof_folds
  = calculate_val thresholds (Np.head_rows n embeddings1)
      (Np.head_rows n embeddings2) (firstn n actual_issame) far_target
      nrof_folds.
Proof.
  intros Hshape n.
  assert (Hn1 : Np.shape0 (Np.head_rows n embeddings1) = n)
    by (apply shape0_head_rows; unfold n; lia).
  assert (Hn2 : Np.shape0 (Np.head_rows n embeddings2) = n)
    by (apply shape0_head_rows; unfold n; lia).
  assert (Hlab : length (firstn n actual_issame) = n)
    by (apply firstn_length_le; unfold n; lia).
  assert (Hagree : firstn n actual_issame
                   = firstn n (firstn n actual_issame))
    by (symmetry; apply firstn_idem).
  split.
  - unfold calculate_roc.
    rewrite Hn1, Hn2, Hlab, Nat.min_id. fold n.
    rewrite Hshape, !Nat.eqb_refl. cbn [assert bind].
    change (Np.shape1 (Np.head_rows n embeddings1))
      with (Np.shape1 embeddings1).
    change (Np.shape1 (Np.head_rows n embeddings2))
      with (Np.shape1 embeddings2).
    destruct (assert (Np.shape1 embeddings1 =? Np.shape1 embeddings2));
      [cbn [bind] | reflexivity].
    destruct (LFold.split (LFold.init nrof_folds) (Np.arange n))
      as [folds|] eqn:Ef; [cbn [bind] | reflexivity].
    rewrite (roc_folds_loop_agree n thresholds embeddings1 embeddings2
               actual_issame (firstn n actual_issame) pca Hagree
               (if pca =? 0
                then Np.sqdist (Np.rows embeddings1) (Np.rows embeddings2)
                else [])
               (if pca =? 0
                then Np.sqdist (Np.rows (Np.head_rows n embeddings1))
                       (Np.rows (Np.head_rows n embeddings2))
                else []) folds).
    + reflexivity.
    + destruct (pca =? 0); [apply sqdist_head_agree | reflexivity].
    + eapply LFold_split_in_range. exact Ef.
  - unfold calculate_val.
    rewrite Hn1, Hn2, Hlab, Nat.min_id. fold n.
    rewrite Hshape, !Nat.eqb_refl. cbn [assert bind].
    change (Np.shape1 (Np.head_rows n embeddings1))
      with (Np.shape1 embeddings1).
    change (Np.shape1 (Np.head_rows n embeddings2))
      with (Np.shape1 embeddings2).
    destruct (assert (Np.shape1 embeddings1 =? Np.shape1 embeddings2));
      [cbn [bind] | reflexivity].
    destruct (LFold.split (LFold.init nrof_folds) (Np.arange n))
      as [folds|] eqn:Ef; [cbn [bind] | reflexivity].
    rewrite (val_folds_loop_agree n
               (Np.sqdist (Np.rows embeddings1) (Np.rows embeddings2))
               (Np.sqdist (Np.rows (Np.head_rows n embeddings1))
                          (Np.rows (Np.head_rows n embeddings2)))
               actual_issame (firstn n actual_issame)
               (sqdist_head_agree n _ _) Hagree thresholds far_target
               folds).
    + reflexivity.
    + eapply LFold_split_in_range. exact Ef.
Qed.

Lemma C9_length_mismatch_truncates_witness :
  calculate_roc (E := Example.external) Example.grid Example.left4
    Example.right4 [true; false; true; false; true; true] 2 0
  = calculate_roc (E := Example.external) Example.grid
      (Np.head_rows 4 Example.left4) (Np.head_rows 4 Example.right4)
      [true; false; true; false] 2 0
  /\
  calculate_val (E := Example.external) Example.grid Example.left4
    Example.right4 [true; false; true; false; true; true] (1 # 2) 2
  = calculate_val (E := Example.external) Example.grid
      (Np.head_rows 4 Example.left4) (Np.head_rows 4 Example.right4)
      [true; false; true; false] (1 # 2) 2.
Proof.
  exact (C9_length_mismatch_truncates (E := Example.external) Example.grid
           Example.left4 Example.right4
           [true; false; true; false; true; true] (1 # 2) 2 0 eq_refl).
Defined.

(** The first three embedding pairs with six labels: the evaluation of the
    first three pairs, here a value.  The training rates of false accepts
    on the grid are [0], [1/2] and [1], and the target [1/4] is met at the
    threshold [1/2]. *)
Lemma length_mismatch_example :
  calculate_val (E := Example.external) [0; 1; 10]
    (Np.head_rows 3 Example.left4) (Np.head_rows 3 Example.right4)
    [true; false; false; true; true; true] (1 # 4) 1
  = Ok (1, 0 # 1000000, 1 # 2).
Proof. vm_compute. reflexivity. Qed.

(** * The batching loop of [test] *)

Section HarnessProofs.

Variables Img Emb : Type.
Variable scale : Img -> Img.
Variable backbone : list Img -> result (list Emb).

(** One turn of the [while] loop, when the network answers. *)
Lemma batch_loop_turn fuel data batch_size ba embeddings calls out :
  (ba < Z.of_nat (length data))%Z ->
  let bb := Z.min (ba + batch_size) (Z.of_nat (length data)) in
  let img := map scale (Np.slice data (bb - batch_size) bb) in
  backbone img = Ok out ->
  batch_loop scale backbone (S fuel) data batch_size ba embeddings calls =
  match batch_step_assign (Some out) ba bb batch_size (bb - ba) with
  | Raise e => Some (Raise e, calls ++ [img])
  | Ok e =>
      batch_loop scale backbone fuel data batch_size bb (Some e)
        (calls ++ [img])
  end.
Proof.
  intros Hba bb img Hout. cbn [batch_loop].
  rewrite (proj2 (Z.ltb_lt _ _) Hba). fold bb. fold img.
  rewrite Hout. reflexivity.
Qed.

(** The assignment of line 255 when the batch output has [b] rows: the
    slice [embeddings[ba:bb]] of the batch output is empty as soon as
    [ba >= b], and [count] rows cannot be stored in it unless [count] is
    one. *)
Lemma batch_step_assign_past_the_end (out : list Emb) (b : nat)
  (ba bb batch_size count : Z) :
  length out = b ->
  (Z.of_nat b <= ba)%Z -> (ba <= bb)%Z ->
  (0 <= batch_size - count)%Z ->
  (Z.to_nat (batch_size - count) + 2 <= b)%nat ->
  batch_step_assign (Some out) ba bb batch_size count = Raise ValueError.
Proof.
  intros Hlen Hba Hbb Hc Hrows.
  unfold batch_step_assign. cbn [bind].
  unfold Np.setitem_slice, Np.slice_from, Np.clip. rewrite Hlen.
  assert (E1 : (ba <? 0)%Z = false) by (apply Z.ltb_ge; lia).
  assert (E2 : (bb <? 0)%Z = false) by (apply Z.ltb_ge; lia).
  assert (E3 : (batch_size - count <? 0)%Z = false) by (apply Z.ltb_ge; lia).
  rewrite E1, E2, E3.
  replace (Nat.min (Z.to_nat bb) b - Nat.min (Z.to_nat ba) b)%nat
    with 0%nat by lia.
  remember (skipn (Nat.min (Z.to_nat (batch_size - count)) b) out) as rhs
    eqn:Erhs.
  assert (Hrhs : (2 <= length rhs)%nat).
  { subst rhs. rewrite length_skipn. lia. }
  destruct rhs as [|r [|r' rhs]]; cbn [length] in Hrhs; try lia.
  reflexivity.
Qed.

(** The assignment of line 255 on the first full batch: the batch output is
    stored onto itself. *)
Lemma batch_step_assign_first (out : list Emb) (batch_size : Z) :
  Z.of_nat (length out) = batch_size ->
  batch_step_assign (Some out) 0 batch_size batch_size (batch_size - 0)
  = Ok out.
Proof.
  intro Hlen. unfold batch_step_assign. cbn [bind].
  unfold Np.setitem_slice, Np.slice_from, Np.clip.
  rewrite Z.sub_0_r, Z.sub_diag.
  assert (E : (batch_size <? 0)%Z = false) by (apply Z.ltb_ge; lia).
  rewrite E. cbn [Z.ltb Z.compare Z.to_nat Nat.min skipn firstn app].
  replace (Nat.min (Z.to_nat batch_size) (length out)) with (length out)
    by lia.
  rewrite Nat.sub_0_r, Nat.eqb_refl. cbn [Nat.add].
  rewrite skipn_all, app_nil_r. reflexivity.
Qed.

Lemma length_slice {A : Type} (a : list A) (start stop : Z) :
  (0 <= start)%Z -> (start <= stop)%Z -> (stop <= Z.of_nat (length a))%Z ->
  length (Np.slice a start stop) = Z.to_nat (stop - start).
Proof.
  intros H0 H1 H2. unfold Np.slice, Np.clip.
  assert (E1 : (start <? 0)%Z = false) by (apply Z.ltb_ge; lia).
  assert (E2 : (stop <? 0)%Z = false) by (apply Z.ltb_ge; lia).
  rewrite E1, E2, length_firstn, length_skipn. lia.
Qed.

Hypothesis backbone_rows :
  forall b, exists out, backbone b = Ok out /\ length out = length b.

(** With at least two more images than a batch holds, the second turn of
    the loop raises: the batch output, which line 249 stores in
    [embeddings], has [batch_size] rows, and line 255 then assigns [count]
    rows to the empty slice [embeddings[ba:bb]]. *)
Lemma embed_pass_second_turn_raises (data : list Img) (batch_size : Z)
  (calls : list (list Img)) :
  (2 <= batch_size)%Z ->
  (batch_size + 2 <= Z.of_nat (length data))%Z ->
  let bb := Z.min (batch_size + batch_size) (Z.of_nat (length data)) in
  embed_pass scale backbone data batch_size calls =
  Some (Raise ValueError,
        (calls ++ [map scale (Np.slice data 0 batch_size)])
          ++ [map scale (Np.slice data (bb - batch_size) bb)]).
Proof.
  intros Hbs Hn bb. unfold embed_pass.
  assert (Hfuel : exists fuel, length data = S (S fuel))
    by (exists (length data - 2)%nat; lia).
  destruct Hfuel as [fuel Hfuel]. rewrite Hfuel at 1. clear Hfuel.
  (* first turn *)
  destruct (backbone_rows (map scale (Np.slice data 0 batch_size)))
    as (out1 & Hout1 & Hrows1).
  rewrite length_map, length_slice in Hrows1 by lia.
  rewrite (batch_loop_turn (S fuel) data batch_size 0 None calls out1);
    [ | lia
      | replace (Z.min (0 + batch_size) (Z.of_nat (length data)))
          with batch_size by lia;
        rewrite Z.sub_diag; exact Hout1 ].
  replace (Z.min (0 + batch_size) (Z.of_nat (length data)))
    with batch_size by lia.
  rewrite Z.sub_diag, batch_step_assign_first by lia.
  (* second turn *)
  destruct (backbone_rows (map scale (Np.slice data (bb - batch_size) bb)))
    as (out2 & Hout2 & Hrows2).
  rewrite length_map, length_slice in Hrows2 by (unfold bb; lia).
  rewrite (batch_loop_turn fuel data batch_size batch_size (Some out1)
             (calls ++ [map scale (Np.slice data 0 batch_size)]) out2);
    [ | lia | exact Hout2 ].
  fold bb.
  rewrite (batch_step_assign_past_the_end out2 (Z.to_nat batch_size));
    [ reflexivity | lia | lia | unfold bb; lia | unfold bb; lia
    | unfold bb; lia ].
Qed.

End HarnessProofs.

(** * Claim on the batching loop *)

(** C1: on a dataset of 70 images with [batch_size = 32], and with a
    network that returns one embedding per image, the loop of [test] does
    not reach a third call: it hands the network the batches [data[0:32]]
    and [data[32:64]] and then raises [ValueError] at line 255, so that no
    embedding matrix of 70 rows is produced, for the first pass or for
    [test] as a whole. *)
Theorem C1_batching_70_by_32_raises (Img Emb : Type) (scale : Img -> Img)
  (backbone : list Img -> result (list Emb)) (data : list Img)
  (more : list (list Img)) :
  length data = 70%nat ->
  (forall b, exists out, backbone b = Ok out /\ length out = length b) ->
  embed_pass scale backbone data 32 [] =
    Some (Raise ValueError,
          [map scale (Np.slice data 0 32); map scale (Np.slice data 32 64)])
  /\
  embed_passes scale backbone (data :: more) 32 [] [] =
    Some (Raise ValueError,
          [map scale (Np.slice data 0 32); map scale (Np.slice data 32 64)]).
Proof.
  intros Hlen Hrows.
  assert (Hpass : embed_pass scale backbone data 32 [] =
    Some (Raise ValueError,
          [map scale (Np.slice data 0 32); map scale (Np.slice data 32 64)])).
  { rewrite (embed_pass_second_turn_raises Img Emb scale backbone Hrows
               data 32 []) by (rewrite ?Hlen; lia).
    rewrite Hlen. reflexivity. }
  split; [exact Hpass|].
  cbn [embed_passes]. rewrite Hpass. reflexivity.
Qed.

Lemma C1_batching_70_by_32_raises_witness :
  embed_pass (fun x : nat => x) Example.echo (seq 0 70) 32 [] =
    Some (Raise ValueError,
          [map (fun x => x) (Np.slice (seq 0 70) 0 32);
           map (fun x => x) (Np.slice (seq 0 70) 32 64)])
  /\
  embed_passes (fun x : nat => x) Example.echo [seq 0 70; rev (seq 0 70)]
    32 [] [] =
    Some (Raise ValueError,
          [map (fun x => x) (Np.slice (seq 0 70) 0 32);
           map (fun x => x) (Np.slice (seq 0 70) 32 64)]).
Proof.
  apply (C1_batching_70_by_32_raises nat nat (fun x => x) Example.echo
           (seq 0 70) [rev (seq 0 70)]).
  - reflexivity.
  - intro b. exists b. split; reflexivity.
Defined.

(** * Further properties of [calculate_accuracy] and [calculate_val_far] *)

Lemma sum_and_less_TP t dist labels :
  Np.sum_bool (Np.zip_with andb (Np.less dist t) labels)
  = Spec.TP t dist labels.
Proof.
  pose proof (sum_bool_zip_and (fun d => Np.Qlt_bool d t) (fun l => l)
                dist labels) as H.
  rewrite map_id in H. exact H.
Qed.

Lemma sum_and_less_FP t dist labels :
  Np.sum_bool (Np.zip_with andb (Np.less dist t) (Np.logical_not labels))
  = Spec.FP t dist labels.
Proof.
  exact (sum_bool_zip_and (fun d => Np.Qlt_bool d t) negb dist labels).
Qed.

(** The positives are the pairs labelled "same", whatever the threshold. *)
Lemma TP_FN_same t dist labels :
  length dist = length labels ->
  (Spec.TP t dist labels + Spec.FN t dist labels = Np.sum_bool labels)%nat.
Proof.
  unfold Spec.TP, Spec.FN, Spec.count_pairs. revert labels.
  induction dist as [|d dist IH]; intros [|l labels] Hlen;
    try discriminate; [reflexivity|].
  injection Hlen as Hlen. specialize (IH labels Hlen).
  cbn [combine filter fst snd Np.sum_bool].
  destruct (Np.Qlt_bool d t), l; cbn [andb negb length]; lia.
Qed.

(** The negatives are the pairs labelled "different". *)
Lemma FP_TN_different t dist labels :
  length dist = length labels ->
  (Spec.FP t dist labels + Spec.TN t dist labels
   = Np.sum_bool (Np.logical_not labels))%nat.
Proof.
  unfold Spec.FP, Spec.TN, Spec.count_pairs, Np.logical_not. revert labels.
  induction dist as [|d dist IH]; intros [|l labels] Hlen;
    try discriminate; [reflexivity|].
  injection Hlen as Hlen. specialize (IH labels Hlen).
  cbn [combine filter fst snd Np.sum_bool map].
  destruct (Np.Qlt_bool d t), l; cbn [andb negb length Np.sum_bool]; lia.
Qed.

Lemma count_pairs_le (p q : Q -> bool -> bool) dist labels :
  (forall d l, p d l = true -> q d l = true) ->
  (Spec.count_pairs p dist labels <= Spec.count_pairs q dist labels)%nat.
Proof.
  intro Hpq. unfold Spec.count_pairs.
  induction (combine dist labels) as [|[d l] ps IH]; [apply Nat.le_refl|].
  cbn [filter fst snd].
  destruct (p d l) eqn:Ep.
  - rewrite (Hpq d l Ep). cbn [length]. lia.
  - destruct (q d l); cbn [length]; lia.
Qed.

Lemma Qlt_bool_le_trans d t1 t2 :
  t1 <= t2 -> Np.Qlt_bool d t1 = true -> Np.Qlt_bool d t2 = true.
Proof.
  intros Hle H. apply Qlt_bool_iff. apply Qlt_bool_iff in H.
  eapply Qlt_le_trans; eassumption.
Qed.

Lemma TP_monotone t1 t2 dist labels :
  t1 <= t2 -> (Spec.TP t1 dist labels <= Spec.TP t2 dist labels)%nat.
Proof.
  intro Hle. apply count_pairs_le. intros d l H.
  apply andb_true_iff in H as [Hd Hl]. apply andb_true_iff. split; auto.
  eapply Qlt_bool_le_trans; eassumption.
Qed.

Lemma FP_monotone t1 t2 dist labels :
  t1 <= t2 -> (Spec.FP t1 dist labels <= Spec.FP t2 dist labels)%nat.
Proof.
  intro Hle. apply count_pairs_le. intros d l H.
  apply andb_true_iff in H as [Hd Hl]. apply andb_true_iff. split; auto.
  eapply Qlt_bool_le_trans; eassumption.
Qed.

Lemma sum_bool_pos_iff (a : list bool) :
  (0 < Np.sum_bool a)%nat <-> In true a.
Proof.
  induction a as [|[|] a IH]; cbn [Np.sum_bool In].
  - split; [lia | intros []].
  - split; [auto | lia].
  - rewrite IH. split; [auto | intros [H|H]; [discriminate | exact H]].
Qed.

Lemma in_logical_not (a : list bool) :
  In true (Np.logical_not a) <-> In false a.
Proof.
  unfold Np.logical_not. rewrite in_map_iff. split.
  - intros ([|] & Hb & Hin); [discriminate | exact Hin].
  - intro Hin. exists false. auto.
Qed.

(** What [calculate_val_far] computes on arrays of equal length. *)
Lemma calculate_val_far_equal_length t dist labels :
  length dist = length labels ->
  calculate_val_far t dist labels =
    if (Np.sum_bool labels =? 0) || (Np.sum_bool (Np.logical_not labels) =? 0)
    then Raise ZeroDivisionError
    else Ok (Np.float (Spec.TP t dist labels) / Np.float (Np.sum_bool labels),
             Np.float (Spec.FP t dist labels)
               / Np.float (Np.sum_bool (Np.logical_not labels))).
Proof.
  intro Hlen. unfold calculate_val_far, predict_issame, Np.logical_and.
  rewrite !broadcast2_same_length
    by (rewrite ?length_logical_not, ?length_less; assumption).
  cbn [bind]. rewrite sum_and_less_TP, sum_and_less_FP, !truediv_float.
  destruct (Np.sum_bool labels =? 0); [reflexivity|].
  destruct (Np.sum_bool (Np.logical_not labels) =? 0); reflexivity.
Qed.

(** X1: on arrays of equal length, [calculate_val_far] returns exactly when
    the labels hold both a "same" and a "different" pair; it then returns
    [VAL = TP / #same] and [FAR = FP / #different], both in [[0,1]]; with
    one of the two classes missing it raises [ZeroDivisionError]. *)
Theorem X1_calculate_val_far_needs_both_classes (t : Q) (dist : list Q)
  (labels : list bool) :
  length dist = length labels ->
  (In true labels /\ In false labels ->
   exists val far,
     calculate_val_far t dist labels = Ok (val, far) /\
     val = Np.float (Spec.TP t dist labels) / Np.float (Np.sum_bool labels) /\
     far = Np.float (Spec.FP t dist labels)
           / Np.float (Np.sum_bool (Np.logical_not labels)) /\
     (0 <= val /\ val <= 1) /\ (0 <= far /\ far <= 1)) /\
  (~ (In true labels /\ In false labels) ->
   calculate_val_far t dist labels = Raise ZeroDivisionError).
Proof.
  intro Hlen. rewrite (calculate_val_far_equal_length t dist labels Hlen).
  pose proof (TP_FN_same t dist labels Hlen) as Hsame.
  pose proof (FP_TN_different t dist labels Hlen) as Hdiff.
  split.
  - intros [Ht Hf].
    apply sum_bool_pos_iff in Ht.
    apply in_logical_not, sum_bool_pos_iff in Hf.
    destruct (Np.sum_bool labels =? 0) eqn:E1;
      [apply Nat.eqb_eq in E1; lia|].
    destruct (Np.sum_bool (Np.logical_not labels) =? 0) eqn:E2;
      [apply Nat.eqb_eq in E2; lia|].
    cbn [orb]. eexists. eexists. split; [reflexivity|].
    split; [reflexivity|]. split; [reflexivity|].
    split; apply ratio_bounds; lia.
  - intro Hnot.
    destruct (Np.sum_bool labels =? 0) eqn:E1; [reflexivity|].
    destruct (Np.sum_bool (Np.logical_not labels) =? 0) eqn:E2;
      [reflexivity|].
    exfalso. apply Hnot.
    apply Nat.eqb_neq in E1. apply Nat.eqb_neq in E2. split.
    + apply sum_bool_pos_iff. lia.
    + apply in_logical_not, sum_bool_pos_iff. lia.
Qed.

Lemma X1_calculate_val_far_needs_both_classes_witness :
  (exists val far,
     calculate_val_far (1 # 1) [1 # 2; 1 # 1; 3 # 2] [true; true; false]
     = Ok (val, far) /\
     val = Np.float (Spec.TP (1 # 1) [1 # 2; 1 # 1; 3 # 2]
                       [true; true; false])
           / Np.float (Np.sum_bool [true; true; false]) /\
     far = Np.float (Spec.FP (1 # 1) [1 # 2; 1 # 1; 3 # 2]
                       [true; true; false])
           / Np.float (Np.sum_bool (Np.logical_not [true; true; false])) /\
     (0 <= val /\ val <= 1) /\ (0 <= far /\ far <= 1)) /\
  calculate_val_far (1 # 1) [1 # 2; 3 # 2] [false; false]
  = Raise ZeroDivisionError.
Proof.
  split.
  - apply (X1_calculate_val_far_needs_both_classes (1 # 1)
             [1 # 2; 1 # 1; 3 # 2] [true; true; false] eq_refl).
    split; cbn; auto.
  - apply (X1_calculate_val_far_needs_both_classes (1 # 1)
             [1 # 2; 3 # 2] [false; false] eq_refl).
    intros [H _]. cbn in H. intuition discriminate.
Defined.

(** X2: when [calculate_val_far] returns on arrays of equal length, its
    [VAL] and [FAR] are the [tpr] and [fpr] that [calculate_accuracy]
    returns at the same threshold. *)
Theorem X2_val_far_are_tpr_fpr (t : Q) (dist : list Q) (labels : list bool)
  (val far : Q) :
  length dist = length labels ->
  calculate_val_far t dist labels = Ok (val, far) ->
  exists acc, calculate_accuracy t dist labels = Ok (val, far, acc).
Proof.
  intros Hlen H.
  rewrite (calculate_val_far_equal_length t dist labels Hlen) in H.
  rewrite (calculate_accuracy_equal_length t dist labels Hlen).
  pose proof (TP_FN_same t dist labels Hlen) as Hsame.
  pose proof (FP_TN_different t dist labels Hlen) as Hdiff.
  destruct (Np.sum_bool labels =? 0) eqn:E1; [discriminate|].
  destruct (Np.sum_bool (Np.logical_not labels) =? 0) eqn:E2;
    [discriminate|].
  cbn [orb] in H. injection H as <- <-.
  apply Nat.eqb_neq in E1. apply Nat.eqb_neq in E2.
  assert (Hn : length dist <> 0%nat).
  { pose proof (confusion_partition t dist labels Hlen). lia. }
  apply Nat.eqb_neq in Hn. rewrite Hn.
  unfold Spec.rate. rewrite Hsame, Hdiff.
  apply Nat.eqb_neq in E1. apply Nat.eqb_neq in E2. rewrite E1, E2.
  eexists. reflexivity.
Qed.

Lemma X2_val_far_are_tpr_fpr_witness :
  exists acc,
    calculate_accuracy (1 # 1) [1 # 2; 1 # 1; 3 # 2] [true; true; false]
    = Ok (1 # 2, 0 # 1, acc).
Proof.
  apply (X2_val_far_are_tpr_fpr (1 # 1) [1 # 2; 1 # 1; 3 # 2]
           [true; true; false] (1 # 2) (0 # 1) eq_refl).
  reflexivity.
Defined.

Lemma rate_monotone (m1 m2 n : nat) :
  (m1 <= m2)%nat -> Spec.rate m1 n <= Spec.rate m2 n.
Proof.
  intro H. unfold Spec.rate. destruct (n =? 0); [apply Qle_refl|].
  unfold Qdiv. apply Qmult_le_compat_r; [apply float_le; assumption|].
  apply Qinv_le_0_compat, float_nonneg.
Qed.

(** X3: for fixed distances and labels of the same length, the [tpr] and
    the [fpr] that [calculate_accuracy] returns are monotone non-decreasing
    in the threshold. *)
Theorem X3_tpr_fpr_monotone (t1 t2 : Q) (dist : list Q) (labels : list bool)
  (tpr1 fpr1 acc1 tpr2 fpr2 acc2 : Q) :
  t1 <= t2 -> length dist = length labels ->
  calculate_accuracy t1 dist labels = Ok (tpr1, fpr1, acc1) ->
  calculate_accuracy t2 dist labels = Ok (tpr2, fpr2, acc2) ->
  tpr1 <= tpr2 /\ fpr1 <= fpr2.
Proof.
  intros Hle Hlen H1 H2.
  rewrite (calculate_accuracy_equal_length t1 _ _ Hlen) in H1.
  rewrite (calculate_accuracy_equal_length t2 _ _ Hlen) in H2.
  destruct (length dist =? 0); [discriminate|].
  injection H1 as <- <- _. injection H2 as <- <- _.
  rewrite !(TP_FN_same _ _ _ Hlen), !(FP_TN_different _ _ _ Hlen).
  split; apply rate_monotone; [apply TP_monotone | apply FP_monotone];
    assumption.
Qed.

Lemma X3_tpr_fpr_monotone_witness :
  (1 # 2 <= 2 # 2) /\ (0 <= 1 # 1).
Proof.
  apply (X3_tpr_fpr_monotone (1 # 1) (2 # 1) [1 # 2; 1 # 1; 3 # 2]
           [true; true; false] (1 # 2) 0 (2 # 3) (2 # 2) (1 # 1) (2 # 3)).
  - discriminate.
  - reflexivity.
  - reflexivity.
  - reflexivity.
Defined.

Lemma count_pairs_zero_iff (p : Q -> bool -> bool) dist labels :
  Spec.count_pairs p dist labels = 0%nat <->
  Forall (fun dl => p (fst dl) (snd dl) = false) (combine dist labels).
Proof.
  unfold Spec.count_pairs.
  induction (combine dist labels) as [|[d l] ps IH]; cbn [filter fst snd].
  - split; [constructor | reflexivity].
  - destruct (p d l) eqn:Ep; cbn [length].
    + split; [discriminate|]. intro H. inversion H as [|? ? Hd _].
      cbn [fst snd] in Hd. congruence.
    + rewrite IH. split.
      * intro H. constructor; assumption.
      * intro H. inversion H. assumption.
Qed.

Lemma float_ratio_one_iff (a n : nat) :
  (0 < n)%nat -> (Np.float a / Np.float n == 1 <-> a = n).
Proof.
  intro Hn.
  assert (Hnz : ~ Np.float n == 0).
  { intro H. apply (Qlt_irrefl 0). rewrite <- H at 2. apply float_pos, Hn. }
  split.
  - intro H.
    assert (Heq : Np.float a == Np.float n).
    { rewrite <- (Qmult_div_r (Np.float a) (Np.float n) Hnz), H.
      apply Qmult_1_r. }
    pose proof (proj1 (inject_Z_injective (Z.of_nat a) (Z.of_nat n)) Heq).
    lia.
  - intros ->. unfold Qdiv. apply Qmult_inv_r. exact Hnz.
Qed.

(** X4: on at least one pair, [calculate_accuracy] returns accuracy 1
    exactly when the threshold separates the classes: every pair labelled
    "same" is strictly below it and every pair labelled "different" is
    not. *)
Theorem X4_accuracy_one_iff_separated (t : Q) (dist : list Q)
  (labels : list bool) (tpr fpr acc : Q) :
  length dist = length labels ->
  calculate_accuracy t dist labels = Ok (tpr, fpr, acc) ->
  (acc == 1 <->
   Forall (fun dl => snd dl = true <-> fst dl < t) (combine dist labels)).
Proof.
  intros Hlen H.
  rewrite (calculate_accuracy_equal_length _ _ _ Hlen) in H.
  destruct (length dist =? 0) eqn:En; [discriminate|].
  apply Nat.eqb_neq in En. injection H as _ _ <-.
  rewrite float_ratio_one_iff by lia.
  pose proof (confusion_partition t dist labels Hlen) as Hpart.
  assert (Hzero :
    (Spec.FP t dist labels = 0 /\ Spec.FN t dist labels = 0)%nat <->
    Forall (fun dl => snd dl = true <-> fst dl < t) (combine dist labels)).
  { unfold Spec.FP, Spec.FN.
    rewrite !count_pairs_zero_iff, !Forall_forall. split.
    - intros [Hfp Hfn] [d l] Hin.
      specialize (Hfp _ Hin). specialize (Hfn _ Hin). cbn [fst snd] in *.
      rewrite <- Qlt_bool_iff.
      destruct (Np.Qlt_bool d t), l; cbn [andb negb] in *;
        intuition congruence.
    - intro H. split; intros [d l] Hin; specialize (H _ Hin);
        cbn [fst snd] in *; rewrite <- Qlt_bool_iff in H;
        destruct (Np.Qlt_bool d t), l; cbn [andb negb];
        intuition congruence. }
  rewrite <- Hzero. lia.
Qed.

Lemma X4_accuracy_one_iff_separated_witness :
  Np.float 3 / Np.float 3 == 1 <->
  Forall (fun dl => snd dl = true <-> fst dl < (5 # 4))
         (combine [1 # 2; 1 # 1; 3 # 2] [true; true; false]).
Proof.
  assert (H : calculate_accuracy (5 # 4) [1 # 2; 1 # 1; 3 # 2]
                [true; true; false]
              = Ok (Spec.rate 2 2, Spec.rate 0 1, Np.float 3 / Np.float 3))
    by reflexivity.
  exact (X4_accuracy_one_iff_separated (5 # 4) [1 # 2; 1 # 1; 3 # 2]
           [true; true; false] _ _ _ eq_refl H).
Defined.

(** * The squared Euclidean distance (eval.py, lines 63-64 and 136-137) *)

Lemma Qsquare_nonneg (x : Q) : 0 <= x * x.
Proof.
  destruct (Qlt_le_dec x 0) as [Hneg|Hpos].
  - setoid_replace (x * x) with ((- x) * (- x)) by ring.
    apply Qmult_le_0_compat; apply (Qopp_le_compat x 0), Qlt_le_weak, Hneg.
  - apply Qmult_le_0_compat; assumption.
Qed.

Lemma sum_nonneg (a : list Q) : Forall (fun x => 0 <= x) a -> 0 <= Np.sum a.
Proof.
  induction 1 as [|x a Hx Ha IH]; cbn [Np.sum fold_right];
    [apply Qle_refl|].
  change 0 with (0 + 0). apply Qplus_le_compat; assumption.
Qed.

Lemma sqdist_row_nonneg (r1 r2 : list Q) : 0 <= Np.sqdist_row r1 r2.
Proof.
  unfold Np.sqdist_row. apply sum_nonneg. revert r2.
  induction r1 as [|a r1 IH]; intros [|b r2]; cbn [Np.zip_with];
    constructor; [apply Qsquare_nonneg | apply IH].
Qed.

Lemma sqdist_nonneg (x y : list (list Q)) :
  Forall (fun d => 0 <= d) (Np.sqdist x y).
Proof.
  unfold Np.sqdist. revert y.
  induction x as [|r1 x IH]; intros [|r2 y]; cbn [Np.zip_with];
    constructor; [apply sqdist_row_nonneg | apply IH].
Qed.

Lemma sqdist_row_sym (r1 r2 : list Q) :
  Np.sqdist_row r1 r2 == Np.sqdist_row r2 r1.
Proof.
  unfold Np.sqdist_row. revert r2.
  induction r1 as [|a r1 IH]; intros [|b r2];
    cbn [Np.zip_with Np.sum fold_right]; try reflexivity.
  fold (Np.sum (Np.zip_with (fun a b => (a - b) * (a - b)) r1 r2)).
  fold (Np.sum (Np.zip_with (fun a b => (a - b) * (a - b)) r2 r1)).
  rewrite (IH r2). ring.
Qed.

Lemma sqdist_row_diag (r : list Q) : Np.sqdist_row r r == 0.
Proof.
  unfold Np.sqdist_row.
  induction r as [|a r IH]; cbn [Np.zip_with Np.sum fold_right];
    [reflexivity|].
  fold (Np.sum (Np.zip_with (fun a b => (a - b) * (a - b)) r r)).
  rewrite IH. ring.
Qed.

(** X5: the distances [np.sum(np.square(np.subtract(x, y)), 1)] that
    [calculate_roc] and [calculate_val] work with are non-negative,
    do not depend on the order of the two embedding arrays, and are zero
    between an array and itself. *)
Theorem X5_sqdist_nonneg_symmetric (x y : list (list Q)) :
  Forall (fun d => 0 <= d) (Np.sqdist x y) /\
  Forall2 Qeq (Np.sqdist x y) (Np.sqdist y x) /\
  Forall (fun d => d == 0) (Np.sqdist x x).
Proof.
  split; [apply sqdist_nonneg|]. split.
  - unfold Np.sqdist. revert y.
    induction x as [|r1 x IH]; intros [|r2 y]; cbn [Np.zip_with];
      constructor; [apply sqdist_row_sym | apply IH].
  - unfold Np.sqdist.
    induction x as [|r x IH]; cbn [Np.zip_with]; constructor;
      [apply sqdist_row_diag | apply IH].
Qed.

(** * A threshold no distance is below *)

Lemma nothing_below_counts t dist labels :
  Forall (fun d => t <= d) dist ->
  Spec.TP t dist labels = 0%nat /\ Spec.FP t dist labels = 0%nat.
Proof.
  intro Hall. unfold Spec.TP, Spec.FP.
  rewrite !count_pairs_zero_iff, !Forall_forall.
  rewrite Forall_forall in Hall.
  split; intros [d l] Hin; cbn [fst snd];
    apply in_combine_l in Hin; specialize (Hall d Hin);
    (destruct (Np.Qlt_bool d t) eqn:E; [|reflexivity]);
    apply Qlt_bool_iff in E; exfalso; exact (Qlt_not_le _ _ E Hall).
Qed.

Lemma take_length {A : Type} (a : list A) (idx : list nat) (l : list A) :
  Np.take a idx = Ok l -> length l = length idx.
Proof.
  revert l. induction idx as [|i idx IH]; intros l H; cbn [Np.take] in H.
  - injection H as <-. reflexivity.
  - destruct (nth_error a i); [|discriminate].
    bind_ok H rest Er. injection H as <-. cbn [length].
    rewrite (IH rest eq_refl). reflexivity.
Qed.

Lemma take_Forall {A : Type} (P : A -> Prop) (a : list A) (idx : list nat)
  (l : list A) :
  Forall P a -> Np.take a idx = Ok l -> Forall P l.
Proof.
  intro Ha. revert l.
  induction idx as [|i idx IH]; intros l H; cbn [Np.take] in H.
  - injection H as <-. constructor.
  - destruct (nth_error a i) as [x|] eqn:Ex; [|discriminate].
    bind_ok H rest Er. injection H as <-. constructor.
    + rewrite Forall_forall in Ha. apply Ha.
      eapply nth_error_In. exact Ex.
    + apply IH. reflexivity.
Qed.

Lemma Qdiv_0_l (x : Q) : 0 / x == 0.
Proof. unfold Qdiv. apply Qmult_0_l. Qed.

Lemma sum_all_zero (a : list Q) : Forall (fun x => x == 0) a -> Np.sum a == 0.
Proof.
  induction 1 as [|x a Hx Ha IH]; cbn [Np.sum fold_right]; [reflexivity|].
  fold (Np.sum a). rewrite Hx, IH. reflexivity.
Qed.

Lemma mean_all_zero (a : list Q) :
  Forall (fun x => x == 0) a -> Np.mean a == 0.
Proof.
  intro H. unfold Np.mean. rewrite (sum_all_zero a H). apply Qdiv_0_l.
Qed.

(** The pairs a fold selects: [(VAL, FAR)] when it is defined lies in
    [[0,1]], and is [(0, 0)] at a threshold no selected distance is
    below. *)
Lemma val_far_at_bounds dist labels idx t v f :
  FoldSpec.val_far_at dist labels idx t = Ok (v, f) ->
  (0 <= v /\ v <= 1) /\ (0 <= f /\ f <= 1).
Proof.
  unfold FoldSpec.val_far_at. intro H.
  bind_ok H d Ed. bind_ok H l El.
  assert (Hlen : length d = length l).
  { rewrite (take_length _ _ _ Ed), (take_length _ _ _ El). reflexivity. }
  rewrite (calculate_val_far_equal_length t d l Hlen) in H.
  pose proof (TP_FN_same t d l Hlen).
  pose proof (FP_TN_different t d l Hlen).
  destruct (Np.sum_bool l =? 0) eqn:E1; [discriminate|].
  destruct (Np.sum_bool (Np.logical_not l) =? 0) eqn:E2; [discriminate|].
  cbn [orb] in H. injection H as <- <-.
  apply Nat.eqb_neq in E1. apply Nat.eqb_neq in E2.
  split; apply ratio_bounds; lia.
Qed.

Lemma val_far_at_nothing_below dist labels idx t v f :
  Forall (fun d => t <= d) dist ->
  FoldSpec.val_far_at dist labels idx t = Ok (v, f) ->
  v == 0 /\ f == 0.
Proof.
  unfold FoldSpec.val_far_at. intros Hall H.
  bind_ok H d Ed. bind_ok H l El.
  assert (Hlen : length d = length l).
  { rewrite (take_length _ _ _ Ed), (take_length _ _ _ El). reflexivity. }
  rewrite (calculate_val_far_equal_length t d l Hlen) in H.
  destruct (nothing_below_counts t d l (take_Forall _ _ _ _ Hall Ed))
    as [Htp Hfp].
  destruct ((Np.sum_bool l =? 0) || (Np.sum_bool (Np.logical_not l) =? 0));
    [discriminate|].
  injection H as <- <-. rewrite Htp, Hfp.
  split; apply Qdiv_0_l.
Qed.

(** * What a returned result of [calculate_val] and [calculate_roc] is
    made of *)

Lemma calculate_val_ok_inv {E : External} (thresholds : list Q)
  (embeddings1 embeddings2 : Np.ndarray2) (actual_issame : list bool)
  (far_target : Q) (nrof_folds : nat) (val_mean val_std far_mean : Q) :
  calculate_val thresholds embeddings1 embeddings2 actual_issame far_target
    nrof_folds = Ok (val_mean, val_std, far_mean) ->
  exists folds vfs,
    LFold.split (LFold.init nrof_folds)
      (Np.arange (Nat.min (length actual_issame) (Np.shape0 embeddings1)))
    = Ok folds /\
    length folds = nrof_folds /\ (0 < nrof_folds)%nat /\
    Forall2 (FoldSpec.val_fold_spec thresholds
               (Np.sqdist (Np.rows embeddings1) (Np.rows embeddings2))
               actual_issame far_target) folds vfs /\
    val_mean = Np.mean (map fst vfs) /\
    val_std = np_std (map fst vfs) /\
    far_mean = Np.mean (map snd vfs).
Proof.
  unfold calculate_val. intro H.
  bind_ok H u0 E0. bind_ok H u1 E1. bind_ok H folds Ef.
  bind_ok H st Eloop. destruct st as [val far].
  injection H as <- <- <-.
  apply (val_folds_loop_ok_iff _ _ _ _ nrof_folds) in Eloop
    as (Hbound & vfs & HF & Hst); [ | apply length_zeros | apply length_zeros ].
  pose proof (forall2_length _ _ _ HF) as Hvfs.
  assert (Hk : length folds = nrof_folds /\ (0 < nrof_folds)%nat).
  { destruct (LFold_split_ok _ _ _ Ef) as [(Hk1 & _ & Hk)|(Hk & ->)];
      [lia|].
    specialize (Hbound ltac:(discriminate)). cbn in Hbound |- *. lia. }
  destruct Hk as [Hk Hpos].
  injection Hst as -> ->.
  rewrite !splice_full by (rewrite length_map, length_zeros; congruence).
  exists folds, vfs. repeat split; assumption.
Qed.

Lemma calculate_roc_ok_inv {E : External} (thresholds : list Q)
  (embeddings1 embeddings2 : Np.ndarray2) (actual_issame : list bool)
  (nrof_folds pca : nat) (tpr fpr accuracy : list Q) :
  calculate_roc thresholds embeddings1 embeddings2 actual_issame nrof_folds
    pca = Ok (tpr, fpr, accuracy) ->
  exists folds rs,
    LFold.split (LFold.init nrof_folds)
      (Np.arange (Nat.min (length actual_issame) (Np.shape0 embeddings1)))
    = Ok folds /\
    length folds = nrof_folds /\ (0 < nrof_folds)%nat /\
    Forall2 (roc_fold_outcome thresholds embeddings1 embeddings2
               actual_issame pca
               (if pca =? 0
                then Np.sqdist (Np.rows embeddings1) (Np.rows embeddings2)
                else [])) folds rs /\
    tpr = FoldSpec.pointwise_mean (map FoldSpec.tpr_curve rs)
            (length thresholds) /\
    fpr = FoldSpec.pointwise_mean (map FoldSpec.fpr_curve rs)
            (length thresholds) /\
    accuracy = map FoldSpec.fold_accuracy rs.
Proof.
  unfold calculate_roc. intro H.
  pose proof (roc_state_ok_zeros thresholds nrof_folds) as Hzeros.
  bind_ok H u0 E0. bind_ok H u1 E1. bind_ok H folds Ef.
  bind_ok H st Eloop. destruct st as [[tprs fprs] acc].
  injection H as <- <- <-.
  apply (roc_folds_loop_ok_iff _ _ _ _ _ _ nrof_folds) in Eloop
    as (Hbound & rs & HF & Hst); [|assumption].
  pose proof (forall2_length _ _ _ HF) as Hrs.
  assert (Hk : length folds = nrof_folds /\ (0 < nrof_folds)%nat).
  { destruct (LFold_split_ok _ _ _ Ef) as [(Hk1 & _ & Hk)|(Hk & ->)];
      [lia|].
    specialize (Hbound ltac:(discriminate)). cbn in Hbound |- *. lia. }
  destruct Hk as [Hk Hpos].
  injection Hst as -> -> ->.
  rewrite !splice_full
    by (rewrite length_map; unfold Np.zeros2;
        rewrite ?repeat_length, ?length_zeros; congruence).
  rewrite !mean_axis0_pointwise.
  exists folds, rs. repeat split; assumption.
Qed.

(** X6: a FAR target above 1 cannot be reached on any fold; whenever
    [calculate_val] returns for such a target, every fold has fallen back
    to the threshold [0.0], below which no squared distance lies, and the
    mean VAL and the mean FAR returned are both zero. *)
Theorem X6_unreachable_far_target {E : External} (thresholds : list Q)
  (embeddings1 embeddings2 : Np.ndarray2) (actual_issame : list bool)
  (far_target : Q) (nrof_folds : nat) (val_mean val_std far_mean : Q) :
  1 < far_target ->
  calculate_val thresholds embeddings1 embeddings2 actual_issame far_target
    nrof_folds = Ok (val_mean, val_std, far_mean) ->
  val_mean == 0 /\ far_mean == 0.
Proof.
  intros Htarget H.
  apply calculate_val_ok_inv in H
    as (folds & vfs & _ & _ & _ & HF & -> & _ & ->).
  assert (Hzero : Forall (fun vf => fst vf == 0 /\ snd vf == 0) vfs).
  { induction HF as [|fold vf folds vfs Hvf HF IH]; constructor;
      [|exact IH].
    destruct Hvf as (far_train & m & threshold & Htrain & Hmax & _ & Hlow
                     & Htest).
    assert (Hm : m <= 1).
    { destruct Hmax as [_ (x & Hx & Hxm)]. rewrite <- Hxm.
      clear - Htrain Hx. induction Htrain as [|t f ths fars Hf _ IH];
        [destruct Hx|].
      destruct Hx as [<-|Hx]; [|auto].
      destruct Hf as (v & Hv). apply val_far_at_bounds in Hv. tauto. }
    assert (Hthr : threshold = 0).
    { apply Hlow. intro Hle. apply (Qlt_irrefl 1).
      eapply Qlt_le_trans; [exact Htarget|].
      eapply Qle_trans; eassumption. }
    subst threshold. destruct vf as [v f].
    eapply val_far_at_nothing_below; [|exact Htest].
    apply sqdist_nonneg. }
  split; apply mean_all_zero; apply Forall_map;
    (eapply Forall_impl; [|exact Hzero]); cbn; tauto.
Qed.

Lemma X6_unreachable_far_target_witness :
  0 # 2 == 0 /\ 0 # 2 == 0.
Proof.
  apply (X6_unreachable_far_target (E := Example.external) Example.grid
           Example.left4 Example.right4 [true; false; true; false] (2 # 1)
           2 (0 # 2) (0 # 32000000) (0 # 2)).
  - reflexivity.
  - reflexivity.
Defined.

(** * Bounds on what [calculate_roc] returns *)

Lemma accuracy_at_bounds dist labels idx t tpr fpr acc :
  FoldSpec.accuracy_at dist labels idx t = Ok (tpr, fpr, acc) ->
  (0 <= tpr /\ tpr <= 1) /\ (0 <= fpr /\ fpr <= 1) /\ (0 <= acc /\ acc <= 1).
Proof.
  unfold FoldSpec.accuracy_at. intro H.
  bind_ok H d Ed. bind_ok H l El.
  assert (Hlen : length d = length l).
  { rewrite (take_length _ _ _ Ed), (take_length _ _ _ El). reflexivity. }
  rewrite (calculate_accuracy_equal_length t d l Hlen) in H.
  destruct (length d =? 0) eqn:En; [discriminate|].
  apply Nat.eqb_neq in En.
  pose proof (confusion_partition t d l Hlen) as Hpart.
  injection H as <- <- <-.
  repeat split; try (apply rate_bounds; lia); apply ratio_bounds; lia.
Qed.

Lemma float_S (n : nat) : Np.float (S n) == 1 + Np.float n.
Proof.
  unfold Np.float. rewrite Nat2Z.inj_succ, <- Z.add_1_l, inject_Z_plus.
  reflexivity.
Qed.

Lemma sum_unit_bounds (a : list Q) :
  Forall (fun x => 0 <= x /\ x <= 1) a ->
  0 <= Np.sum a /\ Np.sum a <= Np.float (length a).
Proof.
  induction 1 as [|x a [Hx0 Hx1] Ha [IH0 IH1]];
    cbn [Np.sum fold_right length].
  - split; apply Qle_refl.
  - fold (Np.sum a). split.
    + change 0 with (0 + 0). apply Qplus_le_compat; assumption.
    + rewrite float_S. apply Qplus_le_compat; assumption.
Qed.

(** The mean of numbers of [[0,1]] is in [[0,1]]. *)
Lemma mean_unit_bounds (a : list Q) :
  a <> [] -> Forall (fun x => 0 <= x /\ x <= 1) a ->
  0 <= Np.sum a / Np.float (length a) /\
  Np.sum a / Np.float (length a) <= 1.
Proof.
  intros Hne Ha. destruct (sum_unit_bounds a Ha) as [H0 H1].
  assert (Hpos : 0 < Np.float (length a)).
  { apply float_pos. destruct a; [congruence | cbn; lia]. }
  split.
  - apply Qle_shift_div_l; [assumption|]. rewrite Qmult_0_l. assumption.
  - apply Qle_shift_div_r; [assumption|]. rewrite Qmult_1_l. assumption.
Qed.

Lemma pointwise_mean_unit_bounds (curves : list (list Q)) (len : nat) :
  curves <> [] ->
  Forall (Forall (fun x => 0 <= x /\ x <= 1)) curves ->
  Forall (fun x => 0 <= x /\ x <= 1) (FoldSpec.pointwise_mean curves len).
Proof.
  intros Hne Hall. unfold FoldSpec.pointwise_mean.
  apply Forall_map, Forall_forall. intros j _.
  rewrite <- (length_map (fun c => nth j c 0) curves).
  apply mean_unit_bounds.
  - destruct curves; [congruence | discriminate].
  - apply Forall_map. eapply Forall_impl; [|exact Hall].
    intros c Hc. destruct (Nat.lt_ge_cases j (length c)) as [Hlt|Hge].
    + rewrite Forall_forall in Hc. apply Hc, nth_In, Hlt.
    + rewrite nth_overflow by assumption. split; [apply Qle_refl|].
      discriminate.
Qed.

Lemma roc_fold_outcome_bounds {E : External} thresholds e1 e2 labels pca
  dist0 fold r :
  roc_fold_outcome thresholds e1 e2 labels pca dist0 fold r ->
  Forall (fun x => 0 <= x /\ x <= 1) (FoldSpec.tpr_curve r) /\
  Forall (fun x => 0 <= x /\ x <= 1) (FoldSpec.fpr_curve r) /\
  (0 <= FoldSpec.fold_accuracy r /\ FoldSpec.fold_accuracy r <= 1).
Proof.
  intros (dist & _ & acc_train & best & threshold & _ & _ & Hpts & _
          & tpr & fpr & Hacc).
  apply accuracy_at_bounds in Hacc. split; [|split; [|tauto]].
  - unfold FoldSpec.tpr_curve. apply Forall_map.
    clear - Hpts. induction Hpts as [|t p ths pts (a & Hp) _ IH];
      constructor; [|exact IH].
    apply accuracy_at_bounds in Hp. tauto.
  - unfold FoldSpec.fpr_curve. apply Forall_map.
    clear - Hpts. induction Hpts as [|t p ths pts (a & Hp) _ IH];
      constructor; [|exact IH].
    apply accuracy_at_bounds in Hp. tauto.
Qed.

Lemma calculate_roc_unit_interval {E : External} (thresholds : list Q)
  (embeddings1 embeddings2 : Np.ndarray2) (actual_issame : list bool)
  (nrof_folds pca : nat) (tpr fpr accuracy : list Q) :
  calculate_roc thresholds embeddings1 embeddings2 actual_issame nrof_folds
    pca = Ok (tpr, fpr, accuracy) ->
  length accuracy = nrof_folds /\
  Forall (fun x => 0 <= x /\ x <= 1) accuracy /\
  Forall (fun x => 0 <= x /\ x <= 1) tpr /\
  Forall (fun x => 0 <= x /\ x <= 1) fpr.
Proof.
  intro H. apply calculate_roc_ok_inv in H
    as (folds & rs & _ & Hk & Hpos & HF & -> & -> & ->).
  pose proof (forall2_length _ _ _ HF) as Hrs.
  assert (Hall : Forall (fun r =>
            Forall (fun x => 0 <= x /\ x <= 1) (FoldSpec.tpr_curve r) /\
            Forall (fun x => 0 <= x /\ x <= 1) (FoldSpec.fpr_curve r) /\
            (0 <= FoldSpec.fold_accuracy r /\ FoldSpec.fold_accuracy r <= 1))
            rs).
  { clear - HF. induction HF as [|fold r folds rs Hr _ IH]; constructor;
      [|exact IH].
    eapply roc_fold_outcome_bounds. exact Hr. }
  assert (Hne : rs <> []) by (destruct rs; [cbn in Hrs; lia | discriminate]).
  split; [rewrite length_map; lia|].
  split; [|split].
  - apply Forall_map. eapply Forall_impl; [|exact Hall]. cbn. tauto.
  - apply pointwise_mean_unit_bounds.
    + destruct rs; [congruence | discriminate].
    + apply Forall_map. eapply Forall_impl; [|exact Hall]. cbn. tauto.
  - apply pointwise_mean_unit_bounds.
    + destruct rs; [congruence | discriminate].
    + apply Forall_map. eapply Forall_impl; [|exact Hall]. cbn. tauto.
Qed.


(** X7: whenever [calculate_roc] returns, it returns one accuracy per
    fold, and every accuracy and every point of the mean TPR and FPR
    curves lies in [[0,1]]. *)
Theorem X7_calculate_roc_unit_interval {E : External} (thresholds : list Q)
  (embeddings1 embeddings2 : Np.ndarray2) (actual_issame : list bool)
  (nrof_folds pca : nat) (tpr fpr accuracy : list Q) :
  calculate_roc thresholds embeddings1 embeddings2 actual_issame nrof_folds
    pca = Ok (tpr, fpr, accuracy) ->
  length accuracy = nrof_folds /\
  Forall (fun x => 0 <= x /\ x <= 1) accuracy /\
  Forall (fun x => 0 <= x /\ x <= 1) tpr /\
  Forall (fun x => 0 <= x /\ x <= 1) fpr.
Proof.
  intro H.
  exact (calculate_roc_unit_interval thresholds embeddings1 embeddings2
           actual_issame nrof_folds pca tpr fpr accuracy H).
Qed.

Lemma X7_calculate_roc_unit_interval_witness :
  length [0 # 2; 2 # 2] = 2%nat /\
  Forall (fun x => 0 <= x /\ x <= 1) [0 # 2; 2 # 2] /\
  Forall (fun x => 0 <= x /\ x <= 1) [0 # 4; 2 # 4; 2 # 4; 2 # 4; 2 # 4] /\
  Forall (fun x => 0 <= x /\ x <= 1) [0 # 4; 0 # 4; 0 # 4; 0 # 4; 0 # 4].
Proof.
  apply (X7_calculate_roc_unit_interval (E := Example.external)
           Example.grid Example.left4 Example.right4 Example.labels4 2 0).
  reflexivity.
Defined.

(** X8: with an empty threshold grid, or with [nrof_folds = 0],
    [calculate_roc] and [calculate_val] never return a result: they
    raise. *)
Theorem X8_empty_grid_or_no_fold_raises {E : External} (thresholds : list Q)
  (embeddings1 embeddings2 : Np.ndarray2) (actual_issame : list bool)
  (far_target : Q) (nrof_folds pca : nat) :
  thresholds = [] \/ nrof_folds = 0%nat ->
  (exists e,
     calculate_roc thresholds embeddings1 embeddings2 actual_issame
       nrof_folds pca = Raise e) /\
  (exists e,
     calculate_val thresholds embeddings1 embeddings2 actual_issame
       far_target nrof_folds = Raise e).
Proof.
  intro Hcase. split.
  - destruct (calculate_roc thresholds embeddings1 embeddings2 actual_issame
                nrof_folds pca) as [[[tpr fpr] acc]|e] eqn:H; [|eauto].
    exfalso. apply calculate_roc_ok_inv in H
      as (folds & rs & _ & Hk & Hpos & HF & _).
    destruct Hcase as [-> | ->]; [|lia].
    destruct HF as [|fold r folds rs Hr _]; [cbn in Hk; lia|].
    destruct Hr as (dist & _ & acc_train & best & threshold & Htrain
                    & (x & Hx & _) & _).
    inversion Htrain; subst. destruct best; discriminate.
  - destruct (calculate_val thresholds embeddings1 embeddings2 actual_issame
                far_target nrof_folds) as [[[vm vs] fm]|e] eqn:H; [|eauto].
    exfalso. apply calculate_val_ok_inv in H
      as (folds & vfs & _ & Hk & Hpos & HF & _).
    destruct Hcase as [-> | ->]; [|lia].
    destruct HF as [|fold vf folds vfs Hvf _]; [cbn in Hk; lia|].
    destruct Hvf as (far_train & m & threshold & Htrain
                     & (_ & x & Hx & _) & _).
    inversion Htrain; subst. destruct Hx.
Qed.

Lemma X8_empty_grid_or_no_fold_raises_witness :
  (exists e,
     calculate_roc (E := Example.external) [] Example.left4 Example.right4
       Example.labels4 2 0 = Raise e) /\
  (exists e,
     calculate_val (E := Example.external) [] Example.left4 Example.right4
       Example.labels4 (1 # 1000) 2 = Raise e).
Proof.
  apply (X8_empty_grid_or_no_fold_raises (E := Example.external) []
           Example.left4 Example.right4 Example.labels4 (1 # 1000) 2 0).
  left. reflexivity.
Defined.

(** * One fold: the threshold is chosen and evaluated on the same pairs *)

Lemma forall2_nth_error_l {A B : Type} (R : A -> B -> Prop) xs ys i x :
  Forall2 R xs ys -> nth_error xs i = Some x ->
  exists y, nth_error ys i = Some y /\ R x y.
Proof.
  intro HF. revert i. induction HF as [|x0 y0 xs ys Hxy _ IH];
    intros [|i] Hi; cbn in Hi |- *; try discriminate.
  - injection Hi as <-. eauto.
  - apply IH. exact Hi.
Qed.

Lemma forall2_nth_error_r {A B : Type} (R : A -> B -> Prop) xs ys i y :
  Forall2 R xs ys -> nth_error ys i = Some y ->
  exists x, nth_error xs i = Some x /\ R x y.
Proof.
  intro HF. revert i. induction HF as [|x0 y0 xs ys Hxy _ IH];
    intros [|i] Hi; cbn in Hi |- *; try discriminate.
  - injection Hi as <-. eauto.
  - apply IH. exact Hi.
Qed.

(** X9: with a single fold ([nrof_folds = 1]) the training and the test
    pairs are the same, all of them, and the one accuracy [calculate_roc]
    returns is the best accuracy of the grid on these pairs: it is reached
    at a grid threshold and no grid threshold does better. *)
Theorem X9_single_fold_best_accuracy {E : External} (thresholds : list Q)
  (embeddings1 embeddings2 : Np.ndarray2) (actual_issame : list bool)
  (pca : nat) (tpr fpr accuracy : list Q) :
  let all := Np.arange (Nat.min (length actual_issame)
                          (Np.shape0 embeddings1)) in
  calculate_roc thresholds embeddings1 embeddings2 actual_issame 1 pca
  = Ok (tpr, fpr, accuracy) ->
  exists dist best,
    roc_fold_dist pca embeddings1 embeddings2 all
      (if pca =? 0
       then Np.sqdist (Np.rows embeddings1) (Np.rows embeddings2)
       else []) = Ok dist /\
    accuracy = [best] /\
    (exists t tpr' fpr',
       In t thresholds /\
       FoldSpec.accuracy_at dist actual_issame all t
       = Ok (tpr', fpr', best)) /\
    (forall t, In t thresholds ->
       exists tpr' fpr' acc',
         FoldSpec.accuracy_at dist actual_issame all t
         = Ok (tpr', fpr', acc') /\ acc' <= best).
Proof.
  intros all H. apply calculate_roc_ok_inv in H
    as (folds & rs & Hsplit & Hk & _ & HF & _ & _ & ->).
  fold all in Hsplit.
  destruct (LFold_split_ok _ _ _ Hsplit) as [(Hk1 & _)|(_ & ->)]; [lia|].
  inversion HF as [|fold r folds' rs' Hr HF' Efolds Ers]. subst.
  inversion HF'. subst. clear HF HF'.
  destruct Hr as (dist & Hdist & acc_train & best & threshold & Htrain
                  & (x & Hx & Hmax & _) & _ & Hth & tpr' & fpr' & Hacc).
  cbn [fst snd] in *.
  exists dist, (FoldSpec.fold_accuracy r).
  split; [exact Hdist|]. split; [reflexivity|].
  destruct (forall2_nth_error_l _ _ _ _ _ Htrain Hth)
    as (y & Hy & tpr1 & fpr1 & Hy1).
  assert (Hxy : x = FoldSpec.fold_accuracy r) by congruence.
  split.
  - exists threshold, tpr', fpr'. split; [|exact Hacc].
    eapply nth_error_In. exact Hth.
  - intros t Ht. apply In_nth_error in Ht as [j Hj].
    destruct (forall2_nth_error_l _ _ _ _ _ Htrain Hj)
      as (a & Ha & tpr2 & fpr2 & Ha2).
    exists tpr2, fpr2, a. split; [exact Ha2|].
    rewrite <- Hxy. eapply Hmax. exact Ha.
Qed.

Lemma X9_single_fold_best_accuracy_witness :
  exists dist best,
    roc_fold_dist (E := Example.external) 0 Example.left4 Example.right4
      (Np.arange 4)
      (Np.sqdist (Np.rows Example.left4) (Np.rows Example.right4))
    = Ok dist /\
    [4 # 4] = [best] /\
    (exists t tpr' fpr',
       In t Example.grid /\
       FoldSpec.accuracy_at dist Example.labels4 (Np.arange 4) t
       = Ok (tpr', fpr', best)) /\
    (forall t, In t Example.grid ->
       exists tpr' fpr' acc',
         FoldSpec.accuracy_at dist Example.labels4 (Np.arange 4) t
         = Ok (tpr', fpr', acc') /\ acc' <= best).
Proof.
  apply (X9_single_fold_best_accuracy (E := Example.external) Example.grid
           Example.left4 Example.right4 Example.labels4 0
           [0 # 2; 2 # 2; 2 # 2; 2 # 2; 2 # 2]
           [0 # 2; 0 # 2; 0 # 2; 0 # 2; 0 # 2] [4 # 4]).
  reflexivity.
Defined.

(** * The batching loop of [test], for every dataset size *)

Section HarnessSizes.

Variables Img Emb : Type.
Variable scale : Img -> Img.
Variable backbone : list Img -> result (list Emb).

Hypothesis backbone_rows :
  forall b, exists out, backbone b = Ok out /\ length out = length b.

Lemma length_slice_any {A : Type} (a : list A) (start stop : Z) :
  length (Np.slice a start stop)
  = (Np.clip (length a) stop - Np.clip (length a) start)%nat.
Proof.
  unfold Np.slice. rewrite length_firstn, length_skipn.
  assert (H : (Np.clip (length a) stop <= length a)%nat).
  { unfold Np.clip. destruct (stop <? 0)%Z eqn:E;
      [apply Z.ltb_lt in E|]; lia. }
  lia.
Qed.

Lemma slice_all {A : Type} (a : list A) :
  Np.slice a 0 (Z.of_nat (length a)) = a.
Proof.
  unfold Np.slice, Np.clip.
  assert (E : (Z.of_nat (length a) <? 0)%Z = false) by (apply Z.ltb_ge; lia).
  rewrite E. cbn [Z.ltb Z.compare Z.to_nat Nat.min skipn].
  rewrite Nat2Z.id, Nat.min_id, Nat.sub_0_r. apply firstn_all.
Qed.

Lemma batch_loop_done fuel (data : list Img) batch_size ba embeddings calls :
  (Z.of_nat (length data) <= ba)%Z ->
  batch_loop scale backbone fuel data batch_size ba embeddings calls
  = Some (Ok embeddings, calls).
Proof.
  intro H. destruct fuel; cbn [batch_loop];
    rewrite (proj2 (Z.ltb_ge _ _) H); reflexivity.
Qed.

(** Line 255 when the batch output is too short to reach row
    [batch_size - count]: nothing is left on the right-hand side. *)
Lemma batch_step_assign_short (out : list Emb) (bb batch_size count : Z) :
  (1 <= length out)%nat ->
  (Z.of_nat (length out) <= batch_size - count)%Z ->
  (Z.of_nat (length out) <= bb)%Z ->
  batch_step_assign (Some out) 0 bb batch_size count = Raise ValueError.
Proof.
  intros Hr Hc Hbb. unfold batch_step_assign. cbn [bind].
  unfold Np.setitem_slice, Np.slice_from, Np.clip.
  assert (E1 : (bb <? 0)%Z = false) by (apply Z.ltb_ge; lia).
  assert (E2 : (batch_size - count <? 0)%Z = false) by (apply Z.ltb_ge; lia).
  rewrite E1, E2. cbn [Z.ltb Z.compare Z.to_nat Nat.min].
  replace (Nat.min (Z.to_nat (batch_size - count)) (length out))
    with (length out) by lia.
  replace (Nat.min (Z.to_nat bb) (length out)) with (length out) by lia.
  rewrite skipn_all, Nat.sub_0_r. cbn [length].
  destruct (length out) as [|r] eqn:El; [lia|]. reflexivity.
Qed.

(** Line 255 on a turn with [count = 1] past the end of the batch output:
    the single row is broadcast into an empty slice, and [embeddings]
    stays the batch output. *)
Lemma batch_step_assign_one_row (out : list Emb) (ba bb batch_size : Z) :
  (0 < batch_size)%Z ->
  Z.of_nat (length out) = batch_size ->
  (batch_size <= ba)%Z -> (ba <= bb)%Z ->
  batch_step_assign (Some out) ba bb batch_size 1 = Ok out.
Proof.
  intros Hbs Hlen Hba Hbb. unfold batch_step_assign. cbn [bind].
  unfold Np.setitem_slice, Np.slice_from, Np.clip.
  assert (E1 : (ba <? 0)%Z = false) by (apply Z.ltb_ge; lia).
  assert (E2 : (bb <? 0)%Z = false) by (apply Z.ltb_ge; lia).
  assert (E3 : (batch_size - 1 <? 0)%Z = false) by (apply Z.ltb_ge; lia).
  rewrite E1, E2, E3.
  replace (Nat.min (Z.to_nat ba) (length out)) with (length out) by lia.
  replace (Nat.min (Z.to_nat bb) (length out)) with (length out) by lia.
  replace (Nat.min (Z.to_nat (batch_size - 1)) (length out))
    with (length out - 1)%nat by lia.
  rewrite Nat.sub_diag, Nat.add_0_r, firstn_all, skipn_all.
  remember (skipn (length out - 1) out) as rhs eqn:Erhs.
  assert (Hrhs : length rhs = 1%nat).
  { subst rhs. rewrite length_skipn. lia. }
  destruct rhs as [|r [|r' rhs]]; cbn [length] in Hrhs; try lia.
  cbn [length Nat.eqb repeat app]. rewrite app_nil_r. reflexivity.
Qed.

Lemma embed_pass_full_batch (data : list Img) (batch_size : Z) calls :
  (1 <= batch_size)%Z -> Z.of_nat (length data) = batch_size ->
  exists out,
    backbone (map scale data) = Ok out /\ length out = length data /\
    embed_pass scale backbone data batch_size calls
    = Some (Ok (Some out), calls ++ [map scale data]).
Proof.
  intros Hbs Hn. subst batch_size.
  destruct (backbone_rows (map scale data)) as (out & Hout & Hrows).
  rewrite length_map in Hrows.
  exists out. split; [exact Hout|]. split; [exact Hrows|].
  unfold embed_pass.
  assert (Hfuel : exists fuel, length data = S fuel)
    by (exists (length data - 1)%nat; lia).
  destruct Hfuel as [fuel Hfuel]. rewrite Hfuel at 1. clear Hfuel.
  assert (Hbb : Z.min (0 + Z.of_nat (length data)) (Z.of_nat (length data))
                = Z.of_nat (length data)) by lia.
  rewrite (batch_loop_turn Img Emb scale backbone fuel data
             (Z.of_nat (length data)) 0 None calls out);
    [ | lia | rewrite Hbb, Z.sub_diag, slice_all; exact Hout ].
  rewrite Hbb, Z.sub_diag, slice_all, batch_step_assign_first by lia.
  apply batch_loop_done. lia.
Qed.

Lemma embed_pass_one_more (data : list Img) (batch_size : Z) calls :
  (1 <= batch_size)%Z -> Z.of_nat (length data) = (batch_size + 1)%Z ->
  exists out1 out2,
    backbone (map scale (Np.slice data 0 batch_size)) = Ok out1 /\
    backbone (map scale (Np.slice data 1 (batch_size + 1))) = Ok out2 /\
    Z.of_nat (length out2) = batch_size /\
    embed_pass scale backbone data batch_size calls
    = Some (Ok (Some out2),
            (calls ++ [map scale (Np.slice data 0 batch_size)])
              ++ [map scale (Np.slice data 1 (batch_size + 1))]).
Proof.
  intros Hbs Hn.
  destruct (backbone_rows (map scale (Np.slice data 0 batch_size)))
    as (out1 & Hout1 & Hrows1).
  rewrite length_map, length_slice in Hrows1 by lia.
  destruct (backbone_rows (map scale (Np.slice data 1 (batch_size + 1))))
    as (out2 & Hout2 & Hrows2).
  rewrite length_map, length_slice in Hrows2 by lia.
  exists out1, out2. split; [exact Hout1|]. split; [exact Hout2|].
  split; [lia|].
  unfold embed_pass.
  assert (Hfuel : exists fuel, length data = S (S fuel))
    by (exists (length data - 2)%nat; lia).
  destruct Hfuel as [fuel Hfuel]. rewrite Hfuel at 1. clear Hfuel.
  assert (Hbb1 : Z.min (0 + batch_size) (Z.of_nat (length data)) = batch_size)
    by lia.
  assert (Hbb2 : Z.min (batch_size + batch_size) (Z.of_nat (length data))
                 = (batch_size + 1)%Z) by lia.
  rewrite (batch_loop_turn Img Emb scale backbone (S fuel) data batch_size 0
             None calls out1);
    [ | lia | rewrite Hbb1, Z.sub_diag; exact Hout1 ].
  rewrite Hbb1, Z.sub_diag, batch_step_assign_first by lia.
  rewrite (batch_loop_turn Img Emb scale backbone fuel data batch_size
             batch_size (Some out1)
             (calls ++ [map scale (Np.slice data 0 batch_size)]) out2);
    [ | lia
      | rewrite Hbb2;
        replace (batch_size + 1 - batch_size)%Z with 1%Z by lia;
        exact Hout2 ].
  rewrite Hbb2.
  replace (batch_size + 1 - batch_size)%Z with 1%Z by lia.
  rewrite batch_step_assign_one_row by lia.
  apply batch_loop_done. lia.
Qed.

Lemma embed_pass_short_dataset (data : list Img) (batch_size : Z) calls :
  (0 < length data)%nat -> (Z.of_nat (length data) < batch_size)%Z ->
  let n := Z.of_nat (length data) in
  embed_pass scale backbone data batch_size calls
  = Some (Raise ValueError,
          calls ++ [map scale (Np.slice data (n - batch_size) n)]).
Proof.
  intros Hpos Hlt n. unfold embed_pass.
  assert (Hfuel : exists fuel, length data = S fuel)
    by (exists (length data - 1)%nat; lia).
  destruct Hfuel as [fuel Hfuel]. rewrite Hfuel at 1. clear Hfuel.
  destruct (backbone_rows (map scale (Np.slice data (n - batch_size) n)))
    as (out & Hout & Hrows).
  rewrite length_map, length_slice_any in Hrows.
  assert (Hbb : Z.min (0 + batch_size) (Z.of_nat (length data)) = n)
    by (unfold n; lia).
  rewrite (batch_loop_turn Img Emb scale backbone fuel data batch_size 0
             None calls out); [ | lia | rewrite Hbb; exact Hout ].
  rewrite Hbb.
  assert (Hclip1 : Np.clip (length data) n = length data).
  { unfold Np.clip, n.
    assert (E : (Z.of_nat (length data) <? 0)%Z = false)
      by (apply Z.ltb_ge; lia).
    rewrite E. lia. }
  assert (Hclip2 : Np.clip (length data) (n - batch_size)
                   = Z.to_nat (Z.max 0 (n - batch_size + n))).
  { unfold Np.clip.
    assert (E : (n - batch_size <? 0)%Z = true)
      by (apply Z.ltb_lt; unfold n; lia).
    rewrite E. reflexivity. }
  rewrite Hclip1, Hclip2 in Hrows.
  rewrite batch_step_assign_short; [reflexivity | | | ]; unfold n in *; lia.
Qed.

End HarnessSizes.

(** X10: with [batch_size >= 2] and a network that returns one row per
    image, a pass of the batching loop of [test] ends without an exception
    exactly when the dataset holds 0, [batch_size] or [batch_size + 1]
    images; for every other size it raises [ValueError] at line 255. *)
Theorem X10_embed_pass_sizes (Img Emb : Type) (scale : Img -> Img)
  (backbone : list Img -> result (list Emb)) (data : list Img)
  (batch_size : Z) (calls : list (list Img)) :
  (forall b, exists out, backbone b = Ok out /\ length out = length b) ->
  (2 <= batch_size)%Z ->
  let n := Z.of_nat (length data) in
  ((exists embeddings calls',
      embed_pass scale backbone data batch_size calls
      = Some (Ok embeddings, calls')) <->
   (n = 0 \/ n = batch_size \/ n = batch_size + 1)%Z) /\
  (~ (n = 0 \/ n = batch_size \/ n = batch_size + 1)%Z ->
   exists calls',
     embed_pass scale backbone data batch_size calls
     = Some (Raise ValueError, calls')).
Proof.
  intros Hrows Hbs n.
  assert (Hraise : ~ (n = 0 \/ n = batch_size \/ n = batch_size + 1)%Z ->
            exists calls',
              embed_pass scale backbone data batch_size calls
              = Some (Raise ValueError, calls')).
  { intro Hn.
    destruct (Z_lt_le_dec n batch_size) as [Hlt|Hge].
    - eexists. apply (embed_pass_short_dataset Img Emb scale backbone Hrows);
        unfold n in *; lia.
    - eexists.
      apply (embed_pass_second_turn_raises Img Emb scale backbone Hrows);
        unfold n in *; lia. }
  split; [|exact Hraise]. split.
  - intros (embeddings & calls' & Hok).
    destruct (Z.eq_dec n 0) as [|H0]; [auto|].
    destruct (Z.eq_dec n batch_size) as [|H1]; [auto|].
    destruct (Z.eq_dec n (batch_size + 1)) as [|H2]; [auto|].
    destruct Hraise as [calls'' Hr]; [lia|]. congruence.
  - intros [H0|[H1|H2]].
    + exists None, calls. unfold embed_pass. apply batch_loop_done.
      unfold n in H0. lia.
    + destruct (embed_pass_full_batch Img Emb scale backbone Hrows data
                  batch_size calls) as (out & _ & _ & Hok);
        [lia | exact H1 | eauto].
    + destruct (embed_pass_one_more Img Emb scale backbone Hrows data
                  batch_size calls) as (out1 & out2 & _ & _ & _ & Hok);
        [lia | exact H2 | eauto].
Qed.

Lemma X10_embed_pass_sizes_witness :
  ((exists embeddings calls',
      embed_pass (fun x : nat => x) Example.echo (seq 0 7) 4 []
      = Some (Ok embeddings, calls')) <->
   (Z.of_nat (length (seq 0 7)) = 0
    \/ Z.of_nat (length (seq 0 7)) = 4
    \/ Z.of_nat (length (seq 0 7)) = 4 + 1)%Z) /\
  (~ (Z.of_nat (length (seq 0 7)) = 0
      \/ Z.of_nat (length (seq 0 7)) = 4
      \/ Z.of_nat (length (seq 0 7)) = 4 + 1)%Z ->
   exists calls',
     embed_pass (fun x : nat => x) Example.echo (seq 0 7) 4 []
     = Some (Raise ValueError, calls')).
Proof.
  apply (X10_embed_pass_sizes nat nat (fun x => x) Example.echo (seq 0 7) 4
           []).
  - intro b. exists b. split; reflexivity.
  - lia.
Defined.

(** X11: on a dataset of exactly [batch_size] images the pass calls the
    network once, on all the images, and returns its output: one embedding
    per image, in dataset order. *)
Theorem X11_embed_pass_one_full_batch (Img Emb : Type) (scale : Img -> Img)
  (backbone : list Img -> result (list Emb)) (data : list Img)
  (batch_size : Z) (calls : list (list Img)) :
  (forall b, exists out, backbone b = Ok out /\ length out = length b) ->
  (1 <= batch_size)%Z -> Z.of_nat (length data) = batch_size ->
  exists out,
    backbone (map scale data) = Ok out /\ length out = length data /\
    embed_pass scale backbone data batch_size calls
    = Some (Ok (Some out), calls ++ [map scale data]).
Proof.
  intros Hrows Hbs Hn.
  exact (embed_pass_full_batch Img Emb scale backbone Hrows data batch_size
           calls Hbs Hn).
Qed.

Lemma X11_embed_pass_one_full_batch_witness :
  exists out,
    Example.echo (map (fun x => x) (seq 0 4)) = Ok out /\
    length out = length (seq 0 4) /\
    embed_pass (fun x : nat => x) Example.echo (seq 0 4) 4 []
    = Some (Ok (Some out), [] ++ [map (fun x => x) (seq 0 4)]).
Proof.
  apply (X11_embed_pass_one_full_batch nat nat (fun x => x) Example.echo
           (seq 0 4) 4 []).
  - intro b. exists b. split; reflexivity.
  - lia.
  - reflexivity.
Defined.

(** X12: on a dataset of [batch_size + 1] images the pass calls the network
    on [data[0:batch_size]] and on [data[1:batch_size+1]] and returns the
    output of the second call only: a matrix of [batch_size] rows, one
    fewer than there are images, whose first row belongs to the second
    image. *)
Theorem X12_embed_pass_one_image_more (Img Emb : Type) (scale : Img -> Img)
  (backbone : list Img -> result (list Emb)) (data : list Img)
  (batch_size : Z) (calls : list (list Img)) :
  (forall b, exists out, backbone b = Ok out /\ length out = length b) ->
  (1 <= batch_size)%Z -> Z.of_nat (length data) = (batch_size + 1)%Z ->
  exists out1 out2,
    backbone (map scale (Np.slice data 0 batch_size)) = Ok out1 /\
    backbone (map scale (Np.slice data 1 (batch_size + 1))) = Ok out2 /\
    Z.of_nat (length out2) = batch_size /\
    embed_pass scale backbone data batch_size calls
    = Some (Ok (Some out2),
            (calls ++ [map scale (Np.slice data 0 batch_size)])
              ++ [map scale (Np.slice data 1 (batch_size + 1))]).
Proof.
  intros Hrows Hbs Hn.
  exact (embed_pass_one_more Img Emb scale backbone Hrows data batch_size
           calls Hbs Hn).
Qed.

Lemma X12_embed_pass_one_image_more_witness :
  exists out1 out2,
    Example.echo (map (fun x => x) (Np.slice (seq 0 5) 0 4)) = Ok out1 /\
    Example.echo (map (fun x => x) (Np.slice (seq 0 5) 1 (4 + 1))) = Ok out2
    /\
    Z.of_nat (length out2) = 4%Z /\
    embed_pass (fun x : nat => x) Example.echo (seq 0 5) 4 []
    = Some (Ok (Some out2),
            ([] ++ [map (fun x => x) (Np.slice (seq 0 5) 0 4)])
              ++ [map (fun x => x) (Np.slice (seq 0 5) 1 (4 + 1))]).
Proof.
  apply (X12_embed_pass_one_image_more nat nat (fun x => x) Example.echo
           (seq 0 5) 4 []).
  - intro b. exists b. split; reflexivity.
  - lia.
  - reflexivity.
Defined.

(** * [evaluate] *)

Lemma every_other_cons {A : Type} (x : A) (a : list A) :
  every_other (x :: a) = x :: every_other (tl a).
Proof. destruct a; reflexivity. Qed.

(** [a[0::2]] holds the upper half of the entries and [a[1::2]] the lower
    half. *)
Lemma every_other_length {A : Type} (a : list A) :
  length (every_other a) = ((length a + 1) / 2)%nat /\
  length (every_other (tl a)) = (length a / 2)%nat.
Proof.
  induction a as [|x a [IHe IHo]].
  - split; reflexivity.
  - rewrite every_other_cons. cbn [tl length]. rewrite IHe, IHo.
    split; [|f_equal; lia].
    pose proof (Nat.div_mod_eq (length a) 2).
    pose proof (Nat.div_mod_eq (S (length a) + 1) 2).
    pose proof (Nat.mod_upper_bound (length a) 2).
    pose proof (Nat.mod_upper_bound (S (length a) + 1) 2).
    lia.
Qed.

Lemma length_arange_step n step : length (arange_step n step) = n.
Proof. unfold arange_step. rewrite length_map. apply length_seq. Qed.

(** X13: [evaluate] pairs row [2i] of the embeddings with row [2i+1]; on
    an odd number of rows the two halves differ in length and the first
    assertion of [calculate_roc] fails. *)
Theorem X13_evaluate_odd_rows {E : External} (embeddings : Np.ndarray2)
  (actual_issame : list bool) (nrof_folds pca : nat) :
  Nat.Odd (Np.shape0 embeddings) ->
  evaluate embeddings actual_issame nrof_folds pca = Raise AssertionError.
Proof.
  intros [k Hk]. unfold evaluate, calculate_roc.
  unfold Np.shape0 in *. cbn [Np.rows].
  destruct (every_other_length (Np.rows embeddings)) as [He Ho].
  rewrite He, Ho, Hk.
  assert (Hne : ((2 * k + 1 + 1) / 2 =? (2 * k + 1) / 2) = false).
  { apply Nat.eqb_neq.
    pose proof (Nat.div_mod_eq (2 * k + 1 + 1) 2).
    pose proof (Nat.div_mod_eq (2 * k + 1) 2).
    pose proof (Nat.mod_upper_bound (2 * k + 1 + 1) 2).
    pose proof (Nat.mod_upper_bound (2 * k + 1) 2).
    lia. }
  rewrite Hne. reflexivity.
Qed.

Lemma X13_evaluate_odd_rows_witness :
  evaluate (E := Example.external) (Example.column [1; 2; 3])
    [true] 1 0 = Raise AssertionError.
Proof.
  apply (X13_evaluate_odd_rows (E := Example.external)).
  exists 1%nat. reflexivity.
Defined.

Lemma val_fold_spec_bounds {E : External} thresholds dist labels far_target
  fold vf :
  FoldSpec.val_fold_spec thresholds dist labels far_target fold vf ->
  (0 <= fst vf /\ fst vf <= 1) /\ (0 <= snd vf /\ snd vf <= 1).
Proof.
  intros (far_train & m & threshold & _ & _ & _ & _ & H).
  destruct vf as [v f]. eapply val_far_at_bounds. exact H.
Qed.

Lemma mean_unit_interval (a : list Q) :
  a <> [] -> Forall (fun x => 0 <= x /\ x <= 1) a ->
  0 <= Np.mean a /\ Np.mean a <= 1.
Proof. intros Hne Ha. unfold Np.mean. apply mean_unit_bounds; assumption. Qed.

(** X14: whenever [evaluate] returns, the TPR and FPR curves have the 400
    points of the grid [np.arange(0, 4, 0.01)], there is one accuracy per
    fold, and every point of the curves, every accuracy, the mean VAL and
    the mean FAR lie in [[0,1]]. *)
Theorem X14_evaluate_result_shape {E : External} (embeddings : Np.ndarray2)
  (actual_issame : list bool) (nrof_folds pca : nat)
  (tpr fpr accuracy : list Q) (val val_std far : Q) :
  evaluate embeddings actual_issame nrof_folds pca
  = Ok (tpr, fpr, accuracy, val, val_std, far) ->
  length tpr = 400%nat /\ length fpr = 400%nat /\
  length accuracy = nrof_folds /\
  Forall (fun x => 0 <= x /\ x <= 1) tpr /\
  Forall (fun x => 0 <= x /\ x <= 1) fpr /\
  Forall (fun x => 0 <= x /\ x <= 1) accuracy /\
  (0 <= val /\ val <= 1) /\ (0 <= far /\ far <= 1).
Proof.
  unfold evaluate. intro H.
  bind_ok H roc Eroc. destruct roc as [[tpr' fpr'] acc'].
  bind_ok H vals Eval. destruct vals as [[vm vs] fm].
  injection H as <- <- <- <- _ <-.
  pose proof Eroc as Hroc.
  apply calculate_roc_ok_inv in Hroc
    as (folds & rs & _ & _ & _ & _ & Htpr & Hfpr & _).
  assert (Hlt : length tpr' = 400%nat)
    by (rewrite Htpr, length_pointwise_mean; apply length_arange_step).
  assert (Hlf : length fpr' = 400%nat)
    by (rewrite Hfpr, length_pointwise_mean; apply length_arange_step).
  apply calculate_roc_unit_interval in Eroc as (Hk & Hacc & Ht & Hf).
  apply calculate_val_ok_inv in Eval
    as (vfolds & vfs & _ & Hvk & Hpos & HF & -> & _ & ->).
  assert (Hall : Forall (fun vf => (0 <= fst vf /\ fst vf <= 1) /\
                                   (0 <= snd vf /\ snd vf <= 1)) vfs).
  { clear - HF. induction HF as [|fold vf folds vfs Hvf _ IH];
      constructor; [|exact IH].
    eapply val_fold_spec_bounds. exact Hvf. }
  assert (Hne : vfs <> []).
  { pose proof (forall2_length _ _ _ HF) as Hl.
    destruct vfs; [cbn [length] in Hl; lia | discriminate]. }
  repeat match goal with |- _ /\ _ => split end; try assumption.
  - apply mean_unit_interval.
    + destruct vfs; [congruence | discriminate].
    + apply Forall_map. eapply Forall_impl; [|exact Hall]. cbn. tauto.
  - apply mean_unit_interval.
    + destruct vfs; [congruence | discriminate].
    + apply Forall_map. eapply Forall_impl; [|exact Hall]. cbn. tauto.
  - apply mean_unit_interval.
    + destruct vfs; [congruence | discriminate].
    + apply Forall_map. eapply Forall_impl; [|exact Hall]. cbn. tauto.
  - apply mean_unit_interval.
    + destruct vfs; [congruence | discriminate].
    + apply Forall_map. eapply Forall_impl; [|exact Hall]. cbn. tauto.
Qed.

Lemma evaluate_example_returns :
  match evaluate (E := Example.external)
          (Example.column [1 # 10; 0; 3; 0]) [true; false] 1 0 with
  | Ok _ => true
  | Raise _ => false
  end = true.
Proof. vm_compute. reflexivity. Qed.

Lemma X14_evaluate_result_shape_witness :
  match evaluate (E := Example.external)
          (Example.column [1 # 10; 0; 3; 0]) [true; false] 1 0 with
  | Ok (tpr, fpr, accuracy, val, val_std, far) =>
      length tpr = 400%nat /\ length fpr = 400%nat /\
      length accuracy = 1%nat /\
      Forall (fun x => 0 <= x /\ x <= 1) tpr /\
      Forall (fun x => 0 <= x /\ x <= 1) fpr /\
      Forall (fun x => 0 <= x /\ x <= 1) accuracy /\
      (0 <= val /\ val <= 1) /\ (0 <= far /\ far <= 1)
  | Raise _ => False
  end.
Proof.
  pose proof evaluate_example_returns as Hret.
  destruct (evaluate (E := Example.external)
              (Example.column [1 # 10; 0; 3; 0]) [true; false] 1 0)
    as [[[[[[tpr fpr] accuracy] val] val_std] far]|e] eqn:H.
  - exact (X14_evaluate_result_shape (E := Example.external) _ _ _ _ _ _ _
             _ _ _ H).
  - discriminate Hret.
Defined.

(** * [test] as a whole *)

Section TestProofs.

Context {E : External}.

Variable Img : Type.
Variable scale : Img -> Img.
Variable backbone : list Img -> result (list (list Q)).
Variable normalize_array : list (list Q) -> result (list (list Q)).

Hypothesis backbone_rows :
  forall b, exists out, backbone b = Ok out /\ length out = length b.

Lemma embed_pass_empty (batch_size : Z) calls :
  embed_pass scale backbone [] batch_size calls = Some (Ok None, calls).
Proof. reflexivity. Qed.

(** A pass over a dataset of any other size than 0, [batch_size] and
    [batch_size + 1] raises. *)
Lemma embed_pass_raises (data : list Img) (batch_size : Z) calls :
  (2 <= batch_size)%Z ->
  let n := Z.of_nat (length data) in
  ~ (n = 0 \/ n = batch_size \/ n = batch_size + 1)%Z ->
  exists calls',
    embed_pass scale backbone data batch_size calls
    = Some (Raise ValueError, calls').
Proof.
  intros Hbs n Hn.
  destruct (Z_lt_le_dec n batch_size) as [Hlt|Hge].
  - eexists.
    apply (embed_pass_short_dataset Img _ scale backbone backbone_rows);
      unfold n in *; lia.
  - eexists.
    apply (embed_pass_second_turn_raises Img _ scale backbone backbone_rows);
      unfold n in *; lia.
Qed.

(** A pass that returns an array ran on [batch_size] or [batch_size + 1]
    images. *)
Lemma embed_pass_some_inv (data : list Img) (batch_size : Z) calls
  embeddings calls' :
  (2 <= batch_size)%Z ->
  embed_pass scale backbone data batch_size calls
  = Some (Ok (Some embeddings), calls') ->
  (Z.of_nat (length data) = batch_size
   \/ Z.of_nat (length data) = batch_size + 1)%Z.
Proof.
  intros Hbs H.
  destruct (Z.eq_dec (Z.of_nat (length data)) batch_size) as [|H1]; [auto|].
  destruct (Z.eq_dec (Z.of_nat (length data)) (batch_size + 1)) as [|H2];
    [auto|].
  exfalso. destruct data as [|x data].
  - rewrite embed_pass_empty in H. discriminate.
  - destruct (embed_pass_raises (x :: data) batch_size calls Hbs) as [c Hc].
    + cbn [length] in *. lia.
    + congruence.
Qed.

Lemma embed_passes_ok_inv (batch_size : Z) (data_list : list (list Img)) :
  forall embeddings_list0 calls embeddings_list calls',
    embed_passes scale backbone data_list batch_size embeddings_list0 calls
    = Some (Ok embeddings_list, calls') ->
    exists passes,
      embeddings_list = embeddings_list0 ++ passes /\
      Forall2 (fun data embeddings =>
                 exists c c',
                   embed_pass scale backbone data batch_size c
                   = Some (Ok embeddings, c')) data_list passes.
Proof.
  induction data_list as [|data data_list IH];
    intros el0 calls el calls' H; cbn [embed_passes] in H.
  - injection H as <- <-. exists []. rewrite app_nil_r. split; constructor.
  - destruct (embed_pass scale backbone data batch_size calls)
      as [[[emb|e] c]|] eqn:Ep; try discriminate.
    apply IH in H as (passes & -> & HF).
    exists (emb :: passes). rewrite <- app_assoc. split; [reflexivity|].
    constructor; eauto.
Qed.

Lemma xnorm_loop_ok_inv (embeddings_list : list (option (list (list Q)))) :
  forall xnorm cnt arrays xnorm' cnt' arrays',
    xnorm_loop embeddings_list xnorm cnt arrays = Ok (xnorm', cnt', arrays')
    ->
    Forall (fun e => e <> None) embeddings_list /\
    length arrays' = (length arrays + length embeddings_list)%nat.
Proof.
  induction embeddings_list as [|[embed|] rest IH];
    intros xnorm cnt arrays xnorm' cnt' arrays' H; cbn [xnorm_loop] in H.
  - injection H as _ _ <-. split; [constructor | cbn; lia].
  - apply IH in H as [Hall Hlen]. split.
    + constructor; [discriminate | exact Hall].
    + rewrite Hlen, length_app. cbn. lia.
  - discriminate.
Qed.

Lemma test_metrics_ok_inv embeddings_list issame_list nfolds r :
  test_metrics normalize_array embeddings_list issame_list nfolds = Ok r ->
  Forall (fun e => e <> None) embeddings_list /\
  (2 <= length embeddings_list)%nat.
Proof.
  unfold test_metrics. intro H.
  bind_ok H xl Eloop. destruct xl as [[xnorm cnt] arrays].
  apply xnorm_loop_ok_inv in Eloop as [Hall Hlen]. cbn [length] in Hlen.
  split; [exact Hall|].
  bind_ok H xn Exn. bind_ok H e0 E0. bind_ok H n0 En0.
  bind_ok H ev0 Eev0. destruct ev0 as [[[[[? ?] acc] ?] ?] ?].
  bind_ok H arr1 Esecond.
  apply getitem_ok_iff in Esecond.
  assert (1 < length arrays)%nat by (apply nth_error_Some; congruence).
  lia.
Qed.

End TestProofs.

(** X15: with [batch_size >= 2] and a network that returns one row per
    image, [test] raises [ValueError] in the batching loop, before any
    metric is computed, as soon as its first array of images holds a number
    of images other than 0, [batch_size] and [batch_size + 1]. *)
Theorem X15_test_raises_on_other_sizes {E : External} (Img : Type)
  (scale : Img -> Img) (backbone : list Img -> result (list (list Q)))
  (normalize_array : list (list Q) -> result (list (list Q)))
  (data : list Img) (more : list (list Img)) (issame_list : list bool)
  (batch_size : Z) (nfolds : nat) :
  (forall b, exists out, backbone b = Ok out /\ length out = length b) ->
  (2 <= batch_size)%Z ->
  ~ (Z.of_nat (length data) = 0 \/ Z.of_nat (length data) = batch_size
     \/ Z.of_nat (length data) = batch_size + 1)%Z ->
  test scale backbone normalize_array (data :: more, issame_list)
    batch_size nfolds
  = Some (Raise ValueError).
Proof.
  intros Hrows Hbs Hn. unfold test. cbn [fst snd embed_passes].
  destruct (embed_pass_raises Img scale backbone Hrows data batch_size []
              Hbs Hn) as [calls' Hr].
  rewrite Hr. reflexivity.
Qed.

Lemma X15_test_raises_on_other_sizes_witness :
  test (E := Example.external) (fun x : Z => x) TestExample.embed_numbers
    TestExample.normalize_rows
    ([1; 2; 3; 4; 5; 6; 7]%Z :: [[7; 6; 5; 4; 3; 2; 1]%Z], [true; false])
    4 1
  = Some (Raise ValueError).
Proof.
  apply (X15_test_raises_on_other_sizes (E := Example.external)).
  - intro b. eexists. split; [reflexivity|].
    unfold TestExample.embed_numbers. apply length_map.
  - lia.
  - cbn. lia.
Defined.

(** X16: [test] on a [data_set] without any array of images raises
    [ZeroDivisionError] (the mean norm divides by a count of zero), and on
    arrays that hold no image it raises [AttributeError] (the embeddings
    of a pass are still [None]). *)
Theorem X16_test_without_images {E : External} (Img : Type)
  (scale : Img -> Img) (backbone : list Img -> result (list (list Q)))
  (normalize_array : list (list Q) -> result (list (list Q)))
  (data_list : list (list Img)) (issame_list : list bool)
  (batch_size : Z) (nfolds : nat) :
  Forall (fun data => data = []) data_list ->
  test scale backbone normalize_array (data_list, issame_list) batch_size
    nfolds
  = Some (Raise (match data_list with
                 | [] => ZeroDivisionError
                 | _ => AttributeError
                 end)).
Proof.
  intro Hall. unfold test. cbn [fst snd].
  assert (Hp : forall el calls,
             embed_passes scale backbone data_list batch_size el calls
             = Some (Ok (el ++ map (fun _ => None) data_list), calls)).
  { induction Hall as [|data data_list -> _ IH]; intros el calls;
      cbn [embed_passes map].
    - rewrite app_nil_r. reflexivity.
    - rewrite embed_pass_empty, IH, <- app_assoc. reflexivity. }
  rewrite Hp. cbn [app]. destruct data_list; reflexivity.
Qed.

Lemma X16_test_without_images_witness :
  test (E := Example.external) (fun x : Z => x) TestExample.embed_numbers
    TestExample.normalize_rows ([[]; []], [true; false]) 4 1
  = Some (Raise AttributeError).
Proof.
  apply (X16_test_without_images (E := Example.external) Z (fun x => x)
           TestExample.embed_numbers TestExample.normalize_rows [[]; []]).
  repeat constructor.
Defined.

(** X17: with [batch_size >= 2] and a network that returns one row per
    image, [test] can only return its metrics when [data_set] holds at
    least two arrays of images and every array holds exactly [batch_size]
    or [batch_size + 1] images. *)
Theorem X17_test_returns_only_for_one_batch {E : External} (Img : Type)
  (scale : Img -> Img) (backbone : list Img -> result (list (list Q)))
  (normalize_array : list (list Q) -> result (list (list Q)))
  (data_list : list (list Img)) (issame_list : list bool)
  (batch_size : Z) (nfolds : nat)
  (r : Q * Q * Q * Q * Q * list (option (list (list Q)))) :
  (forall b, exists out, backbone b = Ok out /\ length out = length b) ->
  (2 <= batch_size)%Z ->
  test scale backbone normalize_array (data_list, issame_list) batch_size
    nfolds = Some (Ok r) ->
  (2 <= length data_list)%nat /\
  Forall (fun data => (Z.of_nat (length data) = batch_size
                       \/ Z.of_nat (length data) = batch_size + 1)%Z)
         data_list.
Proof.
  intros Hrows Hbs H. unfold test in H. cbn [fst snd] in H.
  destruct (embed_passes scale backbone data_list batch_size [] [])
    as [[[el|e] calls]|] eqn:Ep; try discriminate.
  injection H as H.
  apply embed_passes_ok_inv in Ep as (passes & -> & HF). cbn [app] in H.
  apply test_metrics_ok_inv in H as [Hsome Hlen].
  pose proof (forall2_length _ _ _ HF) as Hl.
  split; [lia|].
  clear Hlen Hl. induction HF as [|data emb dl passes Hp _ IH].
  - constructor.
  - inversion Hsome as [|? ? Hemb Hrest]; subst. constructor; [|auto].
    destruct Hp as (c & c' & Hp). destruct emb as [emb|]; [|congruence].
    eapply (embed_pass_some_inv Img scale backbone Hrows); eassumption.
Qed.

Lemma test_example_returns :
  match test (E := Example.external) TestExample.rescale
          TestExample.embed_pixels TestExample.normalize_rows
          (TestExample.images, [true; false]) 4 1 with
  | Some (Ok _) => true
  | _ => false
  end = true.
Proof. vm_compute. reflexivity. Qed.

Lemma X17_test_returns_only_for_one_batch_witness :
  match test (E := Example.external) TestExample.rescale
          TestExample.embed_pixels TestExample.normalize_rows
          (TestExample.images, [true; false]) 4 1 with
  | Some (Ok _) =>
      (2 <= length TestExample.images)%nat /\
      Forall (fun data => (Z.of_nat (length data) = 4
                           \/ Z.of_nat (length data) = 4 + 1)%Z)
             TestExample.images
  | _ => False
  end.
Proof.
  pose proof test_example_returns as Hret.
  destruct (test (E := Example.external) TestExample.rescale
              TestExample.embed_pixels TestExample.normalize_rows
              (TestExample.images, [true; false]) 4 1)
    as [[r|e]|] eqn:H.
  - apply (X17_test_returns_only_for_one_batch (E := Example.external) Q
             TestExample.rescale TestExample.embed_pixels
             TestExample.normalize_rows TestExample.images
             [true; false] 4 1 r); [ | lia | exact H ].
    intro b. eexists. split; [reflexivity|].
    unfold TestExample.embed_pixels. apply length_map.
  - discriminate Hret.
  - discriminate Hret.
Defined.

(** * The construction of [IResNet] *)

Section IresnetProofs.

Import Iresnet.

Lemma IBasicBlock_init_plain inplanes planes stride downsample dilation :
  (dilation <= 1)%nat ->
  IBasicBlock_init inplanes planes stride downsample 1 64 dilation
  = Built {| Iresnet.inplanes := inplanes; Iresnet.planes := planes;
             Iresnet.stride := stride; Iresnet.downsample := downsample |}.
Proof.
  intro H. unfold IBasicBlock_init. cbn [Nat.eqb negb orb].
  rewrite (proj2 (Nat.ltb_ge 1 dilation) H). reflexivity.
Qed.

Lemma IBasicBlock_init_dilated inplanes planes stride downsample dilation :
  (2 <= dilation)%nat ->
  IBasicBlock_init inplanes planes stride downsample 1 64 dilation
  = Raised NotImplementedError.
Proof.
  intro H. unfold IBasicBlock_init. cbn [Nat.eqb negb orb].
  rewrite (proj2 (Nat.ltb_lt 1 dilation) H). reflexivity.
Qed.

Lemma IBasicBlock_init_groups inplanes planes stride downsample groups
  base_width dilation :
  groups <> 1%nat \/ base_width <> 64%nat ->
  IBasicBlock_init inplanes planes stride downsample groups base_width
    dilation = Raised ValueError.
Proof.
  intro H. unfold IBasicBlock_init.
  destruct (groups =? 1) eqn:Eg, (base_width =? 64) eqn:Ew;
    cbn [negb orb]; try reflexivity.
  apply Nat.eqb_eq in Eg. apply Nat.eqb_eq in Ew. tauto.
Qed.

Lemma more_blocks_plain count planes :
  more_blocks count (plain_state (planes * expansion) 1) planes
  = Built (repeat (inner_block planes) count).
Proof.
  induction count as [|count IH]; cbn [more_blocks repeat]; [reflexivity|].
  rewrite IH. unfold plain_state. cbn [self_inplanes self_groups
    self_base_width self_dilation].
  rewrite IBasicBlock_init_plain by lia. cbn [and_then].
  unfold inner_block, expansion. rewrite Nat.mul_1_r. reflexivity.
Qed.

Lemma more_blocks_dilated count inplanes dilation planes :
  (2 <= dilation)%nat -> (1 <= count)%nat ->
  more_blocks count (plain_state inplanes dilation) planes
  = Raised NotImplementedError.
Proof.
  intros Hd Hc. destruct count as [|count]; [lia|]. cbn [more_blocks].
  unfold plain_state. cbn [self_inplanes self_groups self_base_width
    self_dilation].
  rewrite IBasicBlock_init_dilated by assumption. reflexivity.
Qed.

(** A layer built without dilation, from channels other than its own:
    one entry block that halves the resolution, then inner blocks. *)
Lemma make_layer_plain inplanes planes blocks :
  make_layer (plain_state inplanes 1) planes blocks 2 false
  = Built (entry_block inplanes planes :: repeat (inner_block planes)
                                            (blocks - 1),
           plain_state (planes * expansion) 1).
Proof.
  unfold make_layer, plain_state.
  cbn [self_inplanes self_groups self_base_width self_dilation Nat.eqb negb
       orb].
  rewrite IBasicBlock_init_plain by lia. cbn [and_then].
  fold (plain_state (planes * expansion) 1).
  rewrite more_blocks_plain. cbn [and_then].
  unfold entry_block, expansion. rewrite Nat.mul_1_r. reflexivity.
Qed.

(** A layer that replaces its stride with dilation: its first block is
    built, and no other block can be. *)
Lemma make_layer_dilate inplanes planes blocks :
  make_layer (plain_state inplanes 1) planes blocks 2 true
  = if blocks <=? 1
    then Built ([{| Iresnet.inplanes := inplanes; Iresnet.planes := planes;
                    Iresnet.stride := 1;
                    Iresnet.downsample :=
                      if negb (inplanes =? planes * expansion)
                      then Some {| ds_inplanes := inplanes;
                                   ds_planes := planes * expansion;
                                   ds_stride := 1 |}
                      else None |}],
                plain_state (planes * expansion) 2)
    else Raised NotImplementedError.
Proof.
  unfold make_layer, plain_state.
  cbn [self_inplanes self_groups self_base_width self_dilation Nat.eqb negb
       orb].
  change (1 * 2)%nat with 2%nat.
  rewrite IBasicBlock_init_plain by lia. cbn [and_then].
  fold (plain_state (planes * expansion) 2).
  destruct (blocks <=? 1) eqn:Eb.
  - apply Nat.leb_le in Eb.
    replace (blocks - 1)%nat with 0%nat by lia. reflexivity.
  - apply Nat.leb_gt in Eb.
    rewrite more_blocks_dilated by lia. reflexivity.
Qed.

(** Once the network is dilated, no further layer can be built. *)
Lemma make_layer_after_dilation inplanes dilation planes blocks stride
  dilate :
  (2 <= dilation)%nat ->
  make_layer (plain_state inplanes dilation) planes blocks stride dilate
  = Raised NotImplementedError.
Proof.
  intro H. unfold make_layer, plain_state.
  cbn [self_inplanes self_groups self_base_width self_dilation].
  rewrite IBasicBlock_init_dilated by assumption. reflexivity.
Qed.

(** X18: [IBasicBlock] rejects a dilation above 1, so
    [replace_stride_with_dilation] is of no use to [IResNet]: with
    [groups = 1] and [width_per_group = 64], a true flag for the second or
    the third layer always makes the constructor raise
    [NotImplementedError], and a true flag for the fourth layer does so as
    soon as that layer has two blocks or more. *)
Theorem X18_iresnet_dilation_unsupported {H : Type} (head : outcome H)
  (blocks1 blocks2 blocks3 blocks4 : nat) (more : list nat)
  (dilate2 dilate3 dilate4 : bool) :
  dilate2 = true \/ dilate3 = true
  \/ (dilate4 = true /\ (2 <= blocks4)%nat) ->
  IResNet_init head (blocks1 :: blocks2 :: blocks3 :: blocks4 :: more) 1 64
    (Some [dilate2; dilate3; dilate4])
  = Raised NotImplementedError.
Proof.
  intro Hflag. unfold IResNet_init. cbn [length Nat.eqb negb item nth_error].
  fold (plain_state 64 1). cbn [and_then].
  rewrite make_layer_plain. cbn [and_then].
  destruct dilate2.
  - rewrite make_layer_dilate.
    destruct (blocks2 <=? 1); [cbn [and_then] | reflexivity].
    rewrite make_layer_after_dilation by lia. reflexivity.
  - rewrite make_layer_plain. cbn [and_then].
    destruct dilate3.
    + rewrite make_layer_dilate.
      destruct (blocks3 <=? 1); [cbn [and_then] | reflexivity].
      rewrite make_layer_after_dilation by lia. reflexivity.
    + rewrite make_layer_plain. cbn [and_then].
      destruct Hflag as [Hf|[Hf|[-> Hb]]]; try discriminate.
      rewrite make_layer_dilate.
      rewrite (proj2 (Nat.leb_gt blocks4 1)) by lia. reflexivity.
Qed.

Lemma X18_iresnet_dilation_unsupported_witness :
  IResNet_init (Built tt) [3; 4; 14; 3]%nat 1 64 (Some [false; false; true])
  = Raised NotImplementedError.
Proof.
  apply (X18_iresnet_dilation_unsupported (Built tt) 3 4 14 3 []
           false false true).
  right. right. split; [reflexivity | lia].
Defined.

(** X19: [IBasicBlock] supports [groups = 1] and [base_width = 64] only,
    so [IResNet] raises [ValueError] for every other [groups] or
    [width_per_group], whatever the layers asked for. *)
Theorem X19_iresnet_groups_unsupported {H : Type} (head : outcome H)
  (blocks1 : nat) (more : list nat) (groups width_per_group : nat)
  (replace_stride_with_dilation : option (list bool)) :
  groups <> 1%nat \/ width_per_group <> 64%nat ->
  IResNet_init head (blocks1 :: more) groups width_per_group
    replace_stride_with_dilation
  = Raised ValueError.
Proof.
  intro Hg. unfold IResNet_init.
  destruct (negb (length match replace_stride_with_dilation with
                         | Some r => r
                         | None => [false; false; false]
                         end =? 3)); [reflexivity|].
  cbn [item nth_error and_then]. unfold make_layer.
  cbn [self_inplanes self_groups self_base_width self_dilation].
  rewrite IBasicBlock_init_groups by assumption. reflexivity.
Qed.

Lemma X19_iresnet_groups_unsupported_witness :
  IResNet_init (Built tt) [3; 4; 14; 3]%nat 2 64 None = Raised ValueError.
Proof.
  apply (X19_iresnet_groups_unsupported (Built tt) 3 [4; 14; 3]%nat 2 64
           None).
  left. discriminate.
Defined.

Lemma chained_repeat_inner planes count :
  chained planes (repeat (inner_block planes) count).
Proof.
  induction count as [|count IH]; cbn [repeat chained]; [exact I|].
  split; [reflexivity | exact IH].
Qed.

Lemma chained_layer_app inplanes planes count (blocks : list IBasicBlock) :
  chained planes blocks ->
  chained inplanes
    ((entry_block inplanes planes :: repeat (inner_block planes) count)
       ++ blocks).
Proof.
  intro Hb. cbn [app chained]. split; [reflexivity|].
  change (Iresnet.planes (entry_block inplanes planes)) with planes.
  induction count as [|count IH]; cbn [repeat app chained]; [exact Hb|].
  split; [reflexivity | exact IH].
Qed.

(** X20: without dilation, and with [groups = 1] and
    [width_per_group = 64], the four layers of [IResNet] are built whatever
    block counts are asked for.  Layer [i] holds [max(1, layers[i])]
    blocks with 64, 128, 256 and 512 channels; its first block halves the
    resolution through a stride of 2, with a shortcut branch of the same
    stride, and the others keep it; and every block takes the channels the
    block before it gives, from the 64 channels of the first
    convolution on. *)
Theorem X20_iresnet_layout {H : Type} (h : H)
  (blocks1 blocks2 blocks3 blocks4 : nat) (more : list nat) :
  exists layer1 layer2 layer3 layer4,
    IResNet_init (Built h) (blocks1 :: blocks2 :: blocks3 :: blocks4 :: more)
      1 64 None
    = Built ([layer1; layer2; layer3; layer4], h) /\
    map (@length IBasicBlock) [layer1; layer2; layer3; layer4]
    = [Nat.max 1 blocks1; Nat.max 1 blocks2; Nat.max 1 blocks3;
       Nat.max 1 blocks4] /\
    Forall2 (fun layer p =>
               Forall (fun b => Iresnet.planes b = p) layer /\
               exists b inner,
                 layer = b :: inner /\ Iresnet.stride b = 2%nat /\
                 Iresnet.downsample b
                 = Some {| ds_inplanes := Iresnet.inplanes b;
                           ds_planes := p; ds_stride := 2 |} /\
                 Forall (fun b' => Iresnet.stride b' = 1%nat /\
                                   Iresnet.downsample b' = None) inner)
            [layer1; layer2; layer3; layer4] [64; 128; 256; 512]%nat /\
    chained 64 (all_blocks [layer1; layer2; layer3; layer4]).
Proof.
  eexists. eexists. eexists. eexists.
  split.
  { unfold IResNet_init. cbn [length Nat.eqb negb item nth_error].
    fold (plain_state 64 1). cbn [and_then].
    rewrite make_layer_plain. cbn [and_then].
    unfold expansion. rewrite !Nat.mul_1_r.
    rewrite make_layer_plain. cbn [and_then].
    unfold expansion. rewrite !Nat.mul_1_r.
    rewrite make_layer_plain. cbn [and_then].
    unfold expansion. rewrite !Nat.mul_1_r.
    rewrite make_layer_plain. cbn [and_then]. reflexivity. }
  assert (Hlayer : forall inplanes planes count,
            Forall (fun b => Iresnet.planes b = planes)
              (entry_block inplanes planes
                 :: repeat (inner_block planes) count) /\
            exists b inner,
              entry_block inplanes planes
                :: repeat (inner_block planes) count = b :: inner /\
              Iresnet.stride b = 2%nat /\
              Iresnet.downsample b
              = Some {| ds_inplanes := Iresnet.inplanes b;
                        ds_planes := planes; ds_stride := 2 |} /\
              Forall (fun b' => Iresnet.stride b' = 1%nat /\
                                Iresnet.downsample b' = None) inner).
  { intros inplanes planes count. split.
    - constructor; [reflexivity|]. apply Forall_forall. intros b Hb.
      apply repeat_spec in Hb. subst. reflexivity.
    - eexists. eexists. split; [reflexivity|].
      split; [reflexivity|]. split; [reflexivity|].
      apply Forall_forall. intros b Hb. apply repeat_spec in Hb. subst.
      split; reflexivity. }
  split; [|split].
  - cbn [map length]. rewrite !repeat_length. f_equal; [lia|].
    f_equal; [lia|]. f_equal; [lia|]. f_equal. lia.
  - do 4 (apply Forall2_cons; [apply Hlayer|]). apply Forall2_nil.
  - unfold all_blocks. cbn [concat]. rewrite app_nil_r.
    do 3 apply chained_layer_app.
    split; [reflexivity | apply chained_repeat_inner].
Qed.

(** X21: [IResNet] reads [layers[0]] to [layers[3]] one layer after the
    other, so with fewer than four entries the constructor raises
    [IndexError], after it has built the layers that have an entry; the
    entries after the fourth are never read. *)
Theorem X21_iresnet_needs_four_layers {H : Type} (head : outcome H)
  (layers : list nat) :
  (length layers < 4)%nat ->
  IResNet_init head layers 1 64 None = Raised IndexError.
Proof.
  intro Hlen. unfold IResNet_init. cbn [length Nat.eqb negb].
  fold (plain_state 64 1).
  destruct layers as [|blocks1 layers]; [reflexivity|].
  cbn [item nth_error and_then]. rewrite make_layer_plain. cbn [and_then].
  destruct layers as [|blocks2 layers]; [reflexivity|].
  cbn [item nth_error and_then]. rewrite make_layer_plain. cbn [and_then].
  destruct layers as [|blocks3 layers]; [reflexivity|].
  cbn [item nth_error and_then]. rewrite make_layer_plain. cbn [and_then].
  destruct layers as [|blocks4 layers]; [reflexivity|].
  cbn [length] in Hlen. lia.
Qed.

Lemma X21_iresnet_needs_four_layers_witness :
  IResNet_init (Built tt) [3; 4; 14]%nat 1 64 None = Raised IndexError.
Proof.
  apply (X21_iresnet_needs_four_layers (Built tt) [3; 4; 14]%nat).
  cbn [length]. lia.
Defined.

End IresnetProofs.
